(** * duoshe-plugin: the scheduling / selection engine of [plugin.py]

    A shallow embedding of [NapcatAPI] and of [DuoshePlugin]'s
    [_initialize_tasks], [_load_schedule], [_save_schedule],
    [_schedule_task] and [_execute_duoshe], followed by the properties of
    the specification and by further properties of the code.

    Conventions of the embedding.
    - Python values that come out of [json.loads] are terms of [json];
      Python's [None] is [JNull].
    - Python floats (timestamps, intervals, random draws) are exact
      rationals [Q]: arithmetic is carried out without IEEE rounding.
    - Everything outside the plugin (HTTP server, message store, clock,
      random generator, file system, json text codec) is read from a [world]
      record of answer streams; the state carries one cursor per stream, the
      content of [schedule.json], and the trace of the calls performed.
    - A Python exception is the [Raise] result of the [M] monad; effects
      performed before the exception are kept, as in Python.
    - Logging and the look-up of the group's display name only feed log
      lines and are left out. *)

From Stdlib Require Import List String Ascii ZArith QArith Qround Lia Lqa Bool
  Arith.
From Stdlib Require Import Permutation Sorted.
Import ListNotations.
Local Open Scope string_scope.
Local Set Warnings "-register-all".

(** ** Python values *)

Inductive json : Type :=
| JNull
| JBool (b : bool)
| JNum (q : Q)
| JStr (s : string)
| JArr (l : list json)
| JObj (kv : list (string * json)).

(** A [dict] keeps insertion order and has one entry per key. *)
Definition dict := list (string * json).

Fixpoint dict_lookup (d : dict) (k : string) : option json :=
  match d with
  | [] => None
  | (k', v) :: d' => if String.eqb k' k then Some v else dict_lookup d' k
  end.

(** [d.get(k, default)] *)
Definition dict_get_default (d : dict) (k : string) (default : json) : json :=
  match dict_lookup d k with
  | Some v => v
  | None => default
  end.

(** [d.get(k)], whose default is [None] *)
Definition dict_get (d : dict) (k : string) : json := dict_get_default d k JNull.

(** [d[k] = v]: an existing key keeps its position, a new one goes last. *)
Fixpoint dict_set (d : dict) (k : string) (v : json) : dict :=
  match d with
  | [] => [(k, v)]
  | (k', v') :: d' =>
      if String.eqb k' k then (k', v) :: d' else (k', v') :: dict_set d' k v
  end.

(** Truth value of a Python object, as used by [if x:] and [x or y]. *)
Definition truthy (j : json) : bool :=
  match j with
  | JNull => false
  | JBool b => b
  | JNum q => negb (Qeq_bool q 0)
  | JStr s => negb (String.eqb s "")
  | JArr l => match l with [] => false | _ => true end
  | JObj kv => match kv with [] => false | _ => true end
  end.

(** [x == s] for a string literal [s] *)
Definition is_str (j : json) (s : string) : bool :=
  match j with
  | JStr s' => String.eqb s' s
  | _ => false
  end.

(** ** Exceptions *)

Inductive exn : Type :=
| AttributeError
| TypeError
| IndexError
| ZeroDivisionError
| OtherError (msg : string).

Inductive res (A : Type) : Type :=
| Ok (a : A)
| Raise (e : exn).
Arguments Ok {A} a.
Arguments Raise {A} e.

(** ** The outside world *)

(** What [urlopen] followed by [json.loads] produces for one POST. *)
Inductive reply : Type :=
| HTTPError (code : Z)
| URLError (reason : string)
| JSONDecodeError
| RequestException
| Body (j : json).

(** The human-readable diagnostics of the client (the [str] half of
    [Union[dict, str]]). *)
Inductive diagnostic : Type :=
| DiagHttp (code : Z)
| DiagNetwork (reason : string)
| DiagJson
| DiagRequest
| DiagSetCard (message : json)
| DiagEmptyData.

Inductive payload : Type :=
| Data (j : json)
| Diag (d : diagnostic).

Record url : Type := mkUrl { address : string; port : Z; path : string }.

(** A stored message, as far as the plugin reads it. *)
Record user_info_t : Type := mkUserInfo { user_id : string }.
Record message : Type := mkMessage { user_info : option user_info_t }.

(** The calls that leave the plugin, and the call of [_save_schedule]. *)
Inductive event : Type :=
| EvPost (u : url) (body : dict)
| EvMessages (chat_id : string) (start_time end_time : Q)
| EvExpovariate (lambd : Q)
| EvChoice (n : nat)
| EvUniform (a b : Z)
| EvSaveSchedule (schedule_data : json)
| EvSleep (seconds : Z).

(** The plugin's configuration ([config.toml], defaults applied by the
    host) and the host's global bot identity. *)
Record config : Type := mkConfig {
  napcat_address : string;
  napcat_port : Z;
  min_interval : Z;
  max_interval : Z;
  lambda_param : Q;
  bot_qq : string;
  bot_nickname : string;
  bot_alias_names : list string
}.

(** Everything the scheduling loop reads from outside the plugin. *)
Record world : Type := mkWorld {
  http_reply : nat -> reply;              (* outcome of the n-th POST *)
  clock : nat -> Q;                       (* n-th [time.time()] *)
  messages_in_chat : nat -> res (list message);
                                          (* n-th message-store query *)
  random_bits : nat -> Z;                 (* bits behind [random()], n-th draw *)
  neg_log_draw : nat -> Q;                (* [-log(1.0 - random())], n-th draw *)
  randbelow : nat -> nat -> nat;          (* [_randbelow], n-th draw *)
  fs_readable : bool;
  fs_writable : bool;
  json_dump : json -> string;             (* [json.dump], as text *)
  json_load : string -> option json       (* [json.load]; [None]: it raises *)
}.

Record state : Type := mkState {
  trace : list event;                     (* oldest first *)
  posts : nat;                            (* POSTs sent so far *)
  ticks : nat;                            (* clock readings so far *)
  queries : nat;                          (* message-store queries so far *)
  draws : nat;                            (* calls into [random] so far *)
  schedule_file : option string           (* [schedule.json]; [None]: absent *)
}.

Definition log (e : event) (s : state) : state :=
  mkState (trace s ++ [e]) (posts s) (ticks s) (queries s) (draws s)
          (schedule_file s).
Definition next_post (s : state) : state :=
  mkState (trace s) (S (posts s)) (ticks s) (queries s) (draws s)
          (schedule_file s).
Definition next_tick (s : state) : state :=
  mkState (trace s) (posts s) (S (ticks s)) (queries s) (draws s)
          (schedule_file s).
Definition next_query (s : state) : state :=
  mkState (trace s) (posts s) (ticks s) (S (queries s)) (draws s)
          (schedule_file s).
Definition next_draw (s : state) : state :=
  mkState (trace s) (posts s) (ticks s) (queries s) (S (draws s))
          (schedule_file s).
Definition set_file (f : option string) (s : state) : state :=
  mkState (trace s) (posts s) (ticks s) (queries s) (draws s) f.

(** ** The effect monad *)

Definition M (A : Type) : Type := state -> res A * state.

Definition ret {A} (a : A) : M A := fun s => (Ok a, s).
Definition bind {A B} (m : M A) (k : A -> M B) : M B :=
  fun s => match m s with
           | (Ok a, s') => k a s'
           | (Raise e, s') => (Raise e, s')
           end.
(** [try: m except Exception as e: h e] *)
Definition try_except {A} (m : M A) (h : exn -> M A) : M A :=
  fun s => match m s with
           | (Ok a, s') => (Ok a, s')
           | (Raise e, s') => h e s'
           end.
Definition lift {A} (r : res A) : M A := fun s => (r, s).
Definition emit (e : event) : M unit := fun s => (Ok tt, log e s).

Declare Scope py_scope.
Delimit Scope py_scope with py.
Notation "x <- m ;; k" := (bind m (fun x => k))
  (at level 100, m at next level, right associativity) : py_scope.
Notation "' pat <- m ;; k" := (bind m (fun x => match x with pat => k end))
  (at level 100, pat pattern, m at next level, right associativity) : py_scope.
Notation "m ;;; k" := (bind m (fun _ => k))
  (at level 100, right associativity) : py_scope.
Local Open Scope py_scope.

(** ** Python built-ins *)

(** [obj.get(k, default)]: only a [dict] has the method. *)
Definition py_get (obj : json) (k : string) (default : json) : res json :=
  match obj with
  | JObj d => Ok (dict_get_default d k default)
  | _ => Raise AttributeError
  end.

(** [obj[k] = v] *)
Definition py_setitem (obj : json) (k : string) (v : json) : res json :=
  match obj with
  | JObj d => Ok (JObj (dict_set d k v))
  | _ => Raise TypeError
  end.

(** [int(x)] on a float: truncation toward zero. *)
Definition py_int (x : Q) : Z := Z.quot (Qnum x) (Zpos (Qden x)).

(** [l[i]], negative indices counting from the end. *)
Definition py_index {A} (l : list A) (i : Z) : res A :=
  let n := Z.of_nat (List.length l) in
  let j := if (i <? 0)%Z then (i + n)%Z else i in
  if ((0 <=? j) && (j <? n))%Z
  then match nth_error l (Z.to_nat j) with
       | Some x => Ok x
       | None => Raise IndexError
       end
  else Raise IndexError.

(** [t >= x] for a float [t]: numbers (and bools, which are ints) compare,
    anything else is a [TypeError]. *)
Definition py_float_ge (t : Q) (x : json) : res bool :=
  match x with
  | JNum q => Ok (Qle_bool q t)
  | JBool b => Ok (Qle_bool (if b then 1 else 0) t)
  | _ => Raise TypeError
  end.

(** [time.time()] *)
Definition time_time (w : world) : M Q :=
  fun s => (Ok (clock w (ticks s)), next_tick s).

(** [asyncio.sleep(seconds)] *)
Definition sleep (seconds : Z) : M unit := emit (EvSleep seconds).

(** [message_api.get_messages_by_time_in_chat(...)], bot and command
    messages filtered by the store. *)
Definition get_messages_by_time_in_chat (w : world) (chat_id : string)
           (start_time end_time : Q) : M (list message) :=
  fun s => (messages_in_chat w (queries s),
            next_query (log (EvMessages chat_id start_time end_time) s)).

(** ** The [random] module *)

(** [random()]: 53 random bits over [2^53], hence in [[0, 1)]. *)
Definition random_random (w : world) (n : nat) : Q :=
  Qmake (random_bits w n mod 2 ^ 53) (2 ^ 53)%positive.

(** [random.uniform(a, b)] is [a + (b - a) * random()]. *)
Definition random_uniform (w : world) (a b : Z) : M Q :=
  fun s =>
    (Ok (inject_Z a + (inject_Z b - inject_Z a) * random_random w (draws s))%Q,
     next_draw (log (EvUniform a b) s)).

(** [random.expovariate(lambd)] is [-log(1.0 - random()) / lambd]. *)
Definition random_expovariate (w : world) (lambd : Q) : M Q :=
  fun s =>
    (if Qeq_bool lambd 0 then Raise ZeroDivisionError
     else Ok (neg_log_draw w (draws s) / lambd)%Q,
     next_draw (log (EvExpovariate lambd) s)).

(** [random.choice(seq)] is [seq[_randbelow(len(seq))]], the draw being
    below the length. *)
Definition random_choice {A} (w : world) (seq : list A) : M A :=
  fun s =>
    match seq with
    | [] => (Raise IndexError, s)
    | x :: _ =>
        let n := List.length seq in
        (Ok (nth (randbelow w (draws s) n mod n) seq x),
         next_draw (log (EvChoice n) s))
    end.

(** ** [class NapcatAPI] *)

Module NapcatAPI.

(** [_make_request] (lines 27-56): the outcome of [urlopen] mapped to
    [(True, result)] or [(False, error_message)]. *)
Definition transport (r : reply) : bool * payload :=
  match r with
  | Body j => (true, Data j)
  | HTTPError code => (false, Diag (DiagHttp code))
  | URLError reason => (false, Diag (DiagNetwork reason))
  | JSONDecodeError => (false, Diag DiagJson)
  | RequestException => (false, Diag DiagRequest)
  end.

Definition _make_request (w : world) (u : url) (body : dict)
  : M (bool * payload) :=
  fun s => (Ok (transport (http_reply w (posts s))),
            next_post (log (EvPost u body) s)).

(** [result.get(k, default)] on the second component of the pair. *)
Definition result_get (result : payload) (k : string) (default : json)
  : res json :=
  match result with
  | Data j => py_get j k default
  | Diag _ => Raise AttributeError
  end.

(** [group_poke] (lines 58-79): what it does with the outcome of its
    request, then the whole method. *)
Definition poke_result (r : bool * payload) : res (bool * payload) :=
  let '(success, result) := r in
  if negb success then Ok (false, result)
  else Ok (true, result).

Definition group_poke (w : world) (address : string) (port : Z)
           (group_id user_id : string) : M (bool * payload) :=
  let u := mkUrl address port "/group_poke" in
  let body := [("group_id", JStr group_id); ("user_id", JStr user_id)] in
  r <- _make_request w u body ;;
  lift (poke_result r).

(** [set_group_card] (lines 81-106). *)
Definition set_card_result (r : bool * payload) : res (bool * payload) :=
  let '(success, result) := r in
  if negb success then Ok (false, result)
  else
    match result_get result "data" JNull with
    | Raise e => Raise e
    | Ok data =>
      match result_get result "status" JNull with
      | Raise e => Raise e
      | Ok status =>
        if negb (is_str status "ok")
        then
          match result_get result "message" (JStr "未知错误") with
          | Raise e => Raise e
          | Ok message => Ok (false, Diag (DiagSetCard message))
          end
        else Ok (true, result)
      end
    end.

Definition set_card_body (group_id user_id : string) (card : json) : dict :=
  [("group_id", JStr group_id); ("user_id", JStr user_id); ("card", card)].

Definition set_group_card (w : world) (address : string) (port : Z)
           (group_id user_id : string) (card : json) : M (bool * payload) :=
  let u := mkUrl address port "/set_group_card" in
  let body := set_card_body group_id user_id card in
  r <- _make_request w u body ;;
  lift (set_card_result r).

(** [get_group_member_info] (lines 108-132). *)
Definition member_info_result (r : bool * payload) : res (bool * payload) :=
  let '(success, result) := r in
  if negb success then Ok (false, result)
  else
    match result_get result "data" JNull with
    | Raise e => Raise e
    | Ok JNull => Ok (false, Diag DiagEmptyData)
    | Ok data => Ok (true, Data data)
    end.

Definition get_group_member_info (w : world) (address : string) (port : Z)
           (group_id user_id : string) : M (bool * payload) :=
  let u := mkUrl address port "/get_group_member_info" in
  let body := [("group_id", JStr group_id); ("user_id", JStr user_id);
               ("no_cache", JBool true)] in
  r <- _make_request w u body ;;
  lift (member_info_result r).

End NapcatAPI.

(** ** [class DuoshePlugin] *)

Module DuoshePlugin.

(** *** The schedule store (lines 229-255) *)

Definition _load_schedule (w : world) : M json :=
  fun s =>
    match schedule_file s with
    | None => (Ok (JObj []), s)
    | Some text =>
        if fs_readable w
        then match json_load w text with
             | Some j => (Ok j, s)
             | None => (Ok (JObj []), s)
             end
        else (Ok (JObj []), s)
    end.

(** The call is recorded whether or not the file can be written. *)
Definition _save_schedule (w : world) (schedule_data : json) : M unit :=
  fun s =>
    let s' := log (EvSaveSchedule schedule_data) s in
    if fs_writable w
    then (Ok tt, set_file (Some (json_dump w schedule_data)) s')
    else (Ok tt, s').

(** *** Step 1: activity ranking (lines 323-352) *)

(** [user_message_count[user_id] += 1] on a [defaultdict(int)]. *)
Fixpoint count_incr (counts : list (string * nat)) (uid : string)
  : list (string * nat) :=
  match counts with
  | [] => [(uid, 1%nat)]
  | (k, c) :: rest =>
      if String.eqb k uid then (k, S c) :: rest
      else (k, c) :: count_incr rest uid
  end.

Definition count_messages (messages : list message) : list (string * nat) :=
  fold_left
    (fun counts msg =>
       match user_info msg with
       | Some ui => if String.eqb (user_id ui) "" then counts
                    else count_incr counts (user_id ui)
       | None => counts
       end)
    messages [].

(** [sorted(items, key=lambda x: x[1], reverse=True)]: a stable sort,
    equal counts stay in insertion order. *)
Fixpoint insert_desc (x : string * nat) (l : list (string * nat))
  : list (string * nat) :=
  match l with
  | [] => [x]
  | y :: l' => if (snd x <? snd y)%nat then y :: insert_desc x l'
               else x :: y :: l'
  end.

Definition sorted_desc (items : list (string * nat)) : list (string * nat) :=
  fold_right insert_desc [] items.

Definition rank_active_users (w : world) (chat_id : string) : M (list string) :=
  try_except
    (end_time <- time_time w ;;
     let start_time := (end_time - 24 * 3600)%Q in
     messages <- get_messages_by_time_in_chat w chat_id start_time end_time ;;
     let user_message_count := count_messages messages in
     let sorted_users := sorted_desc user_message_count in
     ret (map fst sorted_users))
    (fun _ => ret []).

(** *** Step 2: exponential selection (lines 360-383) *)

Definition select_target (w : world) (cfg : config)
           (active_users : list string) : M string :=
  if (List.length active_users =? 1)%nat
  then lift (py_index active_users 0)
  else
    try_except
      (let lambd := lambda_param cfg in
       random_value <- random_expovariate w lambd ;;
       let n := Z.of_nat (List.length active_users) in
       let index := py_int (random_value * inject_Z n) in
       let index := Z.min index (n - 1) in
       lift (py_index active_users index))
      (fun _ => random_choice w active_users).

(** *** Steps 3 to 6: the action sequence (lines 391-456) *)

(** [info.get("card", "") or info.get("nickname", "")] *)
Definition display_card (info : payload) : res json :=
  match NapcatAPI.result_get info "card" (JStr "") with
  | Ok card => if truthy card then Ok card
               else NapcatAPI.result_get info "nickname" (JStr "")
  | Raise e => Raise e
  end.

(** [bot_role in ["admin", "owner"]] *)
Definition is_admin_class (bot_role : json) : bool :=
  is_str bot_role "admin" || is_str bot_role "owner".

(** The candidate cards of step 6: nickname, aliases, current card. *)
Definition build_candidates (cfg : config) (bot_card : json) : list json :=
  let candidates := [] in
  let candidates :=
    if negb (String.eqb (bot_nickname cfg) "")
    then (candidates ++ [JStr (bot_nickname cfg)])%list else candidates in
  let candidates :=
    match bot_alias_names cfg with
    | [] => candidates
    | _ => (candidates ++ map JStr (bot_alias_names cfg))%list
    end in
  let candidates :=
    if truthy bot_card then (candidates ++ [bot_card])%list
    else candidates in
  candidates.

Definition action_sequence (w : world) (cfg : config)
           (group_id target_user_id : string) : M unit :=
  let address := napcat_address cfg in
  let port := napcat_port cfg in
  (* Step 3: poke, failure ignored *)
  '(success, result) <-
     NapcatAPI.group_poke w address port group_id target_user_id ;;
  (* Step 4: member info of the target, then of the bot *)
  '(success, target_info) <-
     NapcatAPI.get_group_member_info w address port group_id
                                     target_user_id ;;
  if negb success then ret tt
  else
    target_card <- lift (display_card target_info) ;;
    '(success, bot_info) <-
       NapcatAPI.get_group_member_info w address port group_id
                                       (bot_qq cfg) ;;
    if negb success then ret tt
    else
      bot_card <- lift (display_card bot_info) ;;
      bot_role <-
        lift (NapcatAPI.result_get bot_info "role" (JStr "member")) ;;
      (* Step 5: own card := target's card, failure ignored *)
      '(success, result) <-
         NapcatAPI.set_group_card w address port group_id (bot_qq cfg)
                                  target_card ;;
      (* Step 6: administrators rename the target *)
      if is_admin_class bot_role
      then
        let candidates := build_candidates cfg bot_card in
        match candidates with
        | [] => ret tt
        | _ =>
          new_card <- random_choice w candidates ;;
          '(success, result) <-
             NapcatAPI.set_group_card w address port group_id
                                      target_user_id new_card ;;
          ret tt
        end
      else ret tt.

(** [_execute_duoshe] (lines 310-459): ranking, selection, actions, and
    the handler that swallows every exception. *)
Definition _execute_duoshe (w : world) (cfg : config)
           (group_id chat_id : string) : M unit :=
  try_except
    (active_users <- rank_active_users w chat_id ;;
     match active_users with
     | [] => ret tt
     | _ =>
       target_user_id <- select_target w cfg active_users ;;
       if String.eqb target_user_id "" then ret tt
       else action_sequence w cfg group_id target_user_id
     end)
    (fun _ => ret tt).

(** *** The per-group loop (lines 257-308) *)

(** One pass through the body of [while True]. *)
Definition loop_body (w : world) (cfg : config) (group_id chat_id : string)
  : M unit :=
  try_except
    (schedule_data <- _load_schedule w ;;
     current_time <- time_time w ;;
     next_run <- lift (py_get schedule_data group_id (JNum current_time)) ;;
     due <- lift (py_float_ge current_time next_run) ;;
     (if due : bool
      then
        _execute_duoshe w cfg group_id chat_id ;;;
        let min_minutes := min_interval cfg in
        let max_minutes := max_interval cfg in
        interval_minutes <- random_uniform w min_minutes max_minutes ;;
        let interval := (interval_minutes * 60)%Q in
        let next_run := (current_time + interval)%Q in
        schedule_data <-
          lift (py_setitem schedule_data group_id (JNum next_run)) ;;
        _save_schedule w schedule_data
      else ret tt) ;;;
     sleep 60)
    (fun _ => sleep 300).

(** [_schedule_task]: [n] passes through the loop before the task is
    cancelled. *)
Fixpoint _schedule_task (n : nat) (w : world) (cfg : config)
         (group_id chat_id : string) : M unit :=
  match n with
  | O => ret tt
  | S n' =>
      loop_body w cfg group_id chat_id ;;;
      _schedule_task n' w cfg group_id chat_id
  end.

End DuoshePlugin.

(** ** A reference JSON text codec

    [json.dump(obj, f, ensure_ascii=False, indent=2)] and [json.load(f)] on
    texts of bytes.  Numbers are written in positional decimal notation, in
    full when the expansion is finite; the decoder reads what the encoder
    writes (no exponents, no escapes beyond the ASCII range). *)

Module Codec.

Definition dquote : ascii := "034"%char.
Definition backslash : ascii := "092"%char.
Definition newline : ascii := "010"%char.

Fixpoint spaces (n : nat) : string :=
  match n with O => EmptyString | S n' => String " " (spaces n') end.

Definition hex_digit (n : N) : ascii :=
  ascii_of_N (if (n <? 10)%N then 48 + n else 87 + n).

(** One character of a string literal. *)
Definition escape_char (c : ascii) : string :=
  let n := N_of_ascii c in
  if (n =? 34)%N then String backslash (String dquote EmptyString)
  else if (n =? 92)%N then String backslash (String backslash EmptyString)
  else if (n =? 10)%N then String backslash "n"
  else if (n =? 13)%N then String backslash "r"
  else if (n =? 9)%N then String backslash "t"
  else if (n =? 8)%N then String backslash "b"
  else if (n =? 12)%N then String backslash "f"
  else if (n <? 32)%N
       then String backslash
              (String "u" (String "0" (String "0"
                 (String (hex_digit (n / 16))
                         (String (hex_digit (n mod 16)) EmptyString)))))
  else String c EmptyString.

Fixpoint escape (s : string) : string :=
  match s with
  | EmptyString => EmptyString
  | String c s' => escape_char c ++ escape s'
  end.

Definition dump_string (s : string) : string :=
  String dquote (escape s ++ String dquote EmptyString).

Definition digit_char (d : Z) : ascii := ascii_of_N (48 + Z.to_N d).

(** The decimal digits of [v] in front of [acc], the last digit first. *)
Fixpoint digits_of (fuel : nat) (v : Z) (acc : string) : string :=
  match fuel with
  | O => acc
  | S fuel' =>
      let acc' := String (digit_char (v mod 10)) acc in
      if (v / 10 =? 0)%Z then acc' else digits_of fuel' (v / 10) acc'
  end.

Definition dump_nat (v : Z) : string :=
  digits_of (S (Z.to_nat (Z.log2 v))) v EmptyString.

(** Enough decimal places for every denominator that divides a power of
    ten. *)
Definition decimal_places (d : Z) : nat := S (Z.to_nat (Z.log2 d)).

(** Up to [n] fractional digits of [r / d], stopping at an exact result. *)
Fixpoint fraction_digits (n : nat) (r d : Z) : string :=
  match n with
  | O => EmptyString
  | S n' =>
      let r10 := (r * 10)%Z in
      String (digit_char (r10 / d))
             (if (r10 mod d =? 0)%Z then EmptyString
              else fraction_digits n' (r10 mod d) d)
  end.

Definition dump_number (q : Q) : string :=
  let n := Qnum q in
  let d := Zpos (Qden q) in
  let a := Z.abs n in
  (if (n <? 0)%Z then "-" else EmptyString)
  ++ dump_nat (a / d)
  ++ "." ++ fraction_digits (decimal_places d) (a mod d) d.

Fixpoint join (sep : string) (l : list string) : string :=
  match l with
  | [] => EmptyString
  | [x] => x
  | x :: l' => x ++ sep ++ join sep l'
  end.

Fixpoint dump_value (level : nat) (j : json) : string :=
  let inner := String newline (spaces (2 * S level)) in
  let outer := String newline (spaces (2 * level)) in
  match j with
  | JNull => "null"
  | JBool true => "true"
  | JBool false => "false"
  | JNum q => dump_number q
  | JStr s => dump_string s
  | JArr [] => "[]"
  | JArr l =>
      "[" ++ inner
          ++ join ("," ++ inner) (map (dump_value (S level)) l)
          ++ outer ++ "]"
  | JObj [] => "{}"
  | JObj kv =>
      "{" ++ inner
          ++ join ("," ++ inner)
                  (map (fun '(k, v) =>
                          dump_string k ++ ": " ++ dump_value (S level) v) kv)
          ++ outer ++ "}"
  end.

Definition dumps (j : json) : string := dump_value 0 j.

(** *** Decoding *)

Definition is_space (c : ascii) : bool :=
  let n := N_of_ascii c in
  ((n =? 32) || (n =? 10) || (n =? 13) || (n =? 9))%N.

Definition is_digit (c : ascii) : bool :=
  let n := N_of_ascii c in ((48 <=? n) && (n <=? 57))%N.

Fixpoint skip_spaces (s : string) : string :=
  match s with
  | String c s' => if is_space c then skip_spaces s' else s
  | EmptyString => s
  end.

(** The digits at the head of [s], as a number and a count. *)
Fixpoint take_digits (s : string) (acc : Z) (count : nat) : Z * nat * string :=
  match s with
  | String c s' =>
      if is_digit c
      then take_digits s' (acc * 10 + Z.of_N (N_of_ascii c - 48)) (S count)
      else (acc, count, s)
  | EmptyString => (acc, count, s)
  end.

Definition load_number (s : string) : option (Q * string) :=
  let '(neg, s1) :=
    match s with
    | String c s' => if Ascii.eqb c "-" then (true, s') else (false, s)
    | EmptyString => (false, s)
    end in
  let '(int_part, n_int, s2) := take_digits s1 0 0 in
  match n_int with
  | O => None
  | _ =>
      let '(mantissa, n_frac, s3) :=
        match s2 with
        | String c s' =>
            if Ascii.eqb c "." then take_digits s' int_part 0
            else (int_part, O, s2)
        | EmptyString => (int_part, O, s2)
        end in
      let m := if neg : bool then (- mantissa)%Z else mantissa in
      Some (Qred (Qmake m (Z.to_pos (10 ^ Z.of_nat n_frac))), s3)
  end.

Definition hex_value (c : ascii) : option N :=
  let n := N_of_ascii c in
  if ((48 <=? n) && (n <=? 57))%N then Some (n - 48)%N
  else if ((97 <=? n) && (n <=? 102))%N then Some (n - 87)%N
  else if ((65 <=? n) && (n <=? 70))%N then Some (n - 55)%N
  else None.

(** The character after a backslash, and what follows it. *)
Definition load_escape (s : string) : option (ascii * string) :=
  match s with
  | EmptyString => None
  | String e s' =>
      if Ascii.eqb e dquote then Some (dquote, s')
      else if Ascii.eqb e backslash then Some (backslash, s')
      else if Ascii.eqb e "/" then Some ("/"%char, s')
      else if Ascii.eqb e "n" then Some (newline, s')
      else if Ascii.eqb e "r" then Some ("013"%char, s')
      else if Ascii.eqb e "t" then Some ("009"%char, s')
      else if Ascii.eqb e "b" then Some ("008"%char, s')
      else if Ascii.eqb e "f" then Some ("012"%char, s')
      else if Ascii.eqb e "u"
      then match s' with
           | String h3 (String h2 (String h1 (String h0 s''))) =>
               match hex_value h3, hex_value h2, hex_value h1, hex_value h0 with
               | Some 0%N, Some 0%N, Some a, Some b =>
                   if (a <? 8)%N then Some (ascii_of_N (16 * a + b), s'')
                   else None
               | _, _, _, _ => None
               end
           | _ => None
           end
      else None
  end.

(** The body of a string literal, after its opening quote.  The fuel is
    the length of the text. *)
Fixpoint load_string (fuel : nat) (s : string) : option (string * string) :=
  match fuel with
  | O => None
  | S fuel' =>
      match s with
      | EmptyString => None
      | String c s' =>
          if Ascii.eqb c dquote then Some (EmptyString, s')
          else if Ascii.eqb c backslash
          then match load_escape s' with
               | Some (x, s'') =>
                   match load_string fuel' s'' with
                   | Some (t, rest) => Some (String x t, rest)
                   | None => None
                   end
               | None => None
               end
          else match load_string fuel' s' with
               | Some (t, rest) => Some (String c t, rest)
               | None => None
               end
      end
  end.

Definition expect (lit : string) (s : string) : option string :=
  if String.prefix lit s
  then Some (substring (String.length lit) (String.length s - String.length lit) s)
  else None.

(** The items of an array after its opening bracket, [load] reading one
    value. *)
Fixpoint load_items (load : string -> option (json * string)) (n : nat)
         (s : string) : option (list json * string) :=
  match n with
  | O => None
  | S n' =>
      match load s with
      | None => None
      | Some (v, rest) =>
          match skip_spaces rest with
          | String c rest' =>
              if Ascii.eqb c ","
              then match load_items load n' (skip_spaces rest') with
                   | Some (vs, rest'') => Some (v :: vs, rest'')
                   | None => None
                   end
              else if Ascii.eqb c "]" then Some ([v], rest')
              else None
          | EmptyString => None
          end
      end
  end.

(** The members of an object after its opening brace: a later duplicate
    of a key replaces the value and keeps the place. *)
Fixpoint load_members (load : string -> option (json * string)) (n : nat)
         (acc : dict) (s : string) : option (dict * string) :=
  match n with
  | O => None
  | S n' =>
      match s with
      | EmptyString => None
      | String q s1 =>
          if Ascii.eqb q dquote
          then
            match load_string (String.length s1) s1 with
            | None => None
            | Some (k, s2) =>
                match skip_spaces s2 with
                | String c s3 =>
                    if Ascii.eqb c ":"
                    then
                      match load (skip_spaces s3) with
                      | None => None
                      | Some (v, s4) =>
                          match skip_spaces s4 with
                          | String d s5 =>
                              if Ascii.eqb d ","
                              then load_members load n' (dict_set acc k v)
                                                (skip_spaces s5)
                              else if Ascii.eqb d "}"
                                   then Some (dict_set acc k v, s5)
                                   else None
                          | EmptyString => None
                          end
                      end
                    else None
                | EmptyString => None
                end
            end
          else None
      end
  end.

Fixpoint load_value (fuel : nat) (s : string) : option (json * string) :=
  match fuel with
  | O => None
  | S fuel' =>
      match s with
      | EmptyString => None
      | String c s' =>
          if Ascii.eqb c dquote
          then match load_string (String.length s') s' with
               | Some (t, rest) => Some (JStr t, rest)
               | None => None
               end
          else if Ascii.eqb c "["
          then match skip_spaces s' with
               | EmptyString => None
               | String c1 rest as s1 =>
                   if Ascii.eqb c1 "]" then Some (JArr [], rest)
                   else match load_items (load_value fuel') (String.length s) s1 with
                        | Some (vs, rest') => Some (JArr vs, rest')
                        | None => None
                        end
               end
          else if Ascii.eqb c "{"
          then match skip_spaces s' with
               | EmptyString => None
               | String c1 rest as s1 =>
                   if Ascii.eqb c1 "}" then Some (JObj [], rest)
                   else match load_members (load_value fuel') (String.length s)
                                           [] s1 with
                        | Some (kv, rest') => Some (JObj kv, rest')
                        | None => None
                        end
               end
          else if Ascii.eqb c "n"
          then match expect "null" s with
               | Some rest => Some (JNull, rest) | None => None end
          else if Ascii.eqb c "t"
          then match expect "true" s with
               | Some rest => Some (JBool true, rest) | None => None end
          else if Ascii.eqb c "f"
          then match expect "false" s with
               | Some rest => Some (JBool false, rest) | None => None end
          else match load_number s with
               | Some (q, rest) => Some (JNum q, rest)
               | None => None
               end
      end
  end.

Definition loads (s : string) : option json :=
  match load_value (String.length s) (skip_spaces s) with
  | Some (j, rest) =>
      match skip_spaces rest with
      | EmptyString => Some j
      | _ => None
      end
  | None => None
  end.

End Codec.

(** ** Task start-up ([__init__] and [_initialize_tasks], lines 196-227) *)

(** An account or group number as the host hands it over: a string or an
    integer. *)
Inductive scalar : Type :=
| SStr (s : string)
| SInt (z : Z).

(** [str(x)] *)
Definition py_str (x : scalar) : string :=
  match x with
  | SStr s => s
  | SInt z => if (z <? 0)%Z then "-" ++ Codec.dump_nat (- z)
              else Codec.dump_nat z
  end.

(** A chat stream, as far as the plugin reads it. *)
Record group_info_t : Type := mkGroupInfo { group_id : scalar }.
Record chat_stream : Type := mkStream {
  stream_id : string;
  group_info : option group_info_t
}.

(** What the host answers at start-up. *)
Record host : Type := mkHost {
  qq_account : res scalar;
      (* [config_api.get_global_config("bot.qq_account", "")] *)
  group_streams : res (list chat_stream)
      (* [chat_api.get_group_streams(platform="qq")] *)
}.

(** The plugin instance: [self.bot_qq], [self.tasks], and the loops handed
    to [asyncio.create_task], each with its arguments [(group_id, chat_id)],
    in the order of their creation.  A task is known by its position in
    that list. *)
Record plugin : Type := mkPlugin {
  self_bot_qq : option string;
  tasks : list (string * nat);
  created : list (string * string)
}.

(** [self.tasks[group_id] = task] *)
Fixpoint tasks_set (d : list (string * nat)) (k : string) (task : nat)
  : list (string * nat) :=
  match d with
  | [] => [(k, task)]
  | (k', task') :: d' =>
      if String.eqb k' k then (k', task) :: d'
      else (k', task') :: tasks_set d' k task
  end.

(** [self.tasks.get(group_id)] *)
Fixpoint tasks_get (d : list (string * nat)) (k : string) : option nat :=
  match d with
  | [] => None
  | (k', task) :: d' => if String.eqb k' k then Some task else tasks_get d' k
  end.

(** [__init__]: no account and no task yet; [_initialize_tasks] is handed
    to the event loop. *)
Definition __init__ : plugin := mkPlugin None [] [].

(** The body of the [for] loop of [_initialize_tasks]. *)
Definition start_stream (self : plugin) (stream : chat_stream) : plugin :=
  match group_info stream with
  | Some info =>
      let group_id := py_str (group_id info) in
      let task := List.length (created self) in
      mkPlugin (self_bot_qq self)
               (tasks_set (tasks self) group_id task)
               (created self ++ [(group_id, stream_id stream)])%list
  | None => self
  end.

(** [_initialize_tasks]: every exception ends the method, what was done
    before it stays done. *)
Definition _initialize_tasks (h : host) (self : plugin) : plugin :=
  match qq_account h with
  | Raise _ => self
  | Ok account =>
      let self := mkPlugin (Some (py_str account)) (tasks self)
                           (created self) in
      if String.eqb (py_str account) "" then self
      else
        match group_streams h with
        | Raise _ => self
        | Ok streams => fold_left start_stream streams self
        end
  end.

(** * Observations on runs *)

Import NapcatAPI DuoshePlugin.

Definition is_post (e : event) : bool :=
  match e with EvPost _ _ => true | _ => false end.

Definition is_random (e : event) : bool :=
  match e with
  | EvExpovariate _ | EvChoice _ | EvUniform _ _ => true
  | _ => false
  end.

Definition is_save (e : event) : bool :=
  match e with EvSaveSchedule _ => true | _ => false end.

(** A POST to [/set_group_card], whoever it is about. *)
Definition is_set_card (e : event) : bool :=
  match e with
  | EvPost u _ => String.eqb (path u) "/set_group_card"
  | _ => false
  end.

(** A POST to [/set_group_card] whose [user_id] is [uid]. *)
Definition is_set_card_on (uid : string) (e : event) : bool :=
  match e with
  | EvPost u body =>
      String.eqb (path u) "/set_group_card"
      && is_str (dict_get body "user_id") uid
  | _ => false
  end.

(** The three requests, as they appear in the trace. *)
Definition poke_event (cfg : config) (group_id uid : string) : event :=
  EvPost (mkUrl (napcat_address cfg) (napcat_port cfg) "/group_poke")
         [("group_id", JStr group_id); ("user_id", JStr uid)].

Definition member_info_event (cfg : config) (group_id uid : string) : event :=
  EvPost (mkUrl (napcat_address cfg) (napcat_port cfg) "/get_group_member_info")
         [("group_id", JStr group_id); ("user_id", JStr uid);
          ("no_cache", JBool true)].

Definition set_card_event (cfg : config) (group_id uid : string) (card : json)
  : event :=
  EvPost (mkUrl (napcat_address cfg) (napcat_port cfg) "/set_group_card")
         (set_card_body group_id uid card).

(** The outcome of the n-th POST, as each operation reads it. *)
Definition poke_reply (w : world) (n : nat) : res (bool * payload) :=
  poke_result (transport (http_reply w n)).
Definition member_info_reply (w : world) (n : nat) : res (bool * payload) :=
  member_info_result (transport (http_reply w n)).
Definition set_card_reply (w : world) (n : nat) : res (bool * payload) :=
  set_card_result (transport (http_reply w n)).

Definition is_body (r : reply) : bool :=
  match r with Body _ => true | _ => false end.

(** The specification's reading of a failed response body: a status other
    than ["ok"], or a data payload that is absent or empty. *)
Definition spec_body_failed (body : dict) : bool :=
  negb (is_str (dict_get body "status") "ok")
  || negb (truthy (dict_get body "data")).

(** The specification's pool of step 6: the non-empty entries among the
    configured nickname, the configured aliases and a card. *)
Definition spec_pool (cfg : config) (card : json) : list json :=
  filter truthy
         ([JStr (bot_nickname cfg)] ++ map JStr (bot_alias_names cfg)
          ++ [card])%list.

(** A number with a finite decimal expansion, as every binary float has:
    the denominator divides the numerator times a power of ten. *)
Definition terminating (q : Q) : Prop :=
  let d := Z.pos (Qden q) in
  ((Qnum q * 10 ^ Z.of_nat (Codec.decimal_places d)) mod d = 0)%Z.

(** A number the reference codec writes in full: what it reads back is
    the same number. *)
Definition number_ok (q : Q) : bool :=
  match Codec.dump_number q with
  | String c _ =>
      (Codec.is_digit c || Ascii.eqb c "-")
      && match Codec.load_number (Codec.dump_number q) with
         | Some (q', EmptyString) => Qeq_bool q' q
         | _ => false
         end
  | EmptyString => false
  end.

(** A schedule: distinct groups, each with such a timestamp. *)
Definition schedule_ok (m : dict) : Prop :=
  NoDup (map fst m) /\
  Forall (fun kv => exists q, snd kv = JNum q /\ terminating q) m.

(** The same mapping with every number in lowest terms. *)
Definition lowest_terms (m : dict) : dict :=
  map (fun '(k, v) =>
         (k, match v with JNum q => JNum (Qred q) | _ => v end)) m.

(** What may follow a number: nothing, or a character that is neither a
    digit nor a point. *)
Definition delimited (rest : string) : Prop :=
  match rest with
  | EmptyString => True
  | String c _ => Codec.is_digit c = false /\ c <> "."%char
  end.

(** The members of an object, followed by [tail]. *)
Fixpoint render_members (m : dict) (tail : string) : string :=
  match m with
  | [] => tail
  | (k, v) :: m' =>
      String Codec.dquote
             (Codec.escape k
              ++ String Codec.dquote
                   (": " ++ Codec.dump_value 1 v
                    ++ match m' with
                       | [] => tail
                       | _ => String "," (String Codec.newline
                                (String " " (String " "
                                   (render_members m' tail))))
                       end))
  end%string.

(** The schedule a due pass computes from the loaded one. *)
Definition rescheduled (w : world) (cfg : config) (g : string) (d : dict)
           (current_time : Q) (k : nat) : json :=
  JObj (dict_set d g
          (JNum (current_time
                 + (inject_Z (min_interval cfg)
                    + (inject_Z (max_interval cfg)
                       - inject_Z (min_interval cfg)) * random_random w k)
                   * 60))).

(** A string of [l] digits worth [v], whatever comes before and after. *)
Definition digits_worth (s : string) (l : nat) (v : Z) : Prop :=
  forall rest acc cnt,
    match rest with
    | EmptyString => True
    | String c _ => Codec.is_digit c = false
    end ->
    Codec.take_digits (s ++ rest)%string acc cnt
    = (acc * 10 ^ Z.of_nat l + v, (cnt + l)%nat, rest)%Z.

(** ** Observations on the ranking *)

(** The number of stored messages whose user id is [u]. *)
Definition messages_by (u : string) (messages : list message) : nat :=
  List.length
    (filter (fun msg => match user_info msg with
                        | Some ui => String.eqb (user_id ui) u
                        | None => false
                        end) messages).

(** The user ids of the messages that carry one, in the order of the
    messages. *)
Definition senders (messages : list message) : list string :=
  flat_map (fun msg => match user_info msg with
                       | Some ui => if String.eqb (user_id ui) "" then []
                                    else [user_id ui]
                       | None => []
                       end) messages.

(** Each element once, in the order of first occurrence. *)
Fixpoint first_seen (l : list string) : list string :=
  match l with
  | [] => []
  | x :: l' => x :: filter (fun y => negb (String.eqb x y)) (first_seen l')
  end.

(** The count recorded for [u], zero when there is none. *)
Fixpoint count_of (counts : list (string * nat)) (u : string) : nat :=
  match counts with
  | [] => 0
  | (k, c) :: rest => if String.eqb k u then c else count_of rest u
  end.

(** The name a member is shown under: the card, or the nickname when
    there is no card. *)
Definition shown_name (info : dict) : json :=
  if truthy (dict_get_default info "card" (JStr ""))
  then dict_get_default info "card" (JStr "")
  else dict_get_default info "nickname" (JStr "").



(** A loaded schedule the loop cannot use for [group_id]: it is not an
    object, or the group's entry is not a number. *)
Definition entry_unusable (schedule_data : json) (group_id : string) : bool :=
  match schedule_data with
  | JObj d =>
      match dict_lookup d group_id with
      | None | Some (JNum _) | Some (JBool _) => false
      | Some _ => true
      end
  | _ => true
  end.

(** An event that stays within group [g], chat [c] and the configured
    server: a request to that server about the group, a query for the
    messages of the chat, or anything that is neither. *)
Definition event_in_group (cfg : config) (g c : string) (e : event) : bool :=
  match e with
  | EvPost u body =>
      String.eqb (address u) (napcat_address cfg)
      && Z.eqb (port u) (napcat_port cfg)
      && is_str (dict_get body "group_id") g
  | EvMessages chat_id _ _ => String.eqb chat_id c
  | _ => true
  end.

(** The position, counted from [i], of the last loop created for group
    [k]. *)
Fixpoint last_created_from (k : string) (l : list (string * string)) (i : nat)
  : option nat :=
  match l with
  | [] => None
  | (k', _) :: l' =>
      match last_created_from k l' (S i) with
      | Some j => Some j
      | None => if String.eqb k' k then Some i else None
      end
  end.

(** The loops the streams call for: one per stream with group info. *)
Definition loops_of (streams : list chat_stream) : list (string * string) :=
  flat_map (fun stream =>
              match group_info stream with
              | Some info => [(py_str (group_id info), stream_id stream)]
              | None => []
              end) streams.

(** * Example runs *)

Definition ok_body : reply :=
  Body (JObj [("status", JStr "ok"); ("retcode", JNum 0); ("data", JNull)]).

Definition failed_body : reply :=
  Body (JObj [("status", JStr "failed"); ("retcode", JNum 1200);
              ("data", JNull); ("message", JStr "no permission")]).

Definition info_body (card nickname role : string) : reply :=
  Body (JObj [("status", JStr "ok"); ("retcode", JNum 0);
              ("data", JObj [("card", JStr card); ("nickname", JStr nickname);
                             ("role", JStr role)])]).

Definition messages_of (uids : list string) : list message :=
  map (fun u => mkMessage (Some (mkUserInfo u))) uids.

Definition replies (l : list reply) : nat -> reply :=
  fun n => nth n l RequestException.

Definition example_config : config :=
  mkConfig "napcat" 3000 360 480 (3 # 2) "42" "Mai" ["Mai2"].

(** A day in which C wrote four messages, A three and B two. *)
Definition example_messages : list message :=
  messages_of ["A"; "B"; "A"; "C"; "B"; "A"; "C"; "C"; "C"].

Definition example_world (http : list reply) (msgs : res (list message))
  : world :=
  mkWorld (replies http)
          (fun n => 1700000000 + inject_Z (Z.of_nat n))%Q
          (fun _ => msgs)
          (fun _ => 2 ^ 52)%Z
          (fun _ => 1056 # 10000)
          (fun _ _ => 1%nat)
          true true
          Codec.dumps Codec.loads.

Definition initial_state : state := mkState [] 0 0 0 0 None.

(** The bot is an administrator and every request succeeds. *)
Definition admin_world : world :=
  example_world [ok_body; info_body "Carol" "carol" "member";
                 info_body "" "bot" "admin"; ok_body; ok_body]
                (Ok example_messages).

(** The bot is an administrator and its own rename is refused. *)
Definition own_card_refused_world : world :=
  example_world [ok_body; info_body "Carol" "carol" "member";
                 info_body "Bot" "bot" "owner"; failed_body; ok_body]
                (Ok example_messages).

(** The bot is a plain member. *)
Definition member_world : world :=
  example_world [ok_body; info_body "Carol" "carol" "member";
                 info_body "Bot" "bot" "member"; ok_body; ok_body]
                (Ok example_messages).

(** The target's member info comes back as [{"data": null}]. *)
Definition no_data_world : world :=
  example_world [ok_body; Body (JObj [("data", JNull)]);
                 info_body "Bot" "bot" "admin"; ok_body; ok_body]
                (Ok example_messages).

(** Nobody wrote anything in the last 24 hours. *)
Definition silent_world : world :=
  example_world [ok_body; ok_body; ok_body; ok_body; ok_body] (Ok []).

(** [admin_world] with a generator whose [random.choice] takes the last
    candidate: the bot has no card in the group, only the nickname "bot". *)
Definition last_choice_world : world :=
  mkWorld (http_reply admin_world) (clock admin_world)
          (messages_in_chat admin_world) (random_bits admin_world)
          (neg_log_draw admin_world)
          (fun _ n => Nat.pred n)
          true true Codec.dumps Codec.loads.

(** A bot whose only configured name is an empty alias, and which has
    neither card nor nickname in the group. *)
Definition empty_alias_config : config :=
  mkConfig "napcat" 3000 360 480 (3 # 2) "42" "" [""].

Definition empty_alias_world : world :=
  example_world [ok_body; info_body "Carol" "carol" "member";
                 info_body "" "" "admin"; ok_body; ok_body]
                (Ok example_messages).

(** A bot without any name: no nickname, no alias, and (in
    [empty_alias_world]) neither card nor nickname in the group. *)
Definition nameless_config : config :=
  mkConfig "napcat" 3000 360 480 (3 # 2) "42" "" [].

(** The schedule of the specification's round-trip scenario. *)
Definition example_schedule : dict := [("1001", JNum 1700000000)].

(** A store holding two groups, the first one overdue. *)
Definition two_groups_schedule : dict :=
  [("1001", JNum 1600000000); ("2002", JNum 1800000000)].

Definition two_groups_state : state :=
  mkState [] 0 0 0 0 (Some (Codec.dumps (JObj two_groups_schedule))).

(** What a full pass on group 1001 adds to the trace in [admin_world],
    the generator drawing one half: the cycle, the interval draw, the
    schedule written and the minute of sleep. *)
Definition admin_pass_events (saved : json) : list event :=
  [EvMessages "chat" (1699913601 # 1) (1700000001 # 1);
   EvExpovariate (3 # 2);
   poke_event example_config "1001" "C";
   member_info_event example_config "1001" "C";
   member_info_event example_config "1001" "42";
   set_card_event example_config "1001" "42" (JStr "Carol");
   EvChoice 3;
   set_card_event example_config "1001" "C" (JStr "Mai2");
   EvUniform 360 480;
   EvSaveSchedule saved;
   EvSleep 60]%list.

(** A configuration whose rate is [lambd], everything else as in
    [example_config]. *)
Definition config_with_rate (lambd : Q) : config :=
  mkConfig "napcat" 3000 360 480 lambd "42" "Mai" ["Mai2"].

(** [admin_world] with a generator whose exponential draws are [-log] of
    [draw] and whose [random.choice] takes the last candidate. *)
Definition drawing_world (draw : Q) : world :=
  mkWorld (http_reply admin_world) (clock admin_world)
          (messages_in_chat admin_world) (random_bits admin_world)
          (fun _ => draw)
          (fun _ n => Nat.pred n)
          true true Codec.dumps Codec.loads.

(** The poke is refused at the transport, the rest goes through; the
    bot is a plain member. *)
Definition poke_refused_world : world :=
  example_world [URLError "connection refused";
                 info_body "Carol" "carol" "member";
                 info_body "Bot" "bot" "member"; ok_body]
                (Ok example_messages).

(** The target has no card in the group, only the nickname "carol". *)
Definition cardless_target_world : world :=
  example_world [ok_body; info_body "" "carol" "member";
                 info_body "Bot" "bot" "member"; ok_body]
                (Ok example_messages).

(** The bot is an administrator and the answer to its own rename decodes
    to a list. *)
Definition own_card_garbled_world : world :=
  example_world [ok_body; info_body "Carol" "carol" "member";
                 info_body "Bot" "bot" "admin"; Body (JArr []); ok_body]
                (Ok example_messages).

(** A store whose file decodes to a list, not to an object. *)
Definition listed_schedule_state : state :=
  mkState [] 0 0 0 0 (Some (Codec.dumps (JArr [JNum 1700000000]))).


(** A host whose bot is account 42 and which lists four streams: group
    1001 twice, group 2002, and a private chat. *)
Definition example_host : host :=
  mkHost (Ok (SInt 42))
         (Ok [mkStream "chat-a" (Some (mkGroupInfo (SInt 1001)));
              mkStream "private" None;
              mkStream "chat-b" (Some (mkGroupInfo (SStr "2002")));
              mkStream "chat-c" (Some (mkGroupInfo (SInt 1001)))]).

(** * Properties *)

Local Open Scope list_scope.
(** ** Built-ins and the random module *)

Lemma py_index_In {A} (l : list A) (i : Z) (x : A) :
  py_index l i = Ok x -> In x l.
Proof.
  unfold py_index.
  destruct ((0 <=? _) && _)%Z; [|discriminate].
  destruct (nth_error l _) eqn:E; [|discriminate].
  intros H; inversion H; subst. eapply nth_error_In; eassumption.
Qed.

Lemma py_index_in_range {A} (l : list A) (i : Z) :
  (0 <= i < Z.of_nat (List.length l))%Z ->
  exists x, py_index l i = Ok x /\ nth_error l (Z.to_nat i) = Some x.
Proof.
  intros Hi. unfold py_index.
  replace (i <? 0)%Z with false by (symmetry; apply Z.ltb_ge; lia).
  replace ((0 <=? i) && (i <? Z.of_nat (List.length l)))%Z with true
    by (symmetry; apply andb_true_iff; split;
        [apply Z.leb_le | apply Z.ltb_lt]; lia).
  destruct (nth_error l (Z.to_nat i)) eqn:E.
  - eauto.
  - apply nth_error_None in E. lia.
Qed.




Lemma random_choice_spec {A} (w : world) (l : list A) (s : state) (d : A) :
  l <> [] ->
  let k := (randbelow w (draws s) (List.length l) mod List.length l)%nat in
  (k < List.length l)%nat /\
  random_choice w l s
  = (Ok (nth k l d), next_draw (log (EvChoice (List.length l)) s)).
Proof.
  intros Hne k.
  assert (Hk : (k < List.length l)%nat).
  { apply Nat.mod_upper_bound. destruct l; [congruence | discriminate]. }
  split; [exact Hk|].
  destruct l as [|y l']; [congruence|].
  unfold random_choice. f_equal. f_equal. apply nth_indep. exact Hk.
Qed.

(** Whatever the generator does, a non-empty ranking yields one of its
    members. *)
Lemma select_target_member (w : world) (cfg : config) (ranked : list string)
      (s : state) :
  ranked <> [] ->
  exists u, fst (select_target w cfg ranked s) = Ok u /\ In u ranked.
Proof.
  intros Hne. unfold select_target.
  destruct (List.length ranked =? 1)%nat eqn:Hlen.
  - apply Nat.eqb_eq in Hlen.
    destruct (py_index_in_range ranked 0) as [x [Hx _]]; [lia|].
    exists x. unfold lift; cbn [fst]. split; [assumption|].
    eapply py_index_In; eassumption.
  - pose proof (fun s' => random_choice_spec w ranked s' "" Hne) as Hch.
    unfold try_except, bind, random_expovariate, lift.
    destruct (Qeq_bool (lambda_param cfg) 0).
    + destruct (Hch (next_draw (log (EvExpovariate (lambda_param cfg)) s)))
        as [Hk ->].
      eexists; split; [reflexivity|]. apply nth_In. exact Hk.
    + destruct (py_index ranked _) eqn:E.
      * exists a. split; [reflexivity|]. eapply py_index_In; eassumption.
      * destruct (Hch (next_draw (log (EvExpovariate (lambda_param cfg)) s)))
          as [Hk ->].
        eexists; split; [reflexivity|]. apply nth_In. exact Hk.
Qed.


(** ** Running the monad *)

Lemma group_poke_run w cfg g u s :
  group_poke w (napcat_address cfg) (napcat_port cfg) g u s
  = (poke_reply w (posts s), next_post (log (poke_event cfg g u) s)).
Proof. reflexivity. Qed.

Lemma get_group_member_info_run w cfg g u s :
  get_group_member_info w (napcat_address cfg) (napcat_port cfg) g u s
  = (member_info_reply w (posts s), next_post (log (member_info_event cfg g u) s)).
Proof. reflexivity. Qed.

Lemma set_group_card_run w cfg g u card s :
  set_group_card w (napcat_address cfg) (napcat_port cfg) g u card s
  = (set_card_reply w (posts s), next_post (log (set_card_event cfg g u card) s)).
Proof. reflexivity. Qed.

Lemma poke_reply_ok w n : exists b p, poke_reply w n = Ok (b, p).
Proof.
  unfold poke_reply, poke_result.
  destruct (transport (http_reply w n)) as [[|] p]; simpl; eauto.
Qed.

Lemma bind_run {A B} (m : M A) (k : A -> M B) (s : state) :
  bind m k s = match m s with
               | (Ok a, s') => k a s'
               | (Raise e, s') => (Raise e, s')
               end.
Proof. reflexivity. Qed.


Lemma lift_run {A} (r : res A) (s : state) : lift r s = (r, s).
Proof. reflexivity. Qed.

Lemma ret_run {A} (a : A) (s : state) : ret a s = (Ok a, s).
Proof. reflexivity. Qed.

Ltac exec_choice H :=
  match type of H with
  | context [random_choice ?w (?x :: ?l) ?s] =>
      let Hk := fresh "Hk" in
      let Hrun := fresh "Hrun" in
      destruct (random_choice_spec w (x :: l) s x) as [Hk Hrun];
      [discriminate | rewrite Hrun in H; clear Hrun]
  end.

(** Symbolic execution of a run recorded in [H]: binds are unfolded one at
    a time and every outcome read from the world is split into cases. *)
Ltac exec_all H :=
  repeat first
    [ rewrite bind_run in H
    | rewrite group_poke_run in H
    | rewrite get_group_member_info_run in H
    | rewrite set_group_card_run in H
    | rewrite lift_run in H
    | rewrite ret_run in H
    | progress cbn [posts log next_post next_draw trace] in H
    | exec_choice H
    | match type of H with
      | context [match ?x with _ => _ end] =>
          lazymatch x with
          | context [match _ with _ => _ end] => fail
          | context [random_choice] => fail
          | _ => let E := fresh "E" in destruct x eqn:E
          end
      end ].

(** Ranking reads the clock and the message store, nothing else. *)
Lemma rank_active_users_run w c s :
  exists l,
    rank_active_users w c s
    = (Ok l,
       next_query (log (EvMessages c (clock w (ticks s) - 24 * 3600)
                                   (clock w (ticks s)))
                       (next_tick s))) /\
    (forall e, messages_in_chat w (queries s) = Raise e -> l = []) /\
    (forall ms, messages_in_chat w (queries s) = Ok ms ->
                l = map fst (sorted_desc (count_messages ms))).
Proof.
  unfold rank_active_users, try_except, bind, time_time,
    get_messages_by_time_in_chat, ret.
  cbn [queries next_tick].
  destruct (messages_in_chat w (queries s)) as [ms|e].
  - eexists; split; [reflexivity|]. split; intros; congruence.
  - eexists; split; [reflexivity|]. split; intros; congruence.
Qed.

(** Selection only draws random numbers. *)
Lemma select_target_run w cfg l s :
  exists r s1 evs,
    select_target w cfg l s = (r, s1) /\
    trace s1 = trace s ++ evs /\
    Forall (fun e => is_random e = true) evs /\
    posts s1 = posts s /\ schedule_file s1 = schedule_file s.
Proof.
  unfold select_target.
  destruct (List.length l =? 1)%nat.
  - exists (py_index l 0), s, []. rewrite app_nil_r. repeat split. constructor.
  - unfold try_except, bind, random_expovariate, lift.
    set (s1 := next_draw (log (EvExpovariate (lambda_param cfg)) s)).
    assert (Hch : exists r s2 evs,
               random_choice w l s1 = (r, s2) /\ trace s2 = trace s ++ evs /\
               Forall (fun e => is_random e = true) evs /\
               posts s2 = posts s /\ schedule_file s2 = schedule_file s).
    { destruct l as [|x l'].
      - exists (Raise IndexError), s1, [EvExpovariate (lambda_param cfg)].
        repeat split. repeat constructor.
      - destruct (random_choice_spec w (x :: l') s1 x) as [_ ->];
          [discriminate|].
        do 2 eexists.
        exists [EvExpovariate (lambda_param cfg);
                EvChoice (List.length (x :: l'))].
        split; [reflexivity|]. cbn [trace log next_draw s1].
        rewrite <- app_assoc. repeat split. repeat constructor. }
    destruct (Qeq_bool (lambda_param cfg) 0); [exact Hch|].
    destruct (py_index l _); [|exact Hch].
    exists (Ok a), s1, [EvExpovariate (lambda_param cfg)].
    repeat split. repeat constructor.
Qed.

Lemma is_random_not_post e : is_random e = true -> is_post e = false.
Proof. destruct e; simpl; congruence. Qed.

(** A cycle is the ranking and selection prelude, which sends nothing,
    followed or not by the action sequence on a ranked user. *)
Lemma execute_duoshe_cases w cfg g c s :
  exists pre s1,
    trace s1 = trace s ++ pre /\
    Forall (fun e => is_post e = false) pre /\
    posts s1 = posts s /\ schedule_file s1 = schedule_file s /\
    (_execute_duoshe w cfg g c s = (Ok tt, s1) \/
     exists l t,
       fst (rank_active_users w c s) = Ok l /\ In t l /\
       _execute_duoshe w cfg g c s
       = (Ok tt, snd (action_sequence w cfg g t s1))).
Proof.
  destruct (rank_active_users_run w c s) as [l [Hrank _]].
  unfold _execute_duoshe, try_except. rewrite bind_run, Hrank.
  set (s0 := next_query _) in *.
  assert (H0 : trace s0 = trace s ++ [EvMessages c (clock w (ticks s) - 24 * 3600)
                                                 (clock w (ticks s))])
    by reflexivity.
  destruct l as [|u l'].
  - exists [EvMessages c (clock w (ticks s) - 24 * 3600) (clock w (ticks s))], s0.
    repeat split; auto.
  - set (l := u :: l') in *.
    destruct (select_target_run w cfg l s0) as [r [s1 [evs [Hsel [Htr [Hev [Hp Hf]]]]]]].
    exists (EvMessages c (clock w (ticks s) - 24 * 3600) (clock w (ticks s)) :: evs), s1.
    split; [rewrite Htr, H0, <- app_assoc; reflexivity|].
    split; [constructor; [reflexivity|];
            eapply Forall_impl; [|exact Hev]; apply is_random_not_post|].
    split; [exact Hp|]. split; [exact Hf|].
    rewrite bind_run, Hsel.
    destruct r as [t|e]; [|left; reflexivity].
    destruct (String.eqb t "") eqn:Ht; [left; reflexivity|].
    right. exists l, t. split; [reflexivity|].
    split.
    + destruct (select_target_member w cfg l s0) as [t' [Ht' Hin]];
        [discriminate|].
      rewrite Hsel in Ht'. cbn [fst] in Ht'. congruence.
    + destruct (action_sequence w cfg g t s1) as [[[]|e] s2]; reflexivity.
Qed.


(** ** The remote client (C3) *)

(** C3, as amended: a transport failure makes each of the three operations
    return the failure signal with the transport's diagnostic; on a decoded
    object body, [set_group_card] fails exactly when [status] is not ["ok"]
    and never looks at [data], [get_group_member_info] fails exactly when
    [data] is absent or null and never looks at [status], and [group_poke]
    succeeds on every decoded body. *)
Theorem napcat_failure_classification :
  (forall r, is_body r = false ->
     poke_result (transport r) = Ok (false, snd (transport r)) /\
     set_card_result (transport r) = Ok (false, snd (transport r)) /\
     member_info_result (transport r) = Ok (false, snd (transport r))) /\
  (forall j, poke_result (transport (Body j)) = Ok (true, Data j)) /\
  (forall d,
     set_card_result (transport (Body (JObj d))) =
     if is_str (dict_get d "status") "ok"
     then Ok (true, Data (JObj d))
     else Ok (false, Diag (DiagSetCard
                             (dict_get_default d "message" (JStr "未知错误"))))) /\
  (forall d,
     member_info_result (transport (Body (JObj d))) =
     match dict_get d "data" with
     | JNull => Ok (false, Diag DiagEmptyData)
     | data => Ok (true, Data data)
     end).
Proof.
  repeat split.
  - destruct r; simpl in *; congruence.
  - destruct r; simpl in *; congruence.
  - destruct r; simpl in *; congruence.
  - intros d; simpl. unfold dict_get.
    destruct (is_str (dict_get_default d "status" JNull) "ok"); reflexivity.
  - intros d; simpl. unfold dict_get.
    destruct (dict_get_default d "data" JNull); reflexivity.
Qed.

Lemma napcat_failure_classification_witness :
  poke_result (transport (URLError "unreachable"))
  = Ok (false, Diag (DiagNetwork "unreachable")) /\
  set_card_result (transport (URLError "unreachable"))
  = Ok (false, Diag (DiagNetwork "unreachable")) /\
  member_info_result (transport (URLError "unreachable"))
  = Ok (false, Diag (DiagNetwork "unreachable")).
Proof.
  apply (proj1 napcat_failure_classification (URLError "unreachable")).
  reflexivity.
Defined.

(** C3, as stated, fails on bodies the specification counts as failed:
    [group_poke] succeeds on a failed status without data,
    [get_group_member_info] succeeds on a failed status with data, and
    [set_group_card] succeeds on an ok status without data. *)
Lemma napcat_taxonomy_not_shared :
  let failed := [("status", JStr "failed"); ("data", JNull)] in
  let failed_with_data :=
    [("status", JStr "failed"); ("data", JObj [("role", JStr "member")])] in
  let ok_without_data := [("status", JStr "ok")] in
  (spec_body_failed failed = true /\
   poke_result (transport (Body (JObj failed))) = Ok (true, Data (JObj failed))) /\
  (spec_body_failed failed_with_data = true /\
   member_info_result (transport (Body (JObj failed_with_data)))
   = Ok (true, Data (JObj [("role", JStr "member")]))) /\
  (spec_body_failed ok_without_data = true /\
   set_card_result (transport (Body (JObj ok_without_data)))
   = Ok (true, Data (JObj ok_without_data))).
Proof. repeat split. Qed.

(** ** Candidate selection (C2) *)



(** ** The action sequence (C4 to C8) *)

Ltac run_action w cfg g t s H :=
  let r := fresh "r" in
  let s' := fresh "s'" in
  destruct (action_sequence w cfg g t s) as [r s'] eqn:H;
  unfold action_sequence in H; exec_all H;
  try (destruct (poke_reply_ok w (posts s)) as [? [? ?]]; congruence);
  apply pair_equal_spec in H; destruct H as [? ?]; subst;
  cbn [snd trace posts schedule_file log next_post next_draw].

Ltac trace_eq := repeat rewrite <- app_assoc; cbn [app]; reflexivity.

Lemma is_set_card_post e : is_set_card e = true -> is_post e = true.
Proof. destruct e; simpl; congruence. Qed.

Lemma is_set_card_on_set_card uid e :
  is_set_card_on uid e = true -> is_set_card e = true.
Proof.
  destruct e; simpl; try congruence.
  intros H. apply andb_true_iff in H. tauto.
Qed.

Lemma not_post_not_set_card (evs : list event) :
  Forall (fun e => is_post e = false) evs ->
  Forall (fun e => is_set_card e = false) evs.
Proof.
  apply Forall_impl. intros e H.
  destruct (is_set_card e) eqn:E; [|reflexivity].
  apply is_set_card_post in E. congruence.
Qed.

(** The action sequence writes no schedule and leaves the file alone. *)
Lemma action_sequence_frame w cfg g t s :
  exists act,
    trace (snd (action_sequence w cfg g t s)) = trace s ++ act /\
    Forall (fun e => is_save e = false) act /\
    schedule_file (snd (action_sequence w cfg g t s)) = schedule_file s.
Proof.
  run_action w cfg g t s H;
    (eexists; split; [trace_eq|]; split; [repeat constructor | reflexivity]).
Qed.

(** When the target's member info cannot be fetched, the action sequence
    stops after its second request. *)
Lemma action_sequence_target_info_failed w cfg g t s :
  (forall info, member_info_reply w (S (posts s)) <> Ok (true, info)) ->
  trace (snd (action_sequence w cfg g t s))
  = trace s ++ [poke_event cfg g t; member_info_event cfg g t] /\
  posts (snd (action_sequence w cfg g t s)) = S (S (posts s)).
Proof.
  intros Hfail.
  run_action w cfg g t s H;
    try (exfalso; eapply Hfail; reflexivity);
    try (destruct b0; [exfalso; eapply Hfail; reflexivity | discriminate]);
    (split; [trace_eq | reflexivity]).
Qed.

Ltac got_events act :=
  let Htr := fresh "Htr" in
  intros Htr; cbn [trace log next_post next_draw] in Htr;
  repeat rewrite <- app_assoc in Htr;
  apply app_inv_head in Htr; cbn [app] in Htr; subst act.

Ltac same_reply :=
  repeat match goal with
         | H : Ok _ = Ok _ |- _ => inversion H; subst; clear H
         | H : Raise _ = Ok _ |- _ => discriminate H
         | H : negb true = true |- _ => discriminate H
         | H : negb false = false |- _ => discriminate H
         end.

(** What a cycle adds to the trace: a prelude without requests, then
    possibly the events of the action sequence on a ranked user. *)
Lemma execute_duoshe_events w cfg g c s evs :
  trace (snd (_execute_duoshe w cfg g c s)) = trace s ++ evs ->
  exists pre,
    Forall (fun e => is_post e = false) pre /\
    (evs = pre /\ posts (snd (_execute_duoshe w cfg g c s)) = posts s \/
     exists l t s1 act,
       fst (rank_active_users w c s) = Ok l /\ In t l /\
       posts s1 = posts s /\
       trace (snd (action_sequence w cfg g t s1)) = trace s1 ++ act /\
       posts (snd (_execute_duoshe w cfg g c s))
       = posts (snd (action_sequence w cfg g t s1)) /\
       evs = pre ++ act).
Proof.
  intros Htr.
  destruct (execute_duoshe_cases w cfg g c s)
    as [pre [s1 [Hpre [Hnp [Hposts [_ [Hrun | [l [t [Hl [Hin Hrun]]]]]]]]]]];
    rewrite Hrun in *; cbn [snd] in *; exists pre; (split; [exact Hnp|]).
  - left. rewrite Hpre in Htr. apply app_inv_head in Htr. auto.
  - right. destruct (action_sequence_frame w cfg g t s1) as [act [Hact _]].
    exists l, t, s1, act. repeat (split; [assumption || reflexivity|]).
    rewrite Hact, Hpre, <- app_assoc in Htr. apply app_inv_head in Htr. auto.
Qed.

(** C4: when fetching the target's member info fails (the request fails,
    the body has no data or a null data, or reading the body raises), the
    cycle issues no set-card request at all and sends nothing after the
    failed fetch. *)
Theorem target_info_failure_aborts w cfg g c s evs :
  trace (snd (_execute_duoshe w cfg g c s)) = trace s ++ evs ->
  (forall info, member_info_reply w (S (posts s)) <> Ok (true, info)) ->
  Forall (fun e => is_set_card e = false) evs /\
  (posts (snd (_execute_duoshe w cfg g c s)) <= 2 + posts s)%nat.
Proof.
  intros Htr Hfail.
  destruct (execute_duoshe_cases w cfg g c s)
    as [pre [s1 [Hpre [Hnp [Hposts [_ [Hrun | [l [t [_ [_ Hrun]]]]]]]]]]];
    rewrite Hrun in *; cbn [snd] in *.
  - rewrite Hpre in Htr. apply app_inv_head in Htr. subst evs.
    split; [apply not_post_not_set_card; exact Hnp | lia].
  - rewrite <- Hposts in Hfail.
    destruct (action_sequence_target_info_failed w cfg g t s1 Hfail)
      as [Hact Hp].
    rewrite Hact, Hpre, <- app_assoc in Htr. apply app_inv_head in Htr.
    subst evs. split; [|lia].
    apply Forall_app. split; [apply not_post_not_set_card; exact Hnp|].
    repeat constructor.
Qed.

Lemma target_info_failure_aborts_witness :
  member_info_reply no_data_world 1 = Ok (false, Diag DiagEmptyData) /\
  Forall (fun e => is_set_card e = false)
         [EvMessages "chat" (1699913600 # 1) (1700000000 # 1);
          EvExpovariate (3 # 2);
          poke_event example_config "1001" "C";
          member_info_event example_config "1001" "C"] /\
  (posts (snd (_execute_duoshe no_data_world example_config "1001" "chat"
                               initial_state)) <= 2)%nat.
Proof.
  split; [reflexivity|].
  apply (target_info_failure_aborts no_data_world example_config
                                    "1001" "chat" initial_state).
  - vm_compute. reflexivity.
  - intros info H. vm_compute in H. discriminate.
Defined.

(** *** Role check (C5) *)


Lemma set_card_on_other uid cfg g card :
  uid <> bot_qq cfg ->
  is_set_card_on uid (set_card_event cfg g (bot_qq cfg) card) = false.
Proof.
  intros Hne. unfold is_set_card_on, set_card_event, set_card_body. simpl.
  destruct (String.eqb_spec (bot_qq cfg) uid); congruence.
Qed.



(** *** Independent failure domains (C6) *)

Lemma poke_event_inj cfg g t u : poke_event cfg g t = poke_event cfg g u -> t = u.
Proof. unfold poke_event. intros H. injection H. auto. Qed.

(** The action sequence pokes its target and nobody else. *)
Lemma action_sequence_poke w cfg g t s act u :
  trace (snd (action_sequence w cfg g t s)) = trace s ++ act ->
  In (poke_event cfg g u) act -> u = t.
Proof.
  revert act.
  run_action w cfg g t s H; intros act; got_events act; intros Hin;
    cbn [In] in Hin;
    repeat match goal with
           | Hor : _ \/ _ |- _ => destruct Hor as [Hor | Hor]
           | Hf : False |- _ => destruct Hf
           | Heq : poke_event _ _ _ = poke_event _ _ _ |- _ =>
               symmetry; exact (poke_event_inj _ _ _ _ Heq)
           | Heq : _ = poke_event _ _ _ |- _ => discriminate Heq
           end.
Qed.

Lemma action_sequence_swaps w cfg g t s act tinfo tcard binfo bcard role d :
  member_info_reply w (S (posts s)) = Ok (true, tinfo) ->
  display_card tinfo = Ok tcard ->
  member_info_reply w (S (S (posts s))) = Ok (true, binfo) ->
  display_card binfo = Ok bcard ->
  result_get binfo "role" (JStr "member") = Ok role ->
  is_admin_class role = true ->
  set_card_reply w (S (S (S (posts s)))) = Ok (false, d) ->
  build_candidates cfg bcard <> [] ->
  trace (snd (action_sequence w cfg g t s)) = trace s ++ act ->
  exists new_card,
    In new_card (build_candidates cfg bcard) /\
    In (set_card_event cfg g t new_card) act.
Proof.
  intros Ht Htc Hb Hbc Hr Ha Hown Hpool. revert act.
  run_action w cfg g t s H; intros act; got_events act;
    same_reply; try congruence;
    match goal with
    | Hc : build_candidates cfg ?c = ?x :: ?l |- _ =>
        assert (c = bcard) by congruence; subst c;
        rewrite Hc in *
    end;
    (eexists; split; [apply nth_In; eassumption|]);
    cbn [In]; auto 10.
Qed.

(** C6: when the request that sets the bot's own card returns the failure
    signal, the bot is an administrator or owner and the candidate pool is
    not empty, the cycle still issues the set-card request on the target
    (the user it poked), with a card taken from the pool. *)
Theorem own_card_failure_still_swaps
        w cfg g c s evs t tinfo tcard binfo bcard role d :
  trace (snd (_execute_duoshe w cfg g c s)) = trace s ++ evs ->
  In (poke_event cfg g t) evs ->
  member_info_reply w (1 + posts s) = Ok (true, tinfo) ->
  display_card tinfo = Ok tcard ->
  member_info_reply w (2 + posts s) = Ok (true, binfo) ->
  display_card binfo = Ok bcard ->
  result_get binfo "role" (JStr "member") = Ok role ->
  is_admin_class role = true ->
  set_card_reply w (3 + posts s) = Ok (false, d) ->
  build_candidates cfg bcard <> [] ->
  exists new_card,
    In new_card (build_candidates cfg bcard) /\
    In (set_card_event cfg g t new_card) evs.
Proof.
  intros Htr Hpoke Ht Htc Hb Hbc Hr Ha Hown Hpool.
  destruct (execute_duoshe_events w cfg g c s evs Htr)
    as [pre [Hnp [[-> _] | [l [t' [s1 [act [_ [_ [Hp [Hact [_ ->]]]]]]]]]]]].
  - exfalso. rewrite Forall_forall in Hnp.
    specialize (Hnp _ Hpoke). discriminate Hnp.
  - apply in_app_or in Hpoke. destruct Hpoke as [Hpoke | Hpoke].
    + exfalso. rewrite Forall_forall in Hnp.
      specialize (Hnp _ Hpoke). discriminate Hnp.
    + pose proof (action_sequence_poke w cfg g t' s1 act t Hact Hpoke); subst t'.
      rewrite <- Hp in Ht, Hb, Hown.
      destruct (action_sequence_swaps w cfg g t s1 act tinfo tcard binfo bcard
                  role d Ht Htc Hb Hbc Hr Ha Hown Hpool Hact)
        as [new_card [Hin Hev]].
      exists new_card. split; [exact Hin|]. apply in_or_app. auto.
Qed.

Lemma own_card_failure_still_swaps_witness :
  set_card_reply own_card_refused_world 3
  = Ok (false, Diag (DiagSetCard (JStr "no permission"))) /\
  exists new_card,
    In new_card [JStr "Mai"; JStr "Mai2"; JStr "Bot"] /\
    In (set_card_event example_config "1001" "C" new_card)
       [EvMessages "chat" (1699913600 # 1) (1700000000 # 1);
        EvExpovariate (3 # 2);
        poke_event example_config "1001" "C";
        member_info_event example_config "1001" "C";
        member_info_event example_config "1001" "42";
        set_card_event example_config "1001" "42" (JStr "Carol");
        EvChoice 3;
        set_card_event example_config "1001" "C" (JStr "Mai2")].
Proof.
  split; [reflexivity|].
  apply (own_card_failure_still_swaps own_card_refused_world example_config
           "1001" "chat" initial_state _ "C"
           (Data (JObj [("card", JStr "Carol"); ("nickname", JStr "carol");
                        ("role", JStr "member")]))
           (JStr "Carol")
           (Data (JObj [("card", JStr "Bot"); ("nickname", JStr "bot");
                        ("role", JStr "owner")]))
           (JStr "Bot") (JStr "owner")
           (Diag (DiagSetCard (JStr "no permission")))).
  - vm_compute. reflexivity.
  - simpl. auto.
  - reflexivity.
  - reflexivity.
  - reflexivity.
  - reflexivity.
  - reflexivity.
  - reflexivity.
  - reflexivity.
  - discriminate.
Defined.

(** *** Nothing to do (C7) *)

(** C7: when the ranking is empty, the cycle consists of the message query
    alone: no request is sent (no poke, no member-info fetch, no set-card)
    and no random number is drawn; an empty message window and a failing
    message query both give an empty ranking. *)
Theorem empty_ranking_sends_nothing :
  (forall w cfg g c s evs,
      fst (rank_active_users w c s) = Ok [] ->
      trace (snd (_execute_duoshe w cfg g c s)) = trace s ++ evs ->
      evs = [EvMessages c (clock w (ticks s) - 24 * 3600) (clock w (ticks s))] /\
      Forall (fun e => is_post e = false) evs /\
      posts (snd (_execute_duoshe w cfg g c s)) = posts s /\
      draws (snd (_execute_duoshe w cfg g c s)) = draws s) /\
  (forall w c s,
      messages_in_chat w (queries s) = Ok [] ->
      fst (rank_active_users w c s) = Ok []) /\
  (forall w c s e,
      messages_in_chat w (queries s) = Raise e ->
      fst (rank_active_users w c s) = Ok []).
Proof.
  split; [|split].
  - intros w cfg g c s evs Hrank.
    destruct (rank_active_users_run w c s) as [l [Hrun _]].
    rewrite Hrun in Hrank. cbn [fst] in Hrank.
    assert (l = []) by congruence. subst l.
    unfold _execute_duoshe, try_except. rewrite bind_run, Hrun.
    cbn [snd ret trace posts draws log next_query next_tick].
    intros Htr. apply app_inv_head in Htr. subst evs.
    repeat split. repeat constructor.
  - intros w c s Hm.
    destruct (rank_active_users_run w c s) as [l [Hrun [_ Hok]]].
    rewrite Hrun, (Hok _ Hm). reflexivity.
  - intros w c s e Hm.
    destruct (rank_active_users_run w c s) as [l [Hrun [Herr _]]].
    rewrite Hrun, (Herr _ Hm). reflexivity.
Qed.

Lemma empty_ranking_sends_nothing_witness :
  fst (rank_active_users silent_world "chat" initial_state) = Ok [] /\
  Forall (fun e => is_post e = false)
         [EvMessages "chat" (1699913600 # 1) (1700000000 # 1)] /\
  fst (rank_active_users
         (example_world [ok_body] (Raise (OtherError "database is locked")))
         "chat" initial_state) = Ok [].
Proof.
  split; [|split].
  - apply (proj1 (proj2 empty_ranking_sends_nothing) silent_world).
    reflexivity.
  - apply (proj1 empty_ranking_sends_nothing silent_world example_config
                 "1001" "chat" initial_state).
    + reflexivity.
    + vm_compute. reflexivity.
  - apply (proj2 (proj2 empty_ranking_sends_nothing)
                 (example_world [ok_body]
                                (Raise (OtherError "database is locked")))
                 "chat" initial_state (OtherError "database is locked")).
    reflexivity.
Defined.

(** *** The reciprocal swap (C8) *)

Lemma set_card_event_inj cfg g u1 c1 u2 c2 :
  set_card_event cfg g u1 c1 = set_card_event cfg g u2 c2 ->
  u1 = u2 /\ c1 = c2.
Proof.
  unfold set_card_event, set_card_body. intros H. injection H. auto.
Qed.

Lemma build_candidates_eq cfg bot_card :
  build_candidates cfg bot_card =
  (if String.eqb (bot_nickname cfg) "" then [] else [JStr (bot_nickname cfg)])
    ++ map JStr (bot_alias_names cfg)
    ++ (if truthy bot_card then [bot_card] else []).
Proof.
  unfold build_candidates.
  destruct (String.eqb (bot_nickname cfg) ""), (bot_alias_names cfg),
    (truthy bot_card); cbn [negb app map]; rewrite ?app_nil_r;
    try rewrite <- app_assoc; reflexivity.
Qed.

Lemma action_sequence_pokes_target w cfg g t s act :
  trace (snd (action_sequence w cfg g t s)) = trace s ++ act ->
  In (poke_event cfg g t) act.
Proof.
  revert act.
  run_action w cfg g t s H; intros act; got_events act; cbn [In]; auto.
Qed.

(** A set-card request on somebody else than the bot is the last step of
    the sequence: the bot is an administrator and the card is the pool
    member at the index drawn. *)
Lemma action_sequence_rename w cfg g t s act uid card :
  uid <> bot_qq cfg ->
  trace (snd (action_sequence w cfg g t s)) = trace s ++ act ->
  In (set_card_event cfg g uid card) act ->
  uid = t /\
  exists binfo bot_card role k,
    member_info_reply w (S (S (posts s))) = Ok (true, binfo) /\
    display_card binfo = Ok bot_card /\
    result_get binfo "role" (JStr "member") = Ok role /\
    is_admin_class role = true /\
    nth_error (build_candidates cfg bot_card)
              (randbelow w k (List.length (build_candidates cfg bot_card))
               mod List.length (build_candidates cfg bot_card))
    = Some card.
Proof.
  intros Hne. revert act.
  run_action w cfg g t s H; intros act; got_events act; intros Hin;
    cbn [In] in Hin;
    repeat match goal with
           | Hor : _ \/ _ |- _ => destruct Hor as [Hor | Hor]
           | Hf : False |- _ => destruct Hf
           | Heq : set_card_event _ _ _ _ = set_card_event _ _ _ _ |- _ =>
               apply set_card_event_inj in Heq; destruct Heq as [? ?]; subst
           | Heq : _ = set_card_event _ _ _ _ |- _ => discriminate Heq
           end;
    try congruence;
    (split; [reflexivity|]);
    match goal with
    | Hb : negb ?b = false,
      Hm : member_info_reply w (S (S (posts s))) = Ok (?b, ?p),
      Hc : build_candidates cfg ?c = _ :: _ |- _ =>
        destruct b; [|discriminate Hb];
        exists p, c; rewrite Hc
    end;
    do 2 eexists;
    (repeat split; try eassumption);
    apply nth_error_nth'; eassumption.
Qed.

Lemma filter_truthy_aliases (aliases : list string) :
  Forall (fun a => a <> ""%string) aliases ->
  filter truthy (map JStr aliases) = map JStr aliases.
Proof.
  induction 1 as [|a l Ha _ IH]; [reflexivity|].
  cbn [map filter truthy]. rewrite IH.
  destruct (String.eqb_spec a ""); [congruence | reflexivity].
Qed.

(** C8, as amended: with non-empty configured aliases, the pool consists
    exactly of the non-empty entries among the configured nickname, the
    configured aliases and the bot's current display name (its card or,
    when the card is empty, its group nickname); a set-card request on a
    user other than the bot is issued only on the poked target, by an
    administrator, with the pool member at the index the generator draws
    below the pool's length; with an empty pool there is no such request. *)
Theorem reciprocal_swap_pool :
  (forall cfg bot_card,
      Forall (fun a => a <> ""%string) (bot_alias_names cfg) ->
      build_candidates cfg bot_card = spec_pool cfg bot_card) /\
  (forall w cfg g c s evs uid card,
      trace (snd (_execute_duoshe w cfg g c s)) = trace s ++ evs ->
      uid <> bot_qq cfg ->
      In (set_card_event cfg g uid card) evs ->
      In (poke_event cfg g uid) evs /\
      exists binfo bot_card role k,
        member_info_reply w (2 + posts s) = Ok (true, binfo) /\
        display_card binfo = Ok bot_card /\
        result_get binfo "role" (JStr "member") = Ok role /\
        is_admin_class role = true /\
        nth_error (build_candidates cfg bot_card)
                  (randbelow w k (List.length (build_candidates cfg bot_card))
                   mod List.length (build_candidates cfg bot_card))
        = Some card) /\
  (forall w cfg g c s evs uid card,
      trace (snd (_execute_duoshe w cfg g c s)) = trace s ++ evs ->
      uid <> bot_qq cfg ->
      (forall binfo bot_card,
          member_info_reply w (2 + posts s) = Ok (true, binfo) ->
          display_card binfo = Ok bot_card ->
          build_candidates cfg bot_card = []) ->
      ~ In (set_card_event cfg g uid card) evs).
Proof.
  assert (Hmain : forall w cfg g c s evs uid card,
      trace (snd (_execute_duoshe w cfg g c s)) = trace s ++ evs ->
      uid <> bot_qq cfg ->
      In (set_card_event cfg g uid card) evs ->
      In (poke_event cfg g uid) evs /\
      exists binfo bot_card role k,
        member_info_reply w (2 + posts s) = Ok (true, binfo) /\
        display_card binfo = Ok bot_card /\
        result_get binfo "role" (JStr "member") = Ok role /\
        is_admin_class role = true /\
        nth_error (build_candidates cfg bot_card)
                  (randbelow w k (List.length (build_candidates cfg bot_card))
                   mod List.length (build_candidates cfg bot_card))
        = Some card).
  { intros w cfg g c s evs uid card Htr Hne Hin.
    destruct (execute_duoshe_events w cfg g c s evs Htr)
      as [pre [Hnp [[-> _] | [l [t [s1 [act [_ [_ [Hp [Hact [_ ->]]]]]]]]]]]].
    - exfalso. rewrite Forall_forall in Hnp.
      specialize (Hnp _ Hin). discriminate Hnp.
    - apply in_app_or in Hin. destruct Hin as [Hin | Hin].
      + exfalso. rewrite Forall_forall in Hnp.
        specialize (Hnp _ Hin). discriminate Hnp.
      + destruct (action_sequence_rename w cfg g t s1 act uid card Hne Hact Hin)
          as [Heq Hex].
        subst t. rewrite Hp in Hex. split; [|exact Hex].
        apply in_or_app. right.
        exact (action_sequence_pokes_target w cfg g uid s1 act Hact). }
  split; [|split; [exact Hmain|]].
  - intros cfg bot_card Hal.
    rewrite build_candidates_eq. unfold spec_pool.
    rewrite !filter_app, (filter_truthy_aliases _ Hal).
    cbn [filter truthy].
    destruct (String.eqb (bot_nickname cfg) ""), (truthy bot_card);
      reflexivity.
  - intros w cfg g c s evs uid card Htr Hne Hempty Hin.
    destruct (Hmain w cfg g c s evs uid card Htr Hne Hin)
      as [_ [binfo [bot_card [role [k [Hb [Hc [_ [_ Hnth]]]]]]]]].
    rewrite (Hempty binfo bot_card Hb Hc) in Hnth.
    destruct (_ mod _)%nat; discriminate.
Qed.

Lemma reciprocal_swap_pool_witness :
  build_candidates example_config (JStr "Bot")
  = [JStr "Mai"; JStr "Mai2"; JStr "Bot"] /\
  (In (poke_event example_config "1001" "C")
      [EvMessages "chat" (1699913600 # 1) (1700000000 # 1);
       EvExpovariate (3 # 2);
       poke_event example_config "1001" "C";
       member_info_event example_config "1001" "C";
       member_info_event example_config "1001" "42";
       set_card_event example_config "1001" "42" (JStr "Carol");
       EvChoice 3;
       set_card_event example_config "1001" "C" (JStr "Mai2")] /\
   exists binfo bot_card role k,
     member_info_reply admin_world 2 = Ok (true, binfo) /\
     display_card binfo = Ok bot_card /\
     result_get binfo "role" (JStr "member") = Ok role /\
     is_admin_class role = true /\
     nth_error (build_candidates example_config bot_card)
               (randbelow admin_world k
                          (List.length (build_candidates example_config bot_card))
                mod List.length (build_candidates example_config bot_card))
     = Some (JStr "Mai2")) /\
  ~ In (set_card_event nameless_config "1001" "C" (JStr ""))
       [EvMessages "chat" (1699913600 # 1) (1700000000 # 1);
        EvExpovariate (3 # 2);
        poke_event nameless_config "1001" "C";
        member_info_event nameless_config "1001" "C";
        member_info_event nameless_config "1001" "42";
        set_card_event nameless_config "1001" "42" (JStr "Carol")].
Proof.
  split; [|split].
  - apply (proj1 reciprocal_swap_pool example_config (JStr "Bot")).
    repeat constructor; discriminate.
  - apply (proj1 (proj2 reciprocal_swap_pool) admin_world example_config
                 "1001" "chat" initial_state _ "C" (JStr "Mai2")).
    + vm_compute. reflexivity.
    + discriminate.
    + simpl. auto 10.
  - apply (proj2 (proj2 reciprocal_swap_pool) empty_alias_world
                 nameless_config "1001" "chat" initial_state).
    + vm_compute. reflexivity.
    + discriminate.
    + intros binfo bot_card Hinfo Hcard. vm_compute in Hinfo.
      inversion Hinfo; subst. vm_compute in Hcard.
      inversion Hcard; subst. reflexivity.
Defined.

(** C8, as stated, fails.  First, a bot without a card in the group: the
    third member of the pool is its group nickname "bot", which is neither
    the configured nickname, nor an alias, nor the previous card, and the
    target is renamed to it.  Second, a bot whose only configured name is
    the empty alias: the specification's pool is empty, yet the target is
    renamed, to the empty card. *)
Lemma swap_pool_not_as_specified :
  (member_info_reply last_choice_world 2
   = Ok (true, Data (JObj [("card", JStr ""); ("nickname", JStr "bot");
                           ("role", JStr "admin")])) /\
   spec_pool example_config (JStr "") = [JStr "Mai"; JStr "Mai2"] /\
   build_candidates example_config (JStr "bot")
   = [JStr "Mai"; JStr "Mai2"; JStr "bot"] /\
   In (set_card_event example_config "1001" "C" (JStr "bot"))
      (trace (snd (_execute_duoshe last_choice_world example_config
                                   "1001" "chat" initial_state)))) /\
  (member_info_reply empty_alias_world 2
   = Ok (true, Data (JObj [("card", JStr ""); ("nickname", JStr "");
                           ("role", JStr "admin")])) /\
   spec_pool empty_alias_config (JStr "") = [] /\
   build_candidates empty_alias_config (JStr "") = [JStr ""] /\
   In (set_card_event empty_alias_config "1001" "C" (JStr ""))
      (trace (snd (_execute_duoshe empty_alias_world empty_alias_config
                                   "1001" "chat" initial_state)))).
Proof.
  split.
  - split; [reflexivity|]. split; [reflexivity|]. split; [reflexivity|].
    vm_compute. auto 10.
  - split; [reflexivity|]. split; [reflexivity|]. split; [reflexivity|].
    vm_compute. auto 10.
Qed.

(** ** The schedule store and the loop (C1, C9, C10) *)

Lemma dict_lookup_set_same (d : dict) (k : string) (v : json) :
  dict_lookup (dict_set d k v) k = Some v.
Proof.
  induction d as [|[k' v'] d IH]; simpl.
  - rewrite String.eqb_refl. reflexivity.
  - destruct (String.eqb k' k) eqn:E; simpl; rewrite E; auto.
Qed.

Lemma dict_lookup_set_other (d : dict) (k k0 : string) (v : json) :
  k0 <> k -> dict_lookup (dict_set d k v) k0 = dict_lookup d k0.
Proof.
  intros Hne. induction d as [|[k' v'] d IH]; simpl.
  - destruct (String.eqb_spec k k0); congruence.
  - destruct (String.eqb_spec k' k) as [->|Hk]; simpl.
    + destruct (String.eqb_spec k k0); congruence.
    + destruct (String.eqb_spec k' k0); auto.
Qed.

(** Keys keep their order; a new key goes last. *)
Lemma dict_set_keys (d : dict) (k : string) (v : json) :
  map fst (dict_set d k v)
  = if existsb (String.eqb k) (map fst d) then map fst d
    else map fst d ++ [k].
Proof.
  induction d as [|[k' v'] d IH]; simpl; [reflexivity|].
  rewrite (String.eqb_sym k k').
  destruct (String.eqb k' k); simpl; [reflexivity|].
  rewrite IH. destruct (existsb _ _); reflexivity.
Qed.

Lemma load_schedule_run w s :
  exists j, _load_schedule w s = (Ok j, s).
Proof.
  unfold _load_schedule.
  destruct (schedule_file s); [|eauto].
  destruct (fs_readable w); [|eauto].
  destruct (json_load w s0); eauto.
Qed.



(** A cycle never raises, writes no schedule and leaves the file alone. *)
Lemma execute_duoshe_frame w cfg g c s :
  exists s' evs,
    _execute_duoshe w cfg g c s = (Ok tt, s') /\
    trace s' = trace s ++ evs /\
    Forall (fun e => is_save e = false) evs /\
    schedule_file s' = schedule_file s.
Proof.
  destruct (rank_active_users_run w c s) as [l [Hrank _]].
  unfold _execute_duoshe, try_except. rewrite bind_run, Hrank.
  set (ev0 := EvMessages c (clock w (ticks s) - 24 * 3600) (clock w (ticks s))).
  set (s0 := next_query _).
  assert (H0 : trace s0 = trace s ++ [ev0]) by reflexivity.
  destruct l as [|u l'].
  - exists s0, [ev0]. repeat split; auto.
  - set (l := u :: l').
    destruct (select_target_run w cfg l s0)
      as [r [s1 [evs [Hsel [Htr [Hev [_ Hf]]]]]]].
    assert (Hev' : Forall (fun e => is_save e = false) evs).
    { eapply Forall_impl; [|exact Hev]. intros e; destruct e; simpl; congruence. }
    rewrite bind_run, Hsel.
    assert (Hstop : exists s' evs0,
               (Ok tt, s1) = (Ok tt, s') /\ trace s' = trace s ++ evs0 /\
               Forall (fun e => is_save e = false) evs0 /\
               schedule_file s' = schedule_file s).
    { exists s1, (ev0 :: evs). split; [reflexivity|].
      split; [rewrite Htr, H0, <- app_assoc; reflexivity|].
      split; [constructor; [reflexivity | exact Hev'] | exact Hf]. }
    destruct r as [t|e]; [|exact Hstop].
    destruct (String.eqb t ""); [exact Hstop|].
    destruct (action_sequence_frame w cfg g t s1) as [act [Hact [Hns Hfile]]].
    exists (snd (action_sequence w cfg g t s1)), (ev0 :: evs ++ act).
    split; [destruct (action_sequence w cfg g t s1) as [[[]|e] s2]; reflexivity|].
    split; [rewrite Hact, Htr, H0, <- !app_assoc; reflexivity|].
    split; [constructor; [reflexivity | apply Forall_app; auto]|].
    rewrite Hfile. exact Hf.
Qed.

(** The three ways through one pass of the loop: an error and the long
    back-off, nothing due, or a cycle followed by the rescheduling. *)
Lemma loop_body_run w cfg g c s :
  loop_body w cfg g c s = (Ok tt, log (EvSleep 300) (next_tick s)) \/
  loop_body w cfg g c s = (Ok tt, log (EvSleep 60) (next_tick s)) \/
  exists d s2 evs2,
    fst (_load_schedule w s) = Ok (JObj d) /\
    trace s2 = trace s ++ evs2 /\
    Forall (fun e => is_save e = false) evs2 /\
    let saved := rescheduled w cfg g d (clock w (ticks s)) (draws s2) in
    let s3 := log (EvSaveSchedule saved)
                  (next_draw (log (EvUniform (min_interval cfg)
                                             (max_interval cfg)) s2)) in
    loop_body w cfg g c s
    = (Ok tt,
       log (EvSleep 60)
           (if fs_writable w then set_file (Some (json_dump w saved)) s3
            else s3)).
Proof.
  destruct (load_schedule_run w s) as [j Hload]. rewrite Hload. cbn [fst].
  remember (loop_body w cfg g c s) as run eqn:Hrun.
  unfold loop_body, try_except in Hrun. rewrite bind_run, Hload in Hrun.
  rewrite bind_run in Hrun. unfold time_time at 1 in Hrun.
  rewrite bind_run, lift_run in Hrun.
  destruct j as [| | | | |d]; try (left; exact Hrun).
  cbn [py_get] in Hrun. rewrite bind_run, lift_run in Hrun.
  destruct (py_float_ge _ _) as [[|]|e].
  - right; right.
    destruct (execute_duoshe_frame w cfg g c (next_tick s))
      as [s2 [evs2 [Hexec [Htr2 [Hns2 _]]]]].
    exists d, s2, evs2. split; [reflexivity|].
    split; [exact Htr2|]. split; [exact Hns2|].
    cbv zeta. rewrite bind_run, bind_run, Hexec, bind_run in Hrun.
    unfold random_uniform at 1 in Hrun. cbn [py_setitem] in Hrun.
    rewrite bind_run, lift_run in Hrun.
    unfold _save_schedule in Hrun. fold (rescheduled w cfg g d (clock w (ticks s)) (draws s2)) in Hrun.
    rewrite Hrun. unfold rescheduled.
    destruct (fs_writable w); reflexivity.
  - right; left. exact Hrun.
  - left. exact Hrun.
Qed.

(** The only schedule a pass writes is the loaded one with the group's
    entry replaced by [current_time + interval]. *)
Lemma loop_body_saves w cfg g c s evs saved :
  trace (snd (loop_body w cfg g c s)) = trace s ++ evs ->
  In (EvSaveSchedule saved) evs ->
  exists d k,
    fst (_load_schedule w s) = Ok (JObj d) /\
    saved = rescheduled w cfg g d (clock w (ticks s)) k /\
    (fs_writable w = true ->
     schedule_file (snd (loop_body w cfg g c s)) = Some (json_dump w saved)).
Proof.
  destruct (loop_body_run w cfg g c s)
    as [Hrun | [Hrun | [d [s2 [evs2 [Hload [Htr2 [Hns2 Hrun]]]]]]]];
    cbv zeta in Hrun; rewrite Hrun; cbn [snd trace log next_tick].
  - intros Htr Hin. apply app_inv_head in Htr. subst evs.
    destruct Hin as [Hin | []]. discriminate Hin.
  - intros Htr Hin. apply app_inv_head in Htr. subst evs.
    destruct Hin as [Hin | []]. discriminate Hin.
  - intros Htr Hin.
    assert (Hevs : evs = evs2
                         ++ [EvUniform (min_interval cfg) (max_interval cfg);
                             EvSaveSchedule
                               (rescheduled w cfg g d (clock w (ticks s))
                                            (draws s2));
                             EvSleep 60]).
    { destruct (fs_writable w);
        cbn [trace log set_file next_draw] in Htr;
        rewrite Htr2, <- !app_assoc in Htr;
        apply app_inv_head in Htr; subst evs; reflexivity. }
    subst evs. apply in_app_or in Hin. destruct Hin as [Hin | Hin].
    + rewrite Forall_forall in Hns2. specialize (Hns2 _ Hin).
      discriminate Hns2.
    + cbn [In] in Hin.
      destruct Hin as [Hin | [Hin | [Hin | []]]]; try discriminate Hin.
      injection Hin as <-.
      exists d, (draws s2). split; [exact Hload|]. split; [reflexivity|].
      intros Hw. rewrite Hw. reflexivity.
Qed.

(** ** The reference codec reads what it writes *)

Section DecimalNumbers.

Import Codec.
Local Open Scope string_scope.
Local Open Scope Z_scope.

Lemma digit_char_spec (d : Z) :
  0 <= d <= 9 ->
  is_digit (digit_char d) = true /\
  Z.of_N (N_of_ascii (digit_char d) - 48) = d /\
  Ascii.eqb (digit_char d) "-" = false.
Proof.
  intros Hd.
  assert (H : d = 0 \/ d = 1 \/ d = 2 \/ d = 3 \/ d = 4 \/ d = 5 \/ d = 6
              \/ d = 7 \/ d = 8 \/ d = 9) by lia.
  repeat (destruct H as [-> | H]; [repeat split|]); subst; repeat split.
Qed.

Lemma take_digit (d : Z) (s : string) (acc : Z) (cnt : nat) :
  0 <= d <= 9 ->
  take_digits (String (digit_char d) s) acc cnt
  = take_digits s (acc * 10 + d) (S cnt).
Proof.
  intros Hd. destruct (digit_char_spec d Hd) as [H1 [H2 _]].
  cbn [take_digits]. rewrite H1, H2. reflexivity.
Qed.

Lemma triple_eq {A B C} (a a' : A) (b b' : B) (c : C) :
  a = a' -> b = b' -> (a, b, c) = (a', b', c).
Proof. congruence. Qed.

Lemma digits_of_worth (fuel : nat) :
  forall v s l t,
    0 <= v < 10 ^ Z.of_nat fuel ->
    (1 <= fuel)%nat ->
    digits_worth s l t ->
    exists l', (1 <= l')%nat /\
      digits_worth (digits_of fuel v s) (l' + l) (v * 10 ^ Z.of_nat l + t).
Proof.
  induction fuel as [|fuel IH]; intros v s l t Hv Hfuel Hs; [lia|].
  cbn [digits_of].
  assert (Hd : 0 <= v mod 10 <= 9) by (pose proof (Z.mod_pos_bound v 10); lia).
  assert (Hs' : digits_worth (String (digit_char (v mod 10)) s) (S l)
                             (v mod 10 * 10 ^ Z.of_nat l + t)).
  { intros rest acc cnt Hrest. cbn [append].
    rewrite (take_digit _ _ _ _ Hd), (Hs rest _ _ Hrest).
    apply triple_eq; [|lia].
    rewrite Nat2Z.inj_succ, Z.pow_succ_r by lia. ring. }
  destruct (Z.eqb_spec (v / 10) 0) as [Hq | Hq].
  - exists 1%nat. split; [lia|].
    replace (v * 10 ^ Z.of_nat l) with (v mod 10 * 10 ^ Z.of_nat l); [exact Hs'|].
    f_equal. rewrite (Z.div_mod v 10) at 2 by lia. lia.
  - assert (Hv' : 0 <= v / 10 < 10 ^ Z.of_nat fuel).
    { split; [apply Z.div_pos; lia|].
      apply Z.div_lt_upper_bound; [lia|].
      rewrite Nat2Z.inj_succ, Z.pow_succ_r in Hv by lia. lia. }
    assert (Hfuel' : (1 <= fuel)%nat).
    { destruct fuel; [|lia]. cbn in Hv'. 
      assert (v / 10 = 0) by lia. contradiction. }
    destruct (IH (v / 10) _ (S l) _ Hv' Hfuel' Hs') as [l' [Hl' Hw]].
    exists (S l'). split; [lia|].
    replace (S l' + l)%nat with (l' + S l)%nat by lia.
    replace (v * 10 ^ Z.of_nat l + t)
      with (v / 10 * 10 ^ Z.of_nat (S l) + (v mod 10 * 10 ^ Z.of_nat l + t));
      [exact Hw|].
    rewrite Nat2Z.inj_succ, Z.pow_succ_r by lia.
    rewrite (Z.div_mod v 10) at 3 by lia. ring.
Qed.

Lemma dump_nat_worth (v : Z) :
  0 <= v -> exists l, (1 <= l)%nat /\ digits_worth (dump_nat v) l v.
Proof.
  intros Hv. unfold dump_nat.
  assert (Hnil : digits_worth EmptyString 0 0).
  { intros rest acc cnt Hrest. cbn [append].
    destruct rest as [|c rest]; cbn [take_digits];
      [|rewrite Hrest]; (apply triple_eq; [cbn; lia | lia]). }
  assert (Hb : 0 <= v < 10 ^ Z.of_nat (S (Z.to_nat (Z.log2 v)))).
  { split; [exact Hv|].
    destruct (Z.eq_dec v 0) as [->|Hne]; [cbn; lia|].
    rewrite Nat2Z.inj_succ, Z2Nat.id by apply Z.log2_nonneg.
    pose proof (Z.log2_spec v ltac:(lia)) as [_ Hlt].
    eapply Z.lt_le_trans; [exact Hlt|].
    apply Z.pow_le_mono_l. lia. }
  destruct (digits_of_worth _ v EmptyString 0 0 Hb ltac:(lia) Hnil)
    as [l' [Hl' Hw]].
  exists (l' + 0)%nat. split; [lia|].
  assert (E : v * 10 ^ Z.of_nat 0 + 0 = v) by (cbn; lia).
  rewrite E in Hw. exact Hw.
Qed.

Lemma fraction_digits_worth (n : nat) :
  forall r d,
    0 <= r < d ->
    (r * 10 ^ Z.of_nat n) mod d = 0 ->
    (1 <= n)%nat ->
    exists j F, (1 <= j)%nat /\ 0 <= F /\ F * d = r * 10 ^ Z.of_nat j /\
                digits_worth (fraction_digits n r d) j F.
Proof.
  induction n as [|n IH]; intros r d Hr Hmod Hn; [lia|].
  cbn [fraction_digits].
  assert (Hd : 0 < d) by lia.
  assert (Hdig : 0 <= r * 10 / d <= 9).
  { split; [apply Z.div_pos; lia|].
    assert (r * 10 / d < 10); [|lia].
    apply Z.div_lt_upper_bound; lia. }
  pose proof (Z.div_mod (r * 10) d ltac:(lia)) as Hdm.
  pose proof (Z.mod_pos_bound (r * 10) d Hd) as Hrem.
  destruct (Z.eqb_spec ((r * 10) mod d) 0) as [H0 | H0].
  - exists 1%nat, (r * 10 / d). split; [lia|]. split; [lia|].
    split; [cbn; lia|].
    intros rest acc cnt Hrest. cbn [append].
    rewrite (take_digit _ _ _ _ Hdig). cbn [append].
    destruct rest as [|c rest]; cbn [take_digits];
      [|rewrite Hrest]; (apply triple_eq; [cbn; lia | lia]).
  - assert (Hmod' : ((r * 10) mod d * 10 ^ Z.of_nat n) mod d = 0).
    { rewrite Z.mul_mod_idemp_l by lia.
      rewrite Nat2Z.inj_succ, Z.pow_succ_r in Hmod by lia.
      rewrite <- Hmod. f_equal. ring. }
    assert (Hn' : (1 <= n)%nat).
    { destruct n; [|lia]. cbn in Hmod'. rewrite Z.mul_1_r in Hmod'.
      rewrite Z.mod_mod in Hmod' by lia. contradiction. }
    destruct (IH ((r * 10) mod d) d ltac:(lia) Hmod' Hn')
      as [j [F [Hj [HF [HFd Hw]]]]].
    exists (S j), (r * 10 / d * 10 ^ Z.of_nat j + F).
    split; [lia|]. split; [pose proof (Z.pow_nonneg 10 (Z.of_nat j)); nia|].
    split.
    + rewrite Nat2Z.inj_succ, Z.pow_succ_r by lia.
      replace (r * (10 * 10 ^ Z.of_nat j))
        with ((r * 10) * 10 ^ Z.of_nat j) by ring.
      rewrite Hdm at 2. rewrite Z.mul_add_distr_r, HFd. ring.
    + intros rest acc cnt Hrest. cbn [append].
      rewrite (take_digit _ _ _ _ Hdig), (Hw rest _ _ Hrest).
      apply triple_eq; [|lia].
      rewrite Nat2Z.inj_succ, Z.pow_succ_r by lia. ring.
Qed.

Lemma worth_head (s : string) (l : nat) (v : Z) :
  digits_worth s l v -> (1 <= l)%nat ->
  exists c t, s = String c t /\ is_digit c = true.
Proof.
  intros Hw Hl. specialize (Hw EmptyString 0 0%nat I).
  destruct s as [|c t].
  - cbn in Hw. injection Hw as _ Hcnt. lia.
  - exists c, t. split; [reflexivity|].
    cbn [append take_digits] in Hw.
    destruct (is_digit c); [reflexivity|].
    injection Hw as _ Hcnt. lia.
Qed.

Lemma digit_not_minus (c : ascii) :
  is_digit c = true -> Ascii.eqb c "-" = false.
Proof. destruct c as [[] [] [] [] [] [] [] []]; cbn; congruence. Qed.

Lemma append_nil_r' (s : string) : (s ++ EmptyString)%string = s.
Proof. induction s; cbn; congruence. Qed.

(** Reading a sign, [l] digits worth [ip], a point and [j] digits worth
    [F]. *)
Lemma load_number_decimal (neg : bool) (ip_s frac_s : string)
      (l j : nat) (ip F : Z) :
  digits_worth ip_s l ip -> (1 <= l)%nat ->
  digits_worth frac_s j F ->
  load_number ((if neg then "-" else EmptyString)
               ++ ip_s ++ String "." frac_s)%string
  = Some (Qred (Qmake (if neg then - (ip * 10 ^ Z.of_nat j + F)
                       else ip * 10 ^ Z.of_nat j + F)
                      (Z.to_pos (10 ^ Z.of_nat j))),
          EmptyString).
Proof.
  intros Hip Hl Hfrac.
  destruct (worth_head _ _ _ Hip Hl) as [c [t [Hs Hc]]].
  assert (Hint : take_digits (ip_s ++ String "." frac_s) 0 0
                 = (ip, l, String "." frac_s)).
  { rewrite (Hip (String "." frac_s) 0 0%nat eq_refl).
    apply triple_eq; lia. }
  assert (Hfr : take_digits frac_s ip 0
                = (ip * 10 ^ Z.of_nat j + F, j, EmptyString)).
  { rewrite <- (append_nil_r' frac_s) at 1.
    rewrite (Hfrac EmptyString ip 0%nat I). reflexivity. }
  unfold load_number. destruct neg.
  - cbn [append]. change (Ascii.eqb "-" "-") with true. cbv iota.
    rewrite Hint. destruct l as [|l]; [lia|].
    change (Ascii.eqb "." ".") with true. cbv iota.
    rewrite Hfr. reflexivity.
  - cbn [append]. rewrite Hs in *. cbn [append].
    rewrite (digit_not_minus c Hc).
    change (String c (t ++ String "." frac_s))
      with (String c t ++ String "." frac_s)%string.
    rewrite Hint. destruct l as [|l]; [lia|].
    change (Ascii.eqb "." ".") with true. cbv iota.
    rewrite Hfr. reflexivity.
Qed.

(** Every number with a finite decimal expansion is written in full and
    read back. *)
Lemma number_ok_decimal (q : Q) : terminating q -> number_ok q = true.
Proof.
  destruct q as [n d]. unfold terminating, number_ok, dump_number.
  cbn [Qnum Qden]. cbv zeta. intros Hdec.
  set (a := Z.abs n). set (D := Z.pos d).
  assert (HD : 0 < D) by (unfold D; lia).
  pose proof (Z.div_mod a D ltac:(lia)) as Hdm.
  pose proof (Z.mod_pos_bound a D HD) as Hr.
  assert (Hip : 0 <= a / D) by (apply Z.div_pos; unfold a; lia).
  destruct (dump_nat_worth (a / D) Hip) as [l [Hl Hw]].
  fold D in Hdec. set (N := decimal_places D) in *.
  assert (Hmod : (a mod D * 10 ^ Z.of_nat N) mod D = 0).
  { rewrite Z.mul_mod_idemp_l by lia.
    unfold a. destruct (Z.abs_eq_or_opp n) as [-> | ->]; [exact Hdec|].
    rewrite Z.mul_opp_l. apply Z.mod_opp_l_z; [lia | exact Hdec]. }
  destruct (fraction_digits_worth N (a mod D) D Hr Hmod
              ltac:(unfold N, decimal_places; lia))
    as [j [F [Hj [HF [HFd Hfw]]]]].
  pose proof (load_number_decimal (n <? 0) _ _ l j (a / D) F Hw Hl Hfw)
    as Hload.
  change ("." ++ fraction_digits N (a mod D) D)%string
    with (String "." (fraction_digits N (a mod D) D)).
  rewrite Hload.
  assert (Hhead : exists c t,
             ((if (n <? 0)%Z then "-" else EmptyString)
              ++ dump_nat (a / D)%Z
              ++ String "." (fraction_digits N (a mod D)%Z D))%string
             = String c t /\
             is_digit c || Ascii.eqb c "-" = true).
  { destruct (n <? 0).
    - eexists; eexists; split; [reflexivity|]. reflexivity.
    - destruct (worth_head _ _ _ Hw Hl) as [c [t [-> Hc]]].
      eexists; eexists; split; [reflexivity|]. rewrite Hc. reflexivity. }
  destruct Hhead as [c [t [-> Hc]]]. rewrite Hc. cbn [andb].
  apply Qeq_bool_iff. rewrite Qred_correct.
  unfold Qeq. cbn [Qnum Qden].
  rewrite Z2Pos.id by (apply Z.pow_pos_nonneg; lia).
  fold D.
  assert (Hcore : (a / D * 10 ^ Z.of_nat j + F) * D = a * 10 ^ Z.of_nat j).
  { rewrite Z.mul_add_distr_r, HFd. rewrite Hdm at 3. ring. }
  destruct (Z.ltb_spec n 0) as [Hneg | Hpos].
  - rewrite Z.mul_opp_l, Hcore. unfold a. rewrite Z.abs_neq by lia. ring.
  - rewrite Hcore. unfold a. rewrite Z.abs_eq by lia. reflexivity.
Qed.

(** Binary fractions [n / 2^k], the values of floats, have finite decimal
    expansions. *)
Lemma dyadic_terminating (n : Z) (k : nat) :
  terminating (Qmake n (Z.to_pos (2 ^ Z.of_nat k))).
Proof.
  unfold terminating, decimal_places. cbn [Qnum Qden]. cbv zeta.
  set (e := Z.of_nat k).
  assert (He : 0 <= e) by (unfold e; lia).
  rewrite Z2Pos.id by (apply Z.pow_pos_nonneg; lia).
  rewrite Z.log2_pow2 by lia.
  rewrite Nat2Z.inj_succ, Z2Nat.id by lia.
  replace (10 ^ Z.succ e) with (2 ^ e * (2 * 5 ^ Z.succ e)).
  - rewrite Z.mul_assoc, (Z.mul_comm n), <- Z.mul_assoc.
    rewrite Z.mul_comm. apply Z.mod_mul.
    apply Z.pow_nonzero; lia.
  - change 10 with (2 * 5). rewrite Z.pow_mul_l, !Z.pow_succ_r by lia. ring.
Qed.

End DecimalNumbers.



Section CodecRoundTrip.

Import Codec.
Local Open Scope string_scope.

Lemma append_assoc' (a b c : string) : (a ++ b) ++ c = a ++ (b ++ c).
Proof. induction a; simpl; congruence. Qed.

Lemma length_append' (a b : string) :
  String.length (a ++ b) = (String.length a + String.length b)%nat.
Proof. induction a; simpl; congruence. Qed.

Lemma length_escape (k : string) :
  (String.length k <= String.length (escape k))%nat.
Proof.
  induction k as [|c k IH]; [apply Nat.le_refl|].
  cbn [escape String.length]. rewrite length_append'.
  assert (1 <= String.length (escape_char c))%nat; [|lia].
  destruct c as [[] [] [] [] [] [] [] []]; cbn; lia.
Qed.

Lemma load_string_escape (k rest : string) (fuel : nat) :
  (String.length k < fuel)%nat ->
  load_string fuel (escape k ++ String dquote rest) = Some (k, rest).
Proof.
  revert fuel. induction k as [|c k IH]; intros fuel Hfuel.
  - destruct fuel; [inversion Hfuel|]. reflexivity.
  - destruct fuel as [|fuel]; [inversion Hfuel|].
    cbn [String.length] in Hfuel. apply Nat.succ_lt_mono in Hfuel.
    specialize (IH fuel Hfuel).
    cbn [escape]. rewrite append_assoc'.
    destruct c as [[] [] [] [] [] [] [] []];
      cbn -[load_string append];
      cbn [append load_string load_escape]; cbn; rewrite IH; reflexivity.
Qed.

Lemma take_digits_app (t rest : string) (acc : Z) (cnt : nat) :
  match rest with
  | EmptyString => True
  | String c _ => is_digit c = false
  end ->
  take_digits (t ++ rest) acc cnt
  = let '(a, c, r) := take_digits t acc cnt in (a, c, r ++ rest).
Proof.
  intros Hrest. revert acc cnt.
  induction t as [|c t IH]; intros acc cnt; cbn [append take_digits].
  - destruct rest as [|c rest]; [reflexivity|].
    cbn [take_digits]. rewrite Hrest. reflexivity.
  - destruct (is_digit c); [apply IH | reflexivity].
Qed.

Lemma load_number_app (t rest : string) (q : Q) :
  load_number t = Some (q, EmptyString) ->
  delimited rest ->
  load_number (t ++ rest) = Some (q, rest).
Proof.
  intros Ht Hrest.
  assert (Hd : match rest with
               | EmptyString => True
               | String c _ => is_digit c = false
               end).
  { destruct rest; [exact I | exact (proj1 Hrest)]. }
  unfold load_number in *.
  destruct t as [|c t]; [discriminate Ht|].
  cbn [append].
  assert (Hgo : forall neg t1,
             (let '(int_part, n_int, s2) := take_digits t1 0 0 in
              match n_int with
              | O => None
              | S _ =>
                  let '(mantissa, n_frac, s3) :=
                    match s2 with
                    | String c s' =>
                        if Ascii.eqb c "." then take_digits s' int_part 0
                        else (int_part, O, s2)
                    | EmptyString => (int_part, O, s2)
                    end in
                  let m := if neg : bool then (- mantissa)%Z else mantissa in
                  Some (Qred (Qmake m (Z.to_pos (10 ^ Z.of_nat n_frac))), s3)
              end) = Some (q, EmptyString) ->
             (let '(int_part, n_int, s2) := take_digits (t1 ++ rest) 0 0 in
              match n_int with
              | O => None
              | S _ =>
                  let '(mantissa, n_frac, s3) :=
                    match s2 with
                    | String c s' =>
                        if Ascii.eqb c "." then take_digits s' int_part 0
                        else (int_part, O, s2)
                    | EmptyString => (int_part, O, s2)
                    end in
                  let m := if neg : bool then (- mantissa)%Z else mantissa in
                  Some (Qred (Qmake m (Z.to_pos (10 ^ Z.of_nat n_frac))), s3)
              end) = Some (q, rest)).
  { intros neg t1. rewrite (take_digits_app t1 rest 0 0 Hd).
    destruct (take_digits t1 0 0) as [[a n] r].
    destruct n as [|n]; [discriminate|].
    destruct r as [|c2 r].
    - intros H. injection H as <-. cbn [append].
      destruct rest as [|c3 rest]; [reflexivity|].
      destruct (Ascii.eqb_spec c3 "."); [destruct Hrest; congruence|].
      reflexivity.
    - cbn [append]. destruct (Ascii.eqb c2 ".").
      + rewrite (take_digits_app r rest a 0 Hd).
        destruct (take_digits r a 0) as [[m nf] r'].
        intros H. injection H as <- ->. reflexivity.
      + intros H. discriminate H. }
  destruct (Ascii.eqb c "-").
  - apply (Hgo true t). exact Ht.
  - apply (Hgo false (String c t)). exact Ht.
Qed.

Lemma load_number_reduced (s rest : string) (q : Q) :
  load_number s = Some (q, rest) -> Qred q = q.
Proof.
  unfold load_number.
  destruct (match s with
            | String c s' => if Ascii.eqb c "-" then (true, s') else (false, s)
            | EmptyString => (false, s)
            end) as [neg s1].
  destruct (take_digits s1 0 0) as [[a n] s2].
  destruct n; [discriminate|].
  destruct (match s2 with
            | String c s' =>
                if Ascii.eqb c "." then take_digits s' a 0 else (a, O, s2)
            | EmptyString => (a, O, s2)
            end) as [[m nf] s3].
  intros H.
  apply (f_equal (fun o => match o with Some (x, _) => x | None => q end)) in H.
  cbv beta iota in H. rewrite <- H. apply Qred_complete, Qred_correct.
Qed.

Lemma number_head_not_space (c : ascii) :
  is_digit c || Ascii.eqb c "-" = true -> is_space c = false.
Proof. destruct c as [[] [] [] [] [] [] [] []]; cbn; congruence. Qed.

Lemma load_value_number (fuel : nat) (c : ascii) (t : string) :
  is_digit c || Ascii.eqb c "-" = true ->
  load_value (S fuel) (String c t)
  = match load_number (String c t) with
    | Some (q, rest) => Some (JNum q, rest)
    | None => None
    end.
Proof.
  intros Hc. cbn [load_value].
  destruct c as [[] [] [] [] [] [] [] []]; try discriminate Hc; reflexivity.
Qed.

(** A good number is read back whatever delimiter follows it. *)
Lemma load_value_number_ok (fuel : nat) (q : Q) (rest : string) :
  number_ok q = true ->
  delimited rest ->
  exists c t,
    dump_number q = String c t /\ is_space c = false /\
    load_value (S fuel) (dump_number q ++ rest) = Some (JNum (Qred q), rest).
Proof.
  unfold number_ok. intros Hok Hrest.
  destruct (dump_number q) as [|c t] eqn:Hd; [discriminate Hok|].
  apply andb_true_iff in Hok. destruct Hok as [Hc Hload].
  destruct (load_number (String c t)) as [[q' [|]]|] eqn:Hq;
    try discriminate Hload.
  apply Qeq_bool_iff in Hload.
  assert (Hq' : q' = Qred q).
  { rewrite <- (load_number_reduced _ _ _ Hq). apply Qred_complete.
    exact Hload. }
  subst q'. exists c, t. split; [reflexivity|].
  split; [exact (number_head_not_space c Hc)|].
  cbn [append]. rewrite (load_value_number fuel c (t ++ rest) Hc).
  change (String c (t ++ rest)) with (String c t ++ rest).
  rewrite (load_number_app _ _ _ Hq Hrest). reflexivity.
Qed.

Lemma skip_spaces_nonspace (c : ascii) (s : string) :
  is_space c = false -> skip_spaces (String c s) = String c s.
Proof. intros H. cbn [skip_spaces]. rewrite H. reflexivity. Qed.

Lemma dict_set_fresh (acc : dict) (k : string) (v : json) :
  ~ In k (map fst acc) -> dict_set acc k v = (acc ++ [(k, v)])%list.
Proof.
  induction acc as [|[k' v'] acc IH]; intros Hk; [reflexivity|].
  cbn [dict_set app]. cbn [map fst In] in Hk.
  destruct (String.eqb_spec k' k) as [->|Hne]; [tauto|].
  rewrite IH; [reflexivity | tauto].
Qed.

Lemma render_members_head (m : dict) (tail : string) :
  m <> [] -> exists t, render_members m tail = String dquote t.
Proof.
  destruct m as [|[k v] m]; [congruence|]. intros _.
  cbn [render_members]. eauto.
Qed.

Lemma length_render_members (m : dict) (tail : string) :
  (List.length m <= String.length (render_members m tail))%nat.
Proof.
  induction m as [|[k v] m IH]; [apply Nat.le_0_l|].
  cbn [render_members List.length String.length].
  rewrite !length_append'. cbn [String.length].
  rewrite !length_append'.
  destruct m as [|kv m]; [cbn [List.length]; lia|].
  cbn [String.length]. lia.
Qed.

(** The members written by the encoder are read back in order. *)
Lemma load_members_render (fuel : nat) (m : dict) :
  forall (n : nat) (acc : dict) (tail : string),
    m <> [] ->
    (List.length m <= n)%nat ->
    Forall (fun kv => exists q, snd kv = JNum q /\ number_ok q = true) m ->
    NoDup (map fst (acc ++ m)%list) ->
    load_members (load_value (S fuel)) n acc
                 (render_members m (String newline (String "}" tail)))
    = Some ((acc ++ lowest_terms m)%list, tail).
Proof.
  induction m as [|[k v] m IH]; intros n acc tail Hne Hn Hok Hnd;
    [congruence|].
  destruct n as [|n]; [cbn in Hn; lia|].
  cbn [List.length] in Hn. apply le_S_n in Hn.
  inversion Hok as [|? ? [q [Hv Hq]] Hok']; subst. cbn [snd] in Hv. subst v.
  assert (Hfresh : ~ In k (map fst acc)).
  { rewrite map_app in Hnd. cbn [map fst] in Hnd.
    apply NoDup_remove_2 in Hnd. intros Hin. apply Hnd.
    apply in_or_app. auto. }
  assert (Hnd' : NoDup (map fst ((acc ++ [(k, JNum (Qred q))]) ++ m)%list)).
  { rewrite <- app_assoc. rewrite !map_app in *. exact Hnd. }
  cbn [render_members dump_value].
  set (R := match m with
            | [] => String newline (String "}" tail)
            | _ :: _ =>
                String "," (String newline
                  (String " " (String " "
                     (render_members m (String newline (String "}" tail))))))
            end).
  assert (HR : delimited R).
  { unfold R. destruct m; cbn; split; (reflexivity || discriminate). }
  destruct (load_value_number_ok fuel q R Hq HR) as [c [t [Hd [Hc Hload]]]].
  cbn [load_members].
  change (Ascii.eqb dquote dquote) with true. cbv iota.
  rewrite load_string_escape.
  2:{ rewrite length_append'. pose proof (length_escape k).
      cbn [String.length]. lia. }
  cbn [append].
  rewrite (skip_spaces_nonspace ":" _ eq_refl).
  change (Ascii.eqb ":" ":") with true. cbv iota.
  change (skip_spaces (String " " (dump_number q ++ R)))
    with (skip_spaces (dump_number q ++ R)).
  rewrite Hd. cbn [append]. rewrite (skip_spaces_nonspace c _ Hc).
  change (String c (t ++ R)) with (String c t ++ R). rewrite <- Hd, Hload.
  rewrite (dict_set_fresh acc k (JNum (Qred q)) Hfresh).
  cbn [lowest_terms map].
  unfold R. destruct m as [|kv m].
  - change (skip_spaces (String newline (String "}" tail)))
      with (String "}" tail).
    change (Ascii.eqb "}" ",") with false.
    change (Ascii.eqb "}" "}") with true. cbv iota. reflexivity.
  - rewrite (skip_spaces_nonspace "," _ eq_refl).
    change (Ascii.eqb "," ",") with true. cbv iota.
    destruct (render_members_head (kv :: m) (String newline (String "}" tail)))
      as [t' Ht']; [discriminate|].
    change (skip_spaces
              (String newline
                 (String " " (String " "
                    (render_members (kv :: m)
                                    (String newline (String "}" tail)))))))
      with (skip_spaces (render_members (kv :: m)
                                        (String newline (String "}" tail)))).
    rewrite Ht', (skip_spaces_nonspace dquote _ eq_refl), <- Ht'.
    rewrite (IH n (acc ++ [(k, JNum (Qred q))])%list tail);
      [rewrite <- app_assoc; reflexivity | discriminate | exact Hn
       | exact Hok' | exact Hnd'].
Qed.

Lemma join_cons2 (sep a b : string) (l : list string) :
  join sep (a :: b :: l) = a ++ sep ++ join sep (b :: l).
Proof. reflexivity. Qed.

Lemma join_render (m : dict) (tail : string) :
  m <> [] ->
  join (String "," (String newline (String " " (String " " EmptyString))))
       (map (fun '(k, v) => dump_string k ++ ": " ++ dump_value 1 v) m)
  ++ tail
  = render_members m tail.
Proof.
  induction m as [|[k v] m IH]; [congruence|]. intros _.
  destruct m as [|kv m].
  - cbn [map join render_members]. unfold dump_string.
    cbn [append]. rewrite !append_assoc'. reflexivity.
  - specialize (IH ltac:(discriminate)).
    change (render_members ((k, v) :: kv :: m) tail)
      with (String dquote
              (escape k
               ++ String dquote
                    (": " ++ dump_value 1 v
                     ++ String "," (String newline (String " " (String " "
                          (render_members (kv :: m) tail))))))).
    rewrite <- IH.
    set (rest := map _ (kv :: m)).
    change (map (fun '(k0, v0) => dump_string k0 ++ ": " ++ dump_value 1 v0)
                ((k, v) :: kv :: m))
      with ((dump_string k ++ ": " ++ dump_value 1 v) :: rest).
    assert (Hrest : exists x l, rest = x :: l) by (unfold rest; cbn; eauto).
    destruct Hrest as [x [l Hxl]]. rewrite Hxl, join_cons2, <- Hxl.
    unfold dump_string.
    cbn [append]. rewrite !append_assoc'.
    cbn [append]. rewrite ?append_assoc'. reflexivity.
Qed.

Lemma load_value_object (fuel : nat) (s' : string) :
  load_value (S fuel) (String "{" s')
  = match skip_spaces s' with
    | EmptyString => None
    | String c1 rest as s1 =>
        if Ascii.eqb c1 "}" then Some (JObj [], rest)
        else match load_members (load_value fuel)
                                (String.length (String "{" s')) [] s1 with
             | Some (kv, rest') => Some (JObj kv, rest')
             | None => None
             end
    end.
Proof. reflexivity. Qed.

(** The reference codec reads back every schedule it writes, the numbers
    in lowest terms. *)
Lemma reference_codec_round_trip (m : dict) :
  schedule_ok m -> loads (dumps (JObj m)) = Some (JObj (lowest_terms m)).
Proof.
  intros [Hnd Hdec].
  assert (Hok : Forall (fun kv => exists q, snd kv = JNum q
                                            /\ number_ok q = true) m).
  { eapply Forall_impl; [|exact Hdec].
    intros kv [q [Hq Hd]]. exists q. split; [exact Hq|].
    apply number_ok_decimal. exact Hd. }
  clear Hdec. destruct m as [|kv m]; [reflexivity|].
  set (text := render_members (kv :: m) (String newline (String "}" EmptyString))).
  assert (Hd : dumps (JObj (kv :: m))
               = String "{" (String newline (String " " (String " " text)))).
  { unfold dumps. cbn [dump_value].
    change (2 * 1)%nat with 2%nat. change (2 * 0)%nat with 0%nat.
    cbn [spaces append].
    rewrite (join_render (kv :: m)) by discriminate.
    reflexivity. }
  destruct (render_members_head (kv :: m) (String newline (String "}" EmptyString)))
    as [t Ht]; [discriminate|]. fold text in Ht.
  assert (Hlen : (List.length (kv :: m) <= String.length text)%nat)
    by apply length_render_members.
  rewrite Hd. unfold loads.
  rewrite (skip_spaces_nonspace "{" _ eq_refl).
  cbn [String.length].
  rewrite load_value_object.
  change (skip_spaces (String newline (String " " (String " " text))))
    with (skip_spaces text).
  rewrite Ht, (skip_spaces_nonspace dquote _ eq_refl).
  change (Ascii.eqb dquote "}") with false. cbv iota. rewrite <- Ht.
  unfold text in *.
  rewrite (load_members_render _ (kv :: m) _ [] EmptyString);
    [reflexivity | discriminate | | exact Hok | exact Hnd].
  cbn [String.length]. lia.
Qed.

End CodecRoundTrip.

Lemma lowest_terms_equal (m : dict) :
  Forall (fun kv => exists q, snd kv = JNum q /\ terminating q) m ->
  map fst (lowest_terms m) = map fst m /\
  Forall2 (fun v' v => exists q' q, v' = JNum q' /\ v = JNum q /\ q' == q)
          (map snd (lowest_terms m)) (map snd m).
Proof.
  induction 1 as [|[k v] m [q [Hv _]] _ [IHk IHv]]; [split; constructor|].
  cbn [snd] in Hv. subst v. cbn [lowest_terms map fst snd]. split.
  - f_equal. exact IHk.
  - constructor; [|exact IHv].
    exists (Qred q), q. repeat split. apply Qred_correct.
Qed.

(** C9: with a writable and readable store, loading after saving returns
    the mapping that was saved whenever [json.load] decodes the text that
    [json.dump] wrote for it; with the reference codec this is so for every
    mapping from distinct group ids to timestamps with a finite decimal
    expansion (every binary fraction has one), which come back as the same
    numbers, in lowest terms; [{"1001": 1700000000.0}] in particular. *)
Theorem schedule_round_trip :
  (forall w (m : dict) s,
      fs_writable w = true ->
      fs_readable w = true ->
      json_load w (json_dump w (JObj m)) = Some (JObj m) ->
      fst (_load_schedule w (snd (_save_schedule w (JObj m) s)))
      = Ok (JObj m)) /\
  (forall w (m : dict) s,
      json_dump w = Codec.dumps ->
      json_load w = Codec.loads ->
      fs_writable w = true ->
      fs_readable w = true ->
      schedule_ok m ->
      fst (_load_schedule w (snd (_save_schedule w (JObj m) s)))
      = Ok (JObj (lowest_terms m)) /\
      map fst (lowest_terms m) = map fst m /\
      Forall2 (fun v' v => exists q' q, v' = JNum q' /\ v = JNum q /\ q' == q)
              (map snd (lowest_terms m)) (map snd m)) /\
  (forall n (k : nat), terminating (Qmake n (Z.to_pos (2 ^ Z.of_nat k)))) /\
  lowest_terms example_schedule = example_schedule.
Proof.
  split; [|split; [|split; [exact dyadic_terminating | reflexivity]]].
  - intros w m s Hw Hr Hcodec.
    unfold _save_schedule, _load_schedule. rewrite Hw.
    cbn [snd schedule_file set_file]. rewrite Hr, Hcodec. reflexivity.
  - intros w m s Hdump Hload Hw Hr Hok.
    split; [|exact (lowest_terms_equal m (proj2 Hok))].
    unfold _save_schedule, _load_schedule. rewrite Hw.
    cbn [snd schedule_file set_file].
    rewrite Hr, Hdump, Hload, (reference_codec_round_trip m Hok).
    reflexivity.
Qed.

Lemma schedule_round_trip_witness :
  schedule_file (snd (_save_schedule admin_world (JObj example_schedule)
                                     initial_state))
  = Some (String "{" (String Codec.newline
            (String " " (String " " (String Codec.dquote
               ("1001" ++ String Codec.dquote
                  (": 1700000000.0" ++ String Codec.newline "}")))))))%string /\
  fst (_load_schedule admin_world
         (snd (_save_schedule admin_world (JObj example_schedule)
                              initial_state)))
  = Ok (JObj [("1001", JNum 1700000000)]) /\
  fst (_load_schedule admin_world
         (snd (_save_schedule admin_world (JObj two_groups_schedule)
                              initial_state)))
  = Ok (JObj (lowest_terms two_groups_schedule)).
Proof.
  split; [vm_compute; reflexivity|]. split.
  - apply (proj1 schedule_round_trip admin_world example_schedule
                 initial_state).
    + reflexivity.
    + reflexivity.
    + vm_compute. reflexivity.
  - apply (proj1 (proj2 schedule_round_trip) admin_world two_groups_schedule
                 initial_state).
    + reflexivity.
    + reflexivity.
    + reflexivity.
    + reflexivity.
    + split.
      * repeat constructor; simpl; intuition discriminate.
      * repeat constructor; eexists; (split; [reflexivity|]);
          reflexivity.
Defined.


Lemma loop_body_extends w cfg g c s :
  exists s1 evs1,
    loop_body w cfg g c s = (Ok tt, s1) /\ trace s1 = trace s ++ evs1.
Proof.
  destruct (loop_body_run w cfg g c s)
    as [Hrun | [Hrun | [d [s2 [evs2 [_ [Htr2 [_ Hrun]]]]]]]];
    cbv zeta in Hrun; rewrite Hrun; eexists; eexists;
      (split; [reflexivity|]).
  - cbn [trace log next_tick]. reflexivity.
  - cbn [trace log next_tick]. reflexivity.
  - destruct (fs_writable w); cbn [trace log set_file next_draw];
      rewrite Htr2, <- !app_assoc; reflexivity.
Qed.

(** The loop never ends by an exception. *)
Lemma schedule_task_never_raises n w cfg g c s :
  fst (_schedule_task n w cfg g c s) = Ok tt.
Proof.
  revert s. induction n as [|n IH]; intros s; [reflexivity|].
  cbn [_schedule_task]. rewrite bind_run.
  destruct (loop_body_extends w cfg g c s) as [s1 [evs1 [-> _]]].
  apply IH.
Qed.



(** C10: the schedule a pass writes is the one it loaded with the current
    group's entry set to the new [next_run]: every other key looks up to
    what it did in the loaded mapping, and the keys keep their order (the
    group's key being added last when it was missing). *)
Theorem reschedule_frame w cfg g c s evs saved :
  trace (snd (loop_body w cfg g c s)) = trace s ++ evs ->
  In (EvSaveSchedule saved) evs ->
  exists loaded written next_run,
    fst (_load_schedule w s) = Ok (JObj loaded) /\
    saved = JObj written /\
    dict_lookup written g = Some (JNum next_run) /\
    (forall k, k <> g -> dict_lookup written k = dict_lookup loaded k) /\
    map fst written
    = if existsb (String.eqb g) (map fst loaded) then map fst loaded
      else map fst loaded ++ [g].
Proof.
  intros Htr Hin.
  destruct (loop_body_saves w cfg g c s evs saved Htr Hin)
    as [d [k [Hload [-> _]]]].
  unfold rescheduled.
  exists d. eexists. eexists. split; [exact Hload|].
  split; [reflexivity|].
  split; [apply dict_lookup_set_same|].
  split; [intros k0 Hk0; apply dict_lookup_set_other; exact Hk0|].
  apply dict_set_keys.
Qed.

Lemma reschedule_frame_witness :
  exists loaded written next_run,
    fst (_load_schedule admin_world two_groups_state) = Ok (JObj loaded) /\
    JObj [("1001", JNum (15312465714480905872998400 # 9007199254740992));
          ("2002", JNum 1800000000)]
    = JObj written /\
    dict_lookup written "1001" = Some (JNum next_run) /\
    (forall k, k <> "1001"%string ->
               dict_lookup written k = dict_lookup loaded k) /\
    map fst written
    = if existsb (String.eqb "1001") (map fst loaded) then map fst loaded
      else map fst loaded ++ ["1001"%string].
Proof.
  apply (reschedule_frame
           admin_world example_config "1001" "chat" two_groups_state
           (admin_pass_events
              (JObj [("1001", JNum (15312465714480905872998400
                                    # 9007199254740992));
                     ("2002", JNum 1800000000)]))).
  - vm_compute. reflexivity.
  - simpl. auto 20.
Defined.

(** * Further properties of the code *)
(** ** The activity ranking *)

Lemma count_messages_senders (ms : list message) (acc : list (string * nat)) :
  fold_left
    (fun counts msg =>
       match user_info msg with
       | Some ui => if String.eqb (user_id ui) "" then counts
                    else count_incr counts (user_id ui)
       | None => counts
       end) ms acc
  = fold_left count_incr (senders ms) acc.
Proof.
  revert acc. induction ms as [|m ms IH]; intros acc; [reflexivity|].
  cbn [fold_left senders flat_map]. rewrite fold_left_app, IH.
  destruct (user_info m) as [ui|]; [|reflexivity].
  destruct (String.eqb (user_id ui) ""); reflexivity.
Qed.

Lemma count_of_incr (cs : list (string * nat)) (u v : string) :
  count_of (count_incr cs u) v
  = if String.eqb u v then S (count_of cs v) else count_of cs v.
Proof.
  induction cs as [|[k c] cs IH]; cbn [count_incr count_of].
  - destruct (String.eqb u v); reflexivity.
  - destruct (String.eqb_spec k u) as [->|Hku]; cbn [count_of].
    + destruct (String.eqb u v); reflexivity.
    + destruct (String.eqb_spec k v) as [->|Hkv]; [|exact IH].
      destruct (String.eqb_spec u v); congruence.
Qed.

Lemma keys_incr (cs : list (string * nat)) (u : string) :
  map fst (count_incr cs u)
  = if existsb (String.eqb u) (map fst cs) then map fst cs
    else map fst cs ++ [u].
Proof.
  induction cs as [|[k c] cs IH]; cbn [count_incr map fst existsb];
    [reflexivity|].
  rewrite (String.eqb_sym u k).
  destruct (String.eqb k u); cbn [map fst orb]; [reflexivity|].
  rewrite IH. destruct (existsb _ _); reflexivity.
Qed.

Lemma existsb_eqb_In (u : string) (l : list string) :
  existsb (String.eqb u) l = true <-> In u l.
Proof.
  rewrite existsb_exists. split.
  - intros [x [Hin Heq]]. apply String.eqb_eq in Heq. congruence.
  - intros Hin. exists u. split; [exact Hin | apply String.eqb_refl].
Qed.

Lemma count_of_fold (l : list string) (acc : list (string * nat)) (u : string) :
  count_of (fold_left count_incr l acc) u
  = (count_of acc u + count_occ string_dec l u)%nat.
Proof.
  revert acc. induction l as [|x l IH]; intros acc; cbn [fold_left count_occ];
    [lia|].
  rewrite IH, count_of_incr.
  destruct (String.eqb_spec x u) as [->|Hne];
    destruct (string_dec _ u); try congruence; lia.
Qed.

Lemma keys_fold_NoDup (l : list string) (acc : list (string * nat)) :
  NoDup (map fst acc) -> NoDup (map fst (fold_left count_incr l acc)).
Proof.
  revert acc. induction l as [|x l IH]; intros acc Hnd; [exact Hnd|].
  cbn [fold_left]. apply IH. rewrite keys_incr.
  destruct (existsb (String.eqb x) (map fst acc)) eqn:E; [exact Hnd|].
  apply NoDup_app; [exact Hnd | repeat constructor; intros [] |].
  intros y Hy [<-|[]].
  apply existsb_eqb_In in Hy. congruence.
Qed.

Lemma keys_fold_In (l : list string) (acc : list (string * nat)) (u : string) :
  In u (map fst (fold_left count_incr l acc)) <-> In u (map fst acc) \/ In u l.
Proof.
  revert acc. induction l as [|x l IH]; intros acc; cbn [fold_left In];
    [tauto|].
  rewrite IH, keys_incr.
  destruct (existsb (String.eqb x) (map fst acc)) eqn:E.
  - apply existsb_eqb_In in E. split; [tauto|].
    intros [H | [<- | H]]; auto.
  - rewrite in_app_iff. cbn [In]. tauto.
Qed.

Lemma count_of_entry (cs : list (string * nat)) (u : string) (c : nat) :
  NoDup (map fst cs) -> In (u, c) cs -> count_of cs u = c.
Proof.
  induction cs as [|[k c'] cs IH]; intros Hnd Hin; [destruct Hin|].
  cbn [map fst] in Hnd. inversion Hnd as [|? ? Hk Hnd']; subst.
  cbn [count_of]. destruct Hin as [Heq | Hin].
  - injection Heq as -> ->. rewrite String.eqb_refl. reflexivity.
  - destruct (String.eqb_spec k u) as [->|Hne]; [|auto].
    exfalso. apply Hk. change u with (fst (u, c)). apply in_map. exact Hin.
Qed.

Lemma senders_In (ms : list message) (u : string) :
  In u (senders ms)
  <-> u <> "" /\ In (mkMessage (Some (mkUserInfo u))) ms.
Proof.
  unfold senders. rewrite in_flat_map. split.
  - intros [[[[id]|]] [Hin Hu]]; cbn [user_info user_id] in Hu;
      [|destruct Hu].
    destruct (String.eqb_spec id ""); [destruct Hu|].
    destruct Hu as [<-|[]]. auto.
  - intros [Hne Hin]. eexists; split; [exact Hin|].
    cbn [user_info user_id]. destruct (String.eqb_spec u ""); [congruence|].
    left; reflexivity.
Qed.

Lemma senders_count (ms : list message) (u : string) :
  u <> "" -> count_occ string_dec (senders ms) u = messages_by u ms.
Proof.
  intros Hne. unfold messages_by, senders.
  induction ms as [|[[[id]|]] ms IH]; cbn [flat_map filter user_info user_id];
    [reflexivity| |exact IH].
  rewrite count_occ_app, IH.
  destruct (String.eqb_spec id "") as [->|Hid].
  - destruct (String.eqb_spec "" u); [congruence | reflexivity].
  - cbn [count_occ]. destruct (string_dec id u) as [->|Hne'].
    + rewrite String.eqb_refl. reflexivity.
    + destruct (String.eqb_spec id u); [congruence | reflexivity].
Qed.

Lemma filter_filter_and {A} (p q : A -> bool) (l : list A) :
  filter p (filter q l) = filter (fun x => q x && p x) l.
Proof.
  induction l as [|x l IH]; [reflexivity|]. cbn [filter].
  destruct (q x); cbn [filter andb]; [|exact IH].
  destruct (p x); rewrite IH; reflexivity.
Qed.

Lemma filter_map_fst {B} (p : string -> bool) (l : list (string * B)) :
  filter p (map fst l) = map fst (filter (fun e => p (fst e)) l).
Proof.
  induction l as [|e l IH]; [reflexivity|]. cbn [map filter].
  destruct (p (fst e)); cbn [map]; rewrite IH; reflexivity.
Qed.

Lemma filter_all {A} (p : A -> bool) (l : list A) :
  (forall x, In x l -> p x = true) -> filter p l = l.
Proof.
  induction l as [|x l IH]; intros H; [reflexivity|]. cbn [filter].
  rewrite (H x (or_introl eq_refl)), IH; [reflexivity|].
  intros y Hy. apply H. right; exact Hy.
Qed.

(** The keys of the counts are the senders in the order of their first
    message. *)
Lemma keys_fold_first_seen (l : list string) (acc : list (string * nat)) :
  map fst (fold_left count_incr l acc)
  = map fst acc
    ++ filter (fun y => negb (existsb (String.eqb y) (map fst acc)))
              (first_seen l).
Proof.
  revert acc. induction l as [|x l IH]; intros acc;
    cbn [fold_left first_seen filter]; [rewrite app_nil_r; reflexivity|].
  rewrite IH, keys_incr.
  destruct (existsb (String.eqb x) (map fst acc)) eqn:E; cbn [negb].
  - f_equal. rewrite filter_filter_and. apply filter_ext. intros y.
    destruct (String.eqb_spec x y) as [<-|Hne]; cbn [negb andb];
      [rewrite E|]; reflexivity.
  - rewrite <- app_assoc. cbn [app]. do 2 f_equal.
    rewrite filter_filter_and. apply filter_ext. intros y.
    rewrite existsb_app. cbn [existsb].
    rewrite orb_false_r, (String.eqb_sym y x).
    destruct (String.eqb x y), (existsb (String.eqb y) (map fst acc));
      reflexivity.
Qed.

Lemma count_messages_keys (ms : list message) :
  map fst (count_messages ms) = first_seen (senders ms).
Proof.
  unfold count_messages. rewrite count_messages_senders, keys_fold_first_seen.
  cbn [map app existsb negb]. apply filter_all. reflexivity.
Qed.

Lemma count_messages_NoDup (ms : list message) :
  NoDup (map fst (count_messages ms)).
Proof.
  unfold count_messages. rewrite count_messages_senders.
  apply keys_fold_NoDup. constructor.
Qed.

Lemma count_messages_In (ms : list message) (u : string) :
  In u (map fst (count_messages ms)) <-> In u (senders ms).
Proof.
  unfold count_messages. rewrite count_messages_senders, keys_fold_In.
  cbn [map In]. tauto.
Qed.

(** Every recorded count is the number of messages of its user. *)
Lemma count_messages_entry (ms : list message) (u : string) (c : nat) :
  In (u, c) (count_messages ms) -> u <> "" /\ c = messages_by u ms.
Proof.
  intros Hin.
  assert (Hu : In u (senders ms)).
  { apply count_messages_In. change u with (fst (u, c)). apply in_map.
    exact Hin. }
  apply senders_In in Hu. destruct Hu as [Hne _]. split; [exact Hne|].
  rewrite <- (count_of_entry _ _ _ (count_messages_NoDup ms) Hin).
  unfold count_messages. rewrite count_messages_senders, count_of_fold.
  cbn [count_of]. apply senders_count. exact Hne.
Qed.

Lemma insert_desc_perm (x : string * nat) (l : list (string * nat)) :
  Permutation (insert_desc x l) (x :: l).
Proof.
  induction l as [|y l IH]; cbn [insert_desc]; [reflexivity|].
  destruct (snd x <? snd y)%nat; [|reflexivity].
  rewrite IH. apply perm_swap.
Qed.

Lemma sorted_desc_perm (l : list (string * nat)) :
  Permutation (sorted_desc l) l.
Proof.
  induction l as [|x l IH]; [reflexivity|].
  unfold sorted_desc in *. cbn [fold_right].
  rewrite insert_desc_perm. constructor. exact IH.
Qed.

Lemma insert_desc_sorted (x : string * nat) (l : list (string * nat)) :
  StronglySorted (fun a b => (snd b <= snd a)%nat) l ->
  StronglySorted (fun a b => (snd b <= snd a)%nat) (insert_desc x l).
Proof.
  induction l as [|y l IH]; intros Hs; cbn [insert_desc].
  - repeat constructor.
  - inversion Hs as [|? ? Hs' Hall]; subst.
    destruct (Nat.ltb_spec (snd x) (snd y)) as [Hlt|Hge].
    + constructor; [apply IH; exact Hs'|].
      eapply Permutation_Forall; [symmetry; apply insert_desc_perm|].
      constructor; [lia | exact Hall].
    + constructor; [exact Hs|].
      constructor; [exact Hge|].
      eapply Forall_impl; [|exact Hall]. cbn beta. intros; lia.
Qed.

Lemma sorted_desc_sorted (l : list (string * nat)) :
  StronglySorted (fun a b => (snd b <= snd a)%nat) (sorted_desc l).
Proof.
  induction l as [|x l IH]; [constructor|].
  unfold sorted_desc in *. cbn [fold_right].
  apply insert_desc_sorted. exact IH.
Qed.

Lemma sorted_nth (l : list (string * nat)) (d : string * nat) :
  StronglySorted (fun a b => (snd b <= snd a)%nat) l ->
  forall i j, (i <= j < List.length l)%nat ->
              (snd (nth j l d) <= snd (nth i l d))%nat.
Proof.
  induction 1 as [|a l Hs IH Hall]; intros i j Hij; cbn [List.length] in Hij;
    [lia|].
  destruct i as [|i], j as [|j]; cbn [nth]; try lia.
  - rewrite Forall_forall in Hall. apply Hall. apply nth_In. lia.
  - apply IH. lia.
Qed.

(** The sort is stable: entries with equal counts keep their order. *)
Lemma insert_desc_stable (n : nat) (x : string * nat) (l : list (string * nat)) :
  filter (fun e => (snd e =? n)%nat) (insert_desc x l)
  = filter (fun e => (snd e =? n)%nat) (x :: l).
Proof.
  induction l as [|y l IH]; cbn [insert_desc]; [reflexivity|].
  destruct (Nat.ltb_spec (snd x) (snd y)) as [Hlt|Hge]; [|reflexivity].
  cbn [filter] in *. rewrite IH.
  destruct (Nat.eqb_spec (snd x) n) as [Hx|Hx]; [|reflexivity].
  destruct (Nat.eqb_spec (snd y) n) as [Hy|Hy]; [lia | reflexivity].
Qed.

Lemma sorted_desc_stable (n : nat) (l : list (string * nat)) :
  filter (fun e => (snd e =? n)%nat) (sorted_desc l)
  = filter (fun e => (snd e =? n)%nat) l.
Proof.
  induction l as [|x l IH]; [reflexivity|].
  unfold sorted_desc in *. cbn [fold_right].
  rewrite insert_desc_stable. cbn [filter]. rewrite IH. reflexivity.
Qed.

(** The ranking computed from the messages of the window. *)
Lemma ranking_of_messages w c s ms :
  messages_in_chat w (queries s) = Ok ms ->
  fst (rank_active_users w c s)
  = Ok (map fst (sorted_desc (count_messages ms))).
Proof.
  intros Hms. destruct (rank_active_users_run w c s) as [l [Hrun [_ Hl]]].
  rewrite Hrun. cbn [fst]. f_equal. apply Hl. exact Hms.
Qed.

(** X1: when the message store answers, the ranking lists exactly the
    users who wrote a message carrying a non-empty user id, each of them
    once; the empty id is never ranked. *)
Theorem ranking_lists_each_sender_once w c s ms :
  messages_in_chat w (queries s) = Ok ms ->
  exists l,
    fst (rank_active_users w c s) = Ok l /\
    NoDup l /\
    (forall u, In u l
               <-> u <> "" /\ In (mkMessage (Some (mkUserInfo u))) ms) /\
    (forall u, In u l -> (1 <= messages_by u ms)%nat).
Proof.
  intros Hms. eexists. split; [apply ranking_of_messages; exact Hms|].
  assert (Hperm : Permutation (map fst (sorted_desc (count_messages ms)))
                              (map fst (count_messages ms)))
    by (apply Permutation_map, sorted_desc_perm).
  assert (Hin : forall u, In u (map fst (sorted_desc (count_messages ms)))
                          <-> In u (senders ms)).
  { intros u. rewrite <- count_messages_In. split; apply Permutation_in;
      [exact Hperm | symmetry; exact Hperm]. }
  split; [|split].
  - eapply Permutation_NoDup; [symmetry; exact Hperm|].
    apply count_messages_NoDup.
  - intros u. rewrite Hin. apply senders_In.
  - intros u Hu. apply Hin in Hu.
    pose proof (proj1 (senders_In ms u) Hu) as [Hne _].
    rewrite <- senders_count by exact Hne.
    apply (count_occ_In string_dec) in Hu. lia.
Qed.

Lemma ranking_lists_each_sender_once_witness :
  exists l,
    fst (rank_active_users admin_world "chat" initial_state) = Ok l /\
    NoDup l /\
    (forall u, In u l
               <-> u <> "" /\
                   In (mkMessage (Some (mkUserInfo u))) example_messages) /\
    (forall u, In u l -> (1 <= messages_by u example_messages)%nat).
Proof.
  apply (ranking_lists_each_sender_once admin_world "chat" initial_state
                                        example_messages).
  reflexivity.
Defined.

(** X2: the ranking is in non-increasing order of message count: a user
    never ranks before one who wrote more messages in the window. *)
Theorem ranking_is_by_message_count w c s ms l :
  messages_in_chat w (queries s) = Ok ms ->
  fst (rank_active_users w c s) = Ok l ->
  forall i j, (i <= j < List.length l)%nat ->
              (messages_by (nth j l "") ms <= messages_by (nth i l "") ms)%nat.
Proof.
  intros Hms Hl i j Hij.
  rewrite (ranking_of_messages w c s ms Hms) in Hl. injection Hl as <-.
  rewrite length_map in Hij.
  set (sorted := sorted_desc (count_messages ms)) in *.
  assert (Hcount : forall k, (k < List.length sorted)%nat ->
                             messages_by (nth k (map fst sorted) "") ms
                             = snd (nth k sorted ("", 0%nat))).
  { intros k Hk. change "" with (fst ("", 0%nat)) at 1. rewrite map_nth.
    pose proof (nth_In sorted ("", 0%nat) Hk) as Hin.
    destruct (nth k sorted ("", 0%nat)) as [u n] eqn:E.
    eapply Permutation_in in Hin; [|apply sorted_desc_perm].
    apply count_messages_entry in Hin. cbn [fst snd]. symmetry. apply Hin. }
  rewrite !Hcount by lia.
  apply sorted_nth; [apply sorted_desc_sorted | exact Hij].
Qed.

Lemma ranking_is_by_message_count_witness :
  (messages_by (nth 2 ["C"; "A"; "B"] "") example_messages
   <= messages_by (nth 0 ["C"; "A"; "B"] "") example_messages)%nat.
Proof.
  apply (ranking_is_by_message_count admin_world "chat" initial_state
                                     example_messages ["C"; "A"; "B"]
                                     eq_refl eq_refl 0%nat 2%nat).
  simpl. lia.
Defined.

(** X3: users with the same message count are ranked in the order of
    their first message in the window. *)
Theorem ranking_breaks_ties_by_first_message w c s ms l :
  messages_in_chat w (queries s) = Ok ms ->
  fst (rank_active_users w c s) = Ok l ->
  forall n,
    filter (fun u => (messages_by u ms =? n)%nat) l
    = filter (fun u => (messages_by u ms =? n)%nat) (first_seen (senders ms)).
Proof.
  intros Hms Hl n.
  rewrite (ranking_of_messages w c s ms Hms) in Hl. injection Hl as <-.
  rewrite <- count_messages_keys, !filter_map_fst. f_equal.
  assert (Hext : forall l',
             (forall e, In e l' -> In e (count_messages ms)) ->
             filter (fun e => (messages_by (fst e) ms =? n)%nat) l'
             = filter (fun e => (snd e =? n)%nat) l').
  { intros l' Hsub. apply filter_ext_in. intros [u k] Hin.
    apply Hsub, count_messages_entry in Hin. cbn [fst snd].
    destruct Hin as [_ ->]. reflexivity. }
  rewrite !Hext; [apply sorted_desc_stable | auto |].
  intros e. apply Permutation_in, sorted_desc_perm.
Qed.

Lemma ranking_breaks_ties_by_first_message_witness :
  filter (fun u => (messages_by u (messages_of ["B"; "A"; "C"; "A"; "B"])
                    =? 2)%nat) ["B"; "A"; "C"]
  = filter (fun u => (messages_by u (messages_of ["B"; "A"; "C"; "A"; "B"])
                      =? 2)%nat)
           (first_seen (senders (messages_of ["B"; "A"; "C"; "A"; "B"]))).
Proof.
  apply (ranking_breaks_ties_by_first_message
           (example_world [] (Ok (messages_of ["B"; "A"; "C"; "A"; "B"])))
           "chat" initial_state
           (messages_of ["B"; "A"; "C"; "A"; "B"]) ["B"; "A"; "C"]
           eq_refl eq_refl 2%nat).
Defined.

(** ** Selection at the edges of the rate *)




Lemma select_target_many w cfg ranked s :
  (2 <= List.length ranked)%nat ->
  select_target w cfg ranked s
  = try_except
      (random_value <- random_expovariate w (lambda_param cfg) ;;
       lift (py_index ranked
               (Z.min (py_int (random_value
                               * inject_Z (Z.of_nat (List.length ranked))))
                      (Z.of_nat (List.length ranked) - 1))))
      (fun _ => random_choice w ranked) s.
Proof.
  intros Hlen. unfold select_target.
  replace (List.length ranked =? 1)%nat with false
    by (symmetry; apply Nat.eqb_neq; lia).
  reflexivity.
Qed.

Lemma random_choice_nth {A} (w : world) (l : list A) (s : state) :
  l <> [] ->
  exists u,
    random_choice w l s = (Ok u, next_draw (log (EvChoice (List.length l)) s)) /\
    nth_error l (randbelow w (draws s) (List.length l) mod List.length l)
    = Some u.
Proof.
  intros Hne. destruct l as [|x l']; [congruence|].
  destruct (random_choice_spec w (x :: l') s x Hne) as [Hk Hrun].
  eexists. split; [exact Hrun|].
  apply nth_error_nth'. exact Hk.
Qed.

(** X4: with two or more candidates and a rate of zero, drawing the
    exponential sample fails on the division and the target is the one
    [random.choice] picks: two draws are consumed and no exception leaves
    the selection. *)
Theorem select_target_zero_rate_falls_back w cfg ranked s :
  (2 <= List.length ranked)%nat ->
  lambda_param cfg == 0 ->
  let n := List.length ranked in
  let s1 := next_draw (log (EvExpovariate (lambda_param cfg)) s) in
  exists u,
    select_target w cfg ranked s = (Ok u, next_draw (log (EvChoice n) s1)) /\
    nth_error ranked (randbelow w (S (draws s)) n mod n) = Some u.
Proof.
  intros Hlen Hzero n s1.
  rewrite (select_target_many w cfg ranked s Hlen).
  unfold try_except, bind, random_expovariate.
  apply Qeq_bool_iff in Hzero. rewrite Hzero.
  apply (random_choice_nth w ranked s1).
  destruct ranked; [cbn in Hlen; lia | discriminate].
Qed.

Lemma select_target_zero_rate_falls_back_witness :
  exists u,
    select_target (drawing_world 1) (config_with_rate 0) ["C"; "A"; "B"]
                  initial_state
    = (Ok u, next_draw (log (EvChoice 3)
                            (next_draw (log (EvExpovariate 0) initial_state))))
    /\ nth_error ["C"; "A"; "B"] 2 = Some u.
Proof.
  apply (select_target_zero_rate_falls_back
           (drawing_world 1) (config_with_rate 0) ["C"; "A"; "B"]
           initial_state).
  - simpl. lia.
  - reflexivity.
Defined.






(** ** The requests of a cycle *)

Lemma action_sequence_requests w cfg g t s act :
  trace (snd (action_sequence w cfg g t s)) = trace s ++ act ->
  exists tcard ncard k,
    (2 <= k <= 5)%nat /\
    filter is_post act
    = firstn k [poke_event cfg g t; member_info_event cfg g t;
                member_info_event cfg g (bot_qq cfg);
                set_card_event cfg g (bot_qq cfg) tcard;
                set_card_event cfg g t ncard].
Proof.
  revert act.
  run_action w cfg g t s H; intros act; got_events act;
    first
      [ exists JNull, JNull, 2%nat; split; [lia | reflexivity]
      | exists JNull, JNull, 3%nat; split; [lia | reflexivity]
      | eexists; exists JNull, 4%nat; split; [lia | reflexivity]
      | do 2 eexists; exists 5%nat; split; [lia | reflexivity] ].
Qed.

Lemma filter_no_post (pre : list event) :
  Forall (fun e => is_post e = false) pre -> filter is_post pre = [].
Proof.
  induction 1 as [|e pre He _ IH]; [reflexivity|].
  cbn [filter]. rewrite He. exact IH.
Qed.

(** X7: the requests of a cycle are an initial part of one fixed
    sequence: poke the target, fetch the target's member info, fetch the
    bot's, set the bot's card, set the target's card.  A cycle sends no
    request at all, or between two and five of them in this order, all for
    the group of the cycle, and the target is a ranked user. *)
Theorem cycle_request_order w cfg g c s evs :
  trace (snd (_execute_duoshe w cfg g c s)) = trace s ++ evs ->
  filter is_post evs = [] \/
  exists l t tcard ncard k,
    fst (rank_active_users w c s) = Ok l /\ In t l /\
    (2 <= k <= 5)%nat /\
    filter is_post evs
    = firstn k [poke_event cfg g t; member_info_event cfg g t;
                member_info_event cfg g (bot_qq cfg);
                set_card_event cfg g (bot_qq cfg) tcard;
                set_card_event cfg g t ncard].
Proof.
  intros Htr.
  destruct (execute_duoshe_events w cfg g c s evs Htr)
    as [pre [Hnp [[-> _] | [l [t [s1 [act [Hl [Hin [_ [Hact [_ ->]]]]]]]]]]]].
  - left. apply filter_no_post. exact Hnp.
  - right.
    destruct (action_sequence_requests w cfg g t s1 act Hact)
      as [tcard [ncard [k [Hk Hreq]]]].
    exists l, t, tcard, ncard, k. repeat (split; [assumption || lia|]).
    rewrite filter_app, (filter_no_post pre Hnp). exact Hreq.
Qed.

Lemma cycle_request_order_witness :
  filter is_post
         [EvMessages "chat" (1699913600 # 1) (1700000000 # 1);
          EvExpovariate (3 # 2);
          poke_event example_config "1001" "C";
          member_info_event example_config "1001" "C";
          member_info_event example_config "1001" "42";
          set_card_event example_config "1001" "42" (JStr "Carol")] = [] \/
  exists l t tcard ncard k,
    fst (rank_active_users member_world "chat" initial_state) = Ok l /\
    In t l /\ (2 <= k <= 5)%nat /\
    filter is_post
           [EvMessages "chat" (1699913600 # 1) (1700000000 # 1);
            EvExpovariate (3 # 2);
            poke_event example_config "1001" "C";
            member_info_event example_config "1001" "C";
            member_info_event example_config "1001" "42";
            set_card_event example_config "1001" "42" (JStr "Carol")]
    = firstn k [poke_event example_config "1001" t;
                member_info_event example_config "1001" t;
                member_info_event example_config "1001"
                                  (bot_qq example_config);
                set_card_event example_config "1001"
                               (bot_qq example_config) tcard;
                set_card_event example_config "1001" t ncard].
Proof.
  apply (cycle_request_order member_world example_config "1001" "chat"
                             initial_state).
  vm_compute. reflexivity.
Defined.

Lemma ranking_ids_not_empty w c s l :
  fst (rank_active_users w c s) = Ok l -> Forall (fun u => u <> "") l.
Proof.
  destruct (rank_active_users_run w c s) as [l' [Hrun [Hraise Hok]]].
  rewrite Hrun. cbn [fst]. intros Hl. injection Hl as <-.
  destruct (messages_in_chat w (queries s)) as [ms|e].
  - rewrite (Hok ms eq_refl). apply Forall_forall. intros u Hu.
    eapply Permutation_in in Hu;
      [|apply Permutation_map, sorted_desc_perm].
    apply count_messages_In, senders_In in Hu. apply Hu.
  - rewrite (Hraise e eq_refl). constructor.
Qed.

(** A non-empty ranking always leads to the action sequence on one of its
    users. *)
Lemma execute_duoshe_acts w cfg g c s l :
  fst (rank_active_users w c s) = Ok l -> l <> [] ->
  exists t s1 pre,
    In t l /\ trace s1 = trace s ++ pre /\
    Forall (fun e => is_post e = false) pre /\
    posts s1 = posts s /\
    _execute_duoshe w cfg g c s
    = (Ok tt, snd (action_sequence w cfg g t s1)).
Proof.
  intros Hl Hne.
  pose proof (ranking_ids_not_empty w c s l Hl) as Hids.
  destruct (rank_active_users_run w c s) as [l' [Hrank _]].
  rewrite Hrank in Hl. cbn [fst] in Hl. injection Hl as ->.
  unfold _execute_duoshe, try_except. rewrite bind_run, Hrank.
  set (ev0 := EvMessages c (clock w (ticks s) - 24 * 3600) (clock w (ticks s))).
  set (s0 := next_query _).
  assert (H0 : trace s0 = trace s ++ [ev0]) by reflexivity.
  destruct l as [|u l']; [congruence|].
  set (l := u :: l') in *.
  destruct (select_target_run w cfg l s0)
    as [r [s1 [evs [Hsel [Htr [Hev [Hp _]]]]]]].
  destruct (select_target_member w cfg l s0 Hne) as [t [Ht Hin]].
  rewrite Hsel in Ht. cbn [fst] in Ht. subst r.
  exists t, s1, (ev0 :: evs).
  split; [exact Hin|].
  split; [rewrite Htr, H0, <- app_assoc; reflexivity|].
  split; [constructor; [reflexivity|];
          eapply Forall_impl; [|exact Hev]; apply is_random_not_post|].
  split; [exact Hp|].
  rewrite bind_run, Hsel.
  rewrite Forall_forall in Hids. specialize (Hids t Hin).
  destruct (String.eqb_spec t ""); [congruence|].
  destruct (action_sequence w cfg g t s1) as [[[]|e] s2]; reflexivity.
Qed.

(** X8: when the ranking is not empty the cycle always pokes one of the
    ranked users and then asks for that user's member info, whatever the
    poke request returns: a failed poke does not stop the cycle, and the
    guard against an empty target never fires. *)
Theorem poke_failure_does_not_stop w cfg g c s evs l :
  trace (snd (_execute_duoshe w cfg g c s)) = trace s ++ evs ->
  fst (rank_active_users w c s) = Ok l ->
  l <> [] ->
  exists t,
    In t l /\ t <> "" /\
    firstn 2 (filter is_post evs)
    = [poke_event cfg g t; member_info_event cfg g t].
Proof.
  intros Htr Hl Hne.
  destruct (execute_duoshe_acts w cfg g c s l Hl Hne)
    as [t [s1 [pre [Hin [Hpre [Hnp [_ Hrun]]]]]]].
  rewrite Hrun in Htr. cbn [snd] in Htr.
  destruct (action_sequence_frame w cfg g t s1) as [act [Hact _]].
  rewrite Hact, Hpre, <- app_assoc in Htr. apply app_inv_head in Htr.
  subst evs.
  destruct (action_sequence_requests w cfg g t s1 act Hact)
    as [tcard [ncard [k [Hk Hreq]]]].
  exists t. split; [exact Hin|].
  split.
  - pose proof (ranking_ids_not_empty w c s l Hl) as Hids.
    rewrite Forall_forall in Hids. exact (Hids t Hin).
  - rewrite filter_app, (filter_no_post pre Hnp), Hreq. cbn [app].
    destruct k as [|[|k]]; [lia | lia | reflexivity].
Qed.

Lemma poke_failure_does_not_stop_witness :
  poke_reply poke_refused_world 0
  = Ok (false, Diag (DiagNetwork "connection refused")) /\
  exists t,
    In t ["C"; "A"; "B"] /\ t <> "" /\
    firstn 2 (filter is_post
                     [EvMessages "chat" (1699913600 # 1) (1700000000 # 1);
                      EvExpovariate (3 # 2);
                      poke_event example_config "1001" "C";
                      member_info_event example_config "1001" "C";
                      member_info_event example_config "1001" "42";
                      set_card_event example_config "1001" "42"
                                     (JStr "Carol")])
    = [poke_event example_config "1001" t;
       member_info_event example_config "1001" t].
Proof.
  split; [reflexivity|].
  apply (poke_failure_does_not_stop
           poke_refused_world example_config "1001" "chat" initial_state).
  - vm_compute. reflexivity.
  - reflexivity.
  - discriminate.
Defined.

Lemma display_card_object (d : dict) :
  display_card (Data (JObj d)) = Ok (shown_name d).
Proof.
  unfold display_card, shown_name, result_get, py_get.
  destruct (truthy _); reflexivity.
Qed.

Lemma display_card_ok (p : payload) (card : json) :
  display_card p = Ok card -> exists d, p = Data (JObj d).
Proof.
  destruct p as [[| | | | |d]|]; try discriminate. eauto.
Qed.

Ltac settle_bools :=
  repeat match goal with
         | E : negb ?b = _ |- _ =>
             is_var b; destruct b; cbn [negb] in E; try discriminate E; clear E
         end.

Ltac read_infos :=
  repeat match goal with
         | E : display_card (Data (JObj _)) = _ |- _ =>
             rewrite display_card_object in E;
             first [discriminate E | injection E as <-]
         | E : result_get (Data (JObj _)) _ _ = Raise _ |- _ => discriminate E
         end.

Lemma action_sequence_own_card w cfg g t s act ti bi :
  member_info_reply w (S (posts s)) = Ok (true, Data (JObj ti)) ->
  member_info_reply w (S (S (posts s))) = Ok (true, Data (JObj bi)) ->
  trace (snd (action_sequence w cfg g t s)) = trace s ++ act ->
  In (set_card_event cfg g (bot_qq cfg) (shown_name ti)) act.
Proof.
  intros Ht Hb. revert act.
  run_action w cfg g t s H; intros act; got_events act; same_reply;
    read_infos; cbn [In]; auto 10.
Qed.

(** X9: when the ranking is not empty and the member infos of the target
    and of the bot both come back as objects, the cycle asks to set the
    bot's own card to the name the target is shown under: the target's
    card, or its nickname when the card is empty or missing. *)
Theorem bot_takes_target_name w cfg g c s evs l ti bi :
  trace (snd (_execute_duoshe w cfg g c s)) = trace s ++ evs ->
  fst (rank_active_users w c s) = Ok l ->
  l <> [] ->
  member_info_reply w (1 + posts s) = Ok (true, Data (JObj ti)) ->
  member_info_reply w (2 + posts s) = Ok (true, Data (JObj bi)) ->
  In (set_card_event cfg g (bot_qq cfg) (shown_name ti)) evs.
Proof.
  intros Htr Hl Hne Ht Hb.
  destruct (execute_duoshe_acts w cfg g c s l Hl Hne)
    as [t [s1 [pre [_ [Hpre [_ [Hp Hrun]]]]]]].
  rewrite Hrun in Htr. cbn [snd] in Htr.
  destruct (action_sequence_frame w cfg g t s1) as [act [Hact _]].
  rewrite Hact, Hpre, <- app_assoc in Htr. apply app_inv_head in Htr.
  subst evs. apply in_or_app. right.
  rewrite <- Hp in Ht, Hb.
  exact (action_sequence_own_card w cfg g t s1 act ti bi Ht Hb Hact).
Qed.

Lemma bot_takes_target_name_witness :
  In (set_card_event example_config "1001" "42" (JStr "carol"))
     [EvMessages "chat" (1699913600 # 1) (1700000000 # 1);
      EvExpovariate (3 # 2);
      poke_event example_config "1001" "C";
      member_info_event example_config "1001" "C";
      member_info_event example_config "1001" "42";
      set_card_event example_config "1001" "42" (JStr "carol")].
Proof.
  apply (bot_takes_target_name
           cardless_target_world example_config "1001" "chat" initial_state
           _ ["C"; "A"; "B"]
           [("card", JStr ""); ("nickname", JStr "carol");
            ("role", JStr "member")]
           [("card", JStr "Bot"); ("nickname", JStr "bot");
            ("role", JStr "member")]).
  - vm_compute. reflexivity.
  - reflexivity.
  - discriminate.
  - reflexivity.
  - reflexivity.
Defined.

Lemma action_sequence_cards_need_infos w cfg g t s act e :
  trace (snd (action_sequence w cfg g t s)) = trace s ++ act ->
  In e act -> is_set_card e = true ->
  exists ti bi,
    member_info_reply w (S (posts s)) = Ok (true, Data (JObj ti)) /\
    member_info_reply w (S (S (posts s))) = Ok (true, Data (JObj bi)).
Proof.
  revert act.
  run_action w cfg g t s H; intros act; got_events act; intros Hin Hsc;
    first
      [ solve [ settle_bools;
                repeat match goal with
                       | E : display_card ?p = Ok _ |- _ =>
                           destruct (display_card_ok p _ E) as [? ->]; clear E
                       end;
                eauto ]
      | exfalso; cbn [In] in Hin;
        repeat (destruct Hin as [Hin | Hin]; [subst e; discriminate Hsc|]);
        exact Hin ].
Qed.

(** X10: a cycle asks to set a card, the bot's or the target's, only after
    it has fetched the member info of the target and then that of the bot,
    each as an object: if either fetch fails, or returns data that is not
    an object, no card is touched. *)
Theorem cards_set_only_after_both_infos w cfg g c s evs e :
  trace (snd (_execute_duoshe w cfg g c s)) = trace s ++ evs ->
  In e evs -> is_set_card e = true ->
  exists ti bi,
    member_info_reply w (1 + posts s) = Ok (true, Data (JObj ti)) /\
    member_info_reply w (2 + posts s) = Ok (true, Data (JObj bi)).
Proof.
  intros Htr Hin Hsc.
  assert (Hpre : forall pre, Forall (fun e => is_post e = false) pre ->
                             ~ In e pre).
  { intros pre Hnp Hpin. rewrite Forall_forall in Hnp.
    specialize (Hnp e Hpin). apply is_set_card_post in Hsc. congruence. }
  destruct (execute_duoshe_events w cfg g c s evs Htr)
    as [pre [Hnp [[-> _] | [l [t [s1 [act [_ [_ [Hp [Hact [_ ->]]]]]]]]]]]].
  - destruct (Hpre pre Hnp Hin).
  - apply in_app_or in Hin. destruct Hin as [Hin | Hin];
      [destruct (Hpre pre Hnp Hin)|].
    cbn [Nat.add]. rewrite <- Hp.
    exact (action_sequence_cards_need_infos w cfg g t s1 act e Hact Hin Hsc).
Qed.

Lemma cards_set_only_after_both_infos_witness :
  exists ti bi,
    member_info_reply member_world 1 = Ok (true, Data (JObj ti)) /\
    member_info_reply member_world 2 = Ok (true, Data (JObj bi)).
Proof.
  apply (cards_set_only_after_both_infos
           member_world example_config "1001" "chat" initial_state
           [EvMessages "chat" (1699913600 # 1) (1700000000 # 1);
            EvExpovariate (3 # 2);
            poke_event example_config "1001" "C";
            member_info_event example_config "1001" "C";
            member_info_event example_config "1001" "42";
            set_card_event example_config "1001" "42" (JStr "Carol")]
           (set_card_event example_config "1001" "42" (JStr "Carol"))).
  - vm_compute. reflexivity.
  - simpl. auto 10.
  - reflexivity.
Defined.

Lemma action_sequence_own_card_raises w cfg g t s act ex :
  set_card_reply w (S (S (S (posts s)))) = Raise ex ->
  trace (snd (action_sequence w cfg g t s)) = trace s ++ act ->
  Forall (fun e => is_set_card e = true ->
                   exists card, e = set_card_event cfg g (bot_qq cfg) card)
         act /\
  (posts (snd (action_sequence w cfg g t s)) <= 4 + posts s)%nat.
Proof.
  intros Hraise. revert act.
  run_action w cfg g t s H; intros act; got_events act; try discriminate;
    (split; [|lia]);
    repeat (constructor;
            [let Hsc := fresh in
             intros Hsc; first [discriminate Hsc | eexists; reflexivity]|]);
    constructor.
Qed.

(** X11: when the request that sets the bot's own card ends in an
    exception (its response decodes to something that is not an object),
    the cycle ends there: no card of any other user is set, even for an
    administrator, and at most four requests are sent. *)
Theorem own_card_exception_skips_swap w cfg g c s evs ex :
  trace (snd (_execute_duoshe w cfg g c s)) = trace s ++ evs ->
  set_card_reply w (3 + posts s) = Raise ex ->
  (forall uid, uid <> bot_qq cfg ->
               Forall (fun e => is_set_card_on uid e = false) evs) /\
  (posts (snd (_execute_duoshe w cfg g c s)) <= 4 + posts s)%nat.
Proof.
  intros Htr Hraise.
  assert (Hown : Forall (fun e => is_set_card e = true ->
                   exists card, e = set_card_event cfg g (bot_qq cfg) card)
                        evs /\
                 (posts (snd (_execute_duoshe w cfg g c s)) <= 4 + posts s)%nat).
  { destruct (execute_duoshe_events w cfg g c s evs Htr)
      as [pre [Hnp [[-> Hposts]
                   | [l [t [s1 [act [_ [_ [Hp [Hact [Hposts ->]]]]]]]]]]]].
    - split; [|lia]. eapply Forall_impl; [|exact Hnp]. intros e He Hsc.
      apply is_set_card_post in Hsc. congruence.
    - cbn [Nat.add] in Hraise. rewrite <- Hp in Hraise.
      destruct (action_sequence_own_card_raises w cfg g t s1 act ex Hraise Hact)
        as [Hact' Hle].
      split; [|lia]. apply Forall_app. split; [|exact Hact'].
      eapply Forall_impl; [|exact Hnp]. intros e He Hsc.
      apply is_set_card_post in Hsc. congruence. }
  destruct Hown as [Hown Hle]. split; [|exact Hle].
  intros uid Hne. eapply Forall_impl; [|exact Hown].
  intros e He. cbv beta in He.
  destruct (is_set_card_on uid e) eqn:Hon; [|reflexivity].
  destruct (He (is_set_card_on_set_card _ _ Hon)) as [card ->].
  rewrite (set_card_on_other uid cfg g card Hne) in Hon. discriminate.
Qed.

Lemma own_card_exception_skips_swap_witness :
  (forall uid, uid <> "42" ->
     Forall (fun e => is_set_card_on uid e = false)
       [EvMessages "chat" (1699913600 # 1) (1700000000 # 1);
        EvExpovariate (3 # 2);
        poke_event example_config "1001" "C";
        member_info_event example_config "1001" "C";
        member_info_event example_config "1001" "42";
        set_card_event example_config "1001" "42" (JStr "Carol")]) /\
  (posts (snd (_execute_duoshe own_card_garbled_world example_config
                               "1001" "chat" initial_state)) <= 4)%nat.
Proof.
  apply (own_card_exception_skips_swap
           own_card_garbled_world example_config "1001" "chat" initial_state
           _ AttributeError).
  - vm_compute. reflexivity.
  - reflexivity.
Defined.

Lemma role_object (d : dict) (role : json) :
  result_get (Data (JObj d)) "role" (JStr "member") = Ok role ->
  role = dict_get_default d "role" (JStr "member").
Proof. cbn [result_get py_get]. congruence. Qed.

Lemma action_sequence_admin_renames w cfg g t s act ti bi b d :
  member_info_reply w (S (posts s)) = Ok (true, Data (JObj ti)) ->
  member_info_reply w (S (S (posts s))) = Ok (true, Data (JObj bi)) ->
  is_admin_class (dict_get_default bi "role" (JStr "member")) = true ->
  set_card_reply w (S (S (S (posts s)))) = Ok (b, d) ->
  build_candidates cfg (shown_name bi) <> [] ->
  trace (snd (action_sequence w cfg g t s)) = trace s ++ act ->
  exists new_card,
    In new_card (build_candidates cfg (shown_name bi)) /\
    In (poke_event cfg g t) act /\
    In (set_card_event cfg g t new_card) act.
Proof.
  intros Ht Hb Hadmin Hown Hpool. revert act.
  run_action w cfg g t s H; intros act; got_events act; same_reply;
    read_infos;
    repeat match goal with
           | E : result_get (Data (JObj _)) "role" _ = Ok _ |- _ =>
               apply role_object in E; subst
           end;
    try congruence;
    match goal with
    | Hc : build_candidates cfg (shown_name bi) = _ :: _ |- _ =>
        rewrite Hc in *
    end;
    (eexists; split; [apply nth_In; eassumption|]);
    cbn [In]; auto 10.
Qed.

(** X12: when the ranking is not empty, both member infos come back as
    objects, the bot's role is ["admin"] or ["owner"] and the candidate pool
    is not empty, the cycle asks to set the card of the user it poked to a
    name from the pool, as soon as the request on the bot's own card has
    returned, with success or with failure. *)
Theorem admin_renames_poked_target w cfg g c s evs l ti bi b d :
  trace (snd (_execute_duoshe w cfg g c s)) = trace s ++ evs ->
  fst (rank_active_users w c s) = Ok l ->
  l <> [] ->
  member_info_reply w (1 + posts s) = Ok (true, Data (JObj ti)) ->
  member_info_reply w (2 + posts s) = Ok (true, Data (JObj bi)) ->
  is_admin_class (dict_get_default bi "role" (JStr "member")) = true ->
  set_card_reply w (3 + posts s) = Ok (b, d) ->
  build_candidates cfg (shown_name bi) <> [] ->
  exists t new_card,
    In t l /\
    In new_card (build_candidates cfg (shown_name bi)) /\
    In (poke_event cfg g t) evs /\
    In (set_card_event cfg g t new_card) evs.
Proof.
  intros Htr Hl Hne Ht Hb Hadmin Hown Hpool.
  destruct (execute_duoshe_acts w cfg g c s l Hl Hne)
    as [t [s1 [pre [Hin [Hpre [_ [Hp Hrun]]]]]]].
  rewrite Hrun in Htr. cbn [snd] in Htr.
  destruct (action_sequence_frame w cfg g t s1) as [act [Hact _]].
  rewrite Hact, Hpre, <- app_assoc in Htr. apply app_inv_head in Htr.
  subst evs. cbn [Nat.add] in Ht, Hb, Hown. rewrite <- Hp in Ht, Hb, Hown.
  destruct (action_sequence_admin_renames w cfg g t s1 act ti bi b d
              Ht Hb Hadmin Hown Hpool Hact)
    as [new_card [Hcard [Hpoke Hset]]].
  exists t, new_card. split; [exact Hin|]. split; [exact Hcard|].
  split; apply in_or_app; right; assumption.
Qed.

Lemma admin_renames_poked_target_witness :
  exists t new_card,
    In t ["C"; "A"; "B"] /\
    In new_card [JStr "Mai"; JStr "Mai2"; JStr "bot"] /\
    In (poke_event example_config "1001" t)
       [EvMessages "chat" (1699913600 # 1) (1700000000 # 1);
        EvExpovariate (3 # 2);
        poke_event example_config "1001" "C";
        member_info_event example_config "1001" "C";
        member_info_event example_config "1001" "42";
        set_card_event example_config "1001" "42" (JStr "Carol");
        EvChoice 3;
        set_card_event example_config "1001" "C" (JStr "Mai2")] /\
    In (set_card_event example_config "1001" t new_card)
       [EvMessages "chat" (1699913600 # 1) (1700000000 # 1);
        EvExpovariate (3 # 2);
        poke_event example_config "1001" "C";
        member_info_event example_config "1001" "C";
        member_info_event example_config "1001" "42";
        set_card_event example_config "1001" "42" (JStr "Carol");
        EvChoice 3;
        set_card_event example_config "1001" "C" (JStr "Mai2")].
Proof.
  apply (admin_renames_poked_target
           admin_world example_config "1001" "chat" initial_state _
           ["C"; "A"; "B"]
           [("card", JStr "Carol"); ("nickname", JStr "carol");
            ("role", JStr "member")]
           [("card", JStr ""); ("nickname", JStr "bot");
            ("role", JStr "admin")]
           true
           (Data (JObj [("status", JStr "ok"); ("retcode", JNum 0);
                        ("data", JNull)]))).
  - vm_compute. reflexivity.
  - reflexivity.
  - discriminate.
  - reflexivity.
  - reflexivity.
  - reflexivity.
  - reflexivity.
  - discriminate.
Defined.

(** ** What a cycle and a pass are made of *)

Lemma action_sequence_shape w cfg g t s :
  exists act,
    trace (snd (action_sequence w cfg g t s)) = trace s ++ act /\
    Forall (fun e => is_random e || is_post e = true) act /\
    schedule_file (snd (action_sequence w cfg g t s)) = schedule_file s.
Proof.
  run_action w cfg g t s H;
    (eexists; split; [trace_eq|]; split; [repeat constructor | reflexivity]).
Qed.

Lemma execute_duoshe_shape w cfg g c s :
  exists s' evs,
    _execute_duoshe w cfg g c s = (Ok tt, s') /\
    trace s'
    = trace s ++ EvMessages c (clock w (ticks s) - 24 * 3600)
                            (clock w (ticks s)) :: evs /\
    Forall (fun e => is_random e || is_post e = true) evs /\
    schedule_file s' = schedule_file s.
Proof.
  destruct (rank_active_users_run w c s) as [l [Hrank _]].
  unfold _execute_duoshe, try_except. rewrite bind_run, Hrank.
  set (ev0 := EvMessages c (clock w (ticks s) - 24 * 3600) (clock w (ticks s))).
  set (s0 := next_query _).
  assert (H0 : trace s0 = trace s ++ [ev0]) by reflexivity.
  destruct l as [|u l'].
  - exists s0, []. repeat split; auto.
  - set (l := u :: l').
    destruct (select_target_run w cfg l s0)
      as [r [s1 [evs [Hsel [Htr [Hev [_ Hf]]]]]]].
    assert (Hev' : Forall (fun e => is_random e || is_post e = true) evs).
    { eapply Forall_impl; [|exact Hev]. intros e He. rewrite He. reflexivity. }
    rewrite bind_run, Hsel.
    assert (Hstop : exists s' evs0,
               (Ok tt, s1) = (Ok tt, s') /\
               trace s' = trace s ++ ev0 :: evs0 /\
               Forall (fun e => is_random e || is_post e = true) evs0 /\
               schedule_file s' = schedule_file s).
    { exists s1, evs. split; [reflexivity|].
      split; [rewrite Htr, H0, <- app_assoc; reflexivity|].
      split; [exact Hev' | exact Hf]. }
    destruct r as [t|e]; [|exact Hstop].
    destruct (String.eqb t ""); [exact Hstop|].
    destruct (action_sequence_shape w cfg g t s1) as [act [Hact [Hsh Hfile]]].
    exists (snd (action_sequence w cfg g t s1)), (evs ++ act).
    split; [destruct (action_sequence w cfg g t s1) as [[[]|e] s2]; reflexivity|].
    split; [rewrite Hact, Htr, H0, <- !app_assoc; reflexivity|].
    split; [apply Forall_app; auto|].
    rewrite Hfile. exact Hf.
Qed.

(** One pass of the loop, by what the schedule holds for the group. *)
Lemma loop_body_cases w cfg g c s :
  loop_body w cfg g c s
  = match fst (_load_schedule w s) with
    | Ok (JObj d) =>
        match py_float_ge (clock w (ticks s))
                          (dict_get_default d g (JNum (clock w (ticks s)))) with
        | Ok true =>
            let s2 := snd (_execute_duoshe w cfg g c (next_tick s)) in
            let saved := rescheduled w cfg g d (clock w (ticks s)) (draws s2) in
            let s3 := log (EvSaveSchedule saved)
                          (next_draw (log (EvUniform (min_interval cfg)
                                                     (max_interval cfg)) s2)) in
            (Ok tt,
             log (EvSleep 60)
                 (if fs_writable w then set_file (Some (json_dump w saved)) s3
                  else s3))
        | Ok false => (Ok tt, log (EvSleep 60) (next_tick s))
        | Raise _ => (Ok tt, log (EvSleep 300) (next_tick s))
        end
    | _ => (Ok tt, log (EvSleep 300) (next_tick s))
    end.
Proof.
  destruct (load_schedule_run w s) as [j Hload]. rewrite Hload. cbn [fst].
  unfold loop_body, try_except. rewrite bind_run, Hload.
  rewrite bind_run. unfold time_time at 1.
  rewrite bind_run, lift_run.
  destruct j as [| | | | |d]; try reflexivity.
  cbn [py_get]. rewrite bind_run, lift_run.
  destruct (py_float_ge _ _) as [[|]|e]; try reflexivity.
  destruct (execute_duoshe_shape w cfg g c (next_tick s))
    as [s2 [evs2 [Hexec _]]].
  cbv zeta. rewrite bind_run, bind_run, Hexec, bind_run.
  unfold random_uniform at 1. cbn [py_setitem snd].
  rewrite bind_run, lift_run.
  unfold _save_schedule, rescheduled.
  destruct (fs_writable w); reflexivity.
Qed.

(** The schedule is read from the file and the world alone. *)
Lemma load_schedule_same_file w s s' :
  schedule_file s' = schedule_file s ->
  fst (_load_schedule w s') = fst (_load_schedule w s).
Proof.
  intros Hf. unfold _load_schedule. rewrite Hf.
  destruct (schedule_file s); [|reflexivity].
  destruct (fs_readable w); [|reflexivity].
  destruct (json_load w s0); reflexivity.
Qed.





(** ** Passes of the loop *)

(** X14: when the schedule holds a time for the group that is later than
    the clock, the pass does nothing but sleep for 60 seconds: no message
    query, no request, no draw, and the schedule is not written. *)
Theorem pass_not_due_only_sleeps w cfg g c s d t :
  fst (_load_schedule w s) = Ok (JObj d) ->
  dict_lookup d g = Some (JNum t) ->
  clock w (ticks s) < t ->
  loop_body w cfg g c s = (Ok tt, log (EvSleep 60) (next_tick s)).
Proof.
  intros Hload Hentry Hlt.
  rewrite loop_body_cases, Hload. unfold dict_get_default. rewrite Hentry.
  cbn [py_float_ge].
  destruct (Qle_bool t (clock w (ticks s))) eqn:E; [|reflexivity].
  apply Qle_bool_iff in E. exfalso. apply (Qlt_not_le _ _ Hlt). exact E.
Qed.

Lemma pass_not_due_only_sleeps_witness :
  loop_body admin_world example_config "2002" "chat" two_groups_state
  = (Ok tt, log (EvSleep 60) (next_tick two_groups_state)).
Proof.
  apply (pass_not_due_only_sleeps admin_world example_config "2002" "chat"
                                  two_groups_state two_groups_schedule
                                  1800000000).
  - vm_compute. reflexivity.
  - reflexivity.
  - reflexivity.
Defined.

Lemma loop_body_due w cfg g c s d :
  fst (_load_schedule w s) = Ok (JObj d) ->
  py_float_ge (clock w (ticks s))
              (dict_get_default d g (JNum (clock w (ticks s)))) = Ok true ->
  exists s2 evs,
    _execute_duoshe w cfg g c (next_tick s) = (Ok tt, s2) /\
    trace s2
    = trace s ++ EvMessages c (clock w (S (ticks s)) - 24 * 3600)
                            (clock w (S (ticks s))) :: evs /\
    Forall (fun e => is_random e || is_post e = true) evs /\
    schedule_file s2 = schedule_file s /\
    let saved := rescheduled w cfg g d (clock w (ticks s)) (draws s2) in
    let s3 := log (EvSaveSchedule saved)
                  (next_draw (log (EvUniform (min_interval cfg)
                                             (max_interval cfg)) s2)) in
    loop_body w cfg g c s
    = (Ok tt,
       log (EvSleep 60)
           (if fs_writable w then set_file (Some (json_dump w saved)) s3
            else s3)).
Proof.
  intros Hload Hdue.
  destruct (execute_duoshe_shape w cfg g c (next_tick s))
    as [s2 [evs [Hrun [Htr [Hsh Hf]]]]].
  exists s2, evs. split; [exact Hrun|]. split; [exact Htr|].
  split; [exact Hsh|]. split; [exact Hf|].
  rewrite loop_body_cases, Hload, Hdue, Hrun. reflexivity.
Qed.

Lemma due_without_entry (now : Q) (d : dict) (g : string) :
  dict_lookup d g = None \/
  (exists t, dict_lookup d g = Some (JNum t) /\ t <= now) ->
  py_float_ge now (dict_get_default d g (JNum now)) = Ok true.
Proof.
  unfold dict_get_default. intros [-> | [t [-> Hle]]]; cbn [py_float_ge].
  - f_equal. apply Qle_bool_iff. apply Qle_refl.
  - f_equal. apply Qle_bool_iff. exact Hle.
Qed.



Lemma load_schedule_unreadable w s :
  schedule_file s = None \/ fs_readable w = false \/
  (exists text, schedule_file s = Some text /\ json_load w text = None) ->
  fst (_load_schedule w s) = Ok (JObj []).
Proof.
  unfold _load_schedule.
  intros [-> | [Hr | [text [-> Htext]]]]; [reflexivity | |].
  - rewrite Hr. destruct (schedule_file s); reflexivity.
  - rewrite Htext. destruct (fs_readable w); reflexivity.
Qed.

(** X16: when the schedule file is missing, cannot be read or does not
    decode, the pass treats the schedule as empty: the group is due, and
    the mapping it writes holds the entry of this group and nothing else,
    so whatever the file held for other groups is not carried over. *)
Theorem unreadable_schedule_is_replaced w cfg g c s evs :
  schedule_file s = None \/ fs_readable w = false \/
  (exists text, schedule_file s = Some text /\ json_load w text = None) ->
  trace (snd (loop_body w cfg g c s)) = trace s ++ evs ->
  exists next_run,
    In (EvSaveSchedule (JObj [(g, JNum next_run)])) evs /\
    (fs_writable w = true ->
     schedule_file (snd (loop_body w cfg g c s))
     = Some (json_dump w (JObj [(g, JNum next_run)]))).
Proof.
  intros Hfile Htr.
  pose proof (load_schedule_unreadable w s Hfile) as Hload.
  destruct (loop_body_due w cfg g c s [] Hload
              (due_without_entry _ [] g (or_introl eq_refl)))
    as [s2 [evs2 [_ [Htr2 [_ [_ Hrun]]]]]].
  cbv zeta in Hrun. rewrite Hrun in *. unfold rescheduled in *.
  cbn [dict_set] in *.
  eexists. split.
  - destruct (fs_writable w); cbn [snd trace log set_file next_draw] in Htr;
      rewrite Htr2, <- !app_assoc in Htr; apply app_inv_head in Htr;
      subst evs; cbn [app]; right; apply in_or_app; right;
      cbn [In]; auto.
  - intros Hw. rewrite Hw. reflexivity.
Qed.

Lemma unreadable_schedule_is_replaced_witness :
  exists next_run,
    In (EvSaveSchedule (JObj [("1001", JNum next_run)]))
       (trace (snd (loop_body silent_world example_config "1001" "chat"
                              initial_state))) /\
    (fs_writable silent_world = true ->
     schedule_file (snd (loop_body silent_world example_config "1001" "chat"
                                   initial_state))
     = Some (json_dump silent_world (JObj [("1001", JNum next_run)]))).
Proof.
  apply (unreadable_schedule_is_replaced
           silent_world example_config "1001" "chat" initial_state).
  - left. reflexivity.
  - reflexivity.
Defined.

Lemma loop_body_stuck w cfg g c s j :
  fst (_load_schedule w s) = Ok j ->
  entry_unusable j g = true ->
  loop_body w cfg g c s = (Ok tt, log (EvSleep 300) (next_tick s)).
Proof.
  intros Hload Hbad. rewrite loop_body_cases, Hload.
  destruct j as [| | | | |d]; try reflexivity.
  unfold entry_unusable in Hbad. unfold dict_get_default.
  destruct (dict_lookup d g) as [[| | | | |]|]; try discriminate Hbad;
    reflexivity.
Qed.

(** X17: when the schedule file decodes to something that is not an
    object, or holds for the group a value that is not a number, every
    pass fails before the cycle starts and backs off for 300 seconds: the
    loop of this group never runs a cycle and never rewrites the file, for
    as long as the file stays as it is. *)
Theorem malformed_schedule_blocks_group w cfg g c j n :
  forall s,
    fst (_load_schedule w s) = Ok j ->
    entry_unusable j g = true ->
    trace (snd (_schedule_task n w cfg g c s))
    = trace s ++ repeat (EvSleep 300) n /\
    schedule_file (snd (_schedule_task n w cfg g c s)) = schedule_file s /\
    posts (snd (_schedule_task n w cfg g c s)) = posts s /\
    queries (snd (_schedule_task n w cfg g c s)) = queries s.
Proof.
  induction n as [|n IH]; intros s Hload Hbad.
  - cbn [_schedule_task repeat]. rewrite ret_run, app_nil_r. repeat split.
  - cbn [_schedule_task]. rewrite bind_run.
    rewrite (loop_body_stuck w cfg g c s j Hload Hbad).
    set (s1 := log (EvSleep 300) (next_tick s)).
    assert (Hload1 : fst (_load_schedule w s1) = Ok j).
    { rewrite <- Hload. apply load_schedule_same_file. reflexivity. }
    destruct (IH s1 Hload1 Hbad) as [Htr [Hf [Hp Hq]]].
    rewrite Htr, Hf, Hp, Hq. cbn [repeat s1 trace log next_tick].
    rewrite <- app_assoc. repeat split.
Qed.

Lemma malformed_schedule_blocks_group_witness :
  trace (snd (_schedule_task 3 admin_world example_config "1001" "chat"
                             listed_schedule_state))
  = trace listed_schedule_state ++ repeat (EvSleep 300) 3 /\
  schedule_file (snd (_schedule_task 3 admin_world example_config "1001"
                                     "chat" listed_schedule_state))
  = schedule_file listed_schedule_state /\
  posts (snd (_schedule_task 3 admin_world example_config "1001" "chat"
                             listed_schedule_state))
  = posts listed_schedule_state /\
  queries (snd (_schedule_task 3 admin_world example_config "1001" "chat"
                               listed_schedule_state))
  = queries listed_schedule_state.
Proof.
  apply (malformed_schedule_blocks_group
           admin_world example_config "1001" "chat"
           (JArr [JNum 1700000000]) 3 listed_schedule_state).
  - vm_compute. reflexivity.
  - reflexivity.
Defined.




(** X19: once a pass has rescheduled the group and the store is
    writable and readable, the next pass reads the file just written; if it
    decodes to a mapping that holds the time written for the group (the same
    number), the group is not due as long as the clock has not reached that
    time, and the pass only sleeps for 60 seconds. *)
Theorem rescheduled_group_waits
        w cfg g c s evs written next_run reloaded t :
  fs_writable w = true ->
  fs_readable w = true ->
  trace (snd (loop_body w cfg g c s)) = trace s ++ evs ->
  In (EvSaveSchedule (JObj written)) evs ->
  dict_lookup written g = Some (JNum next_run) ->
  json_load w (json_dump w (JObj written)) = Some (JObj reloaded) ->
  dict_lookup reloaded g = Some (JNum t) ->
  t == next_run ->
  let s1 := snd (loop_body w cfg g c s) in
  clock w (ticks s1) < next_run ->
  loop_body w cfg g c s1 = (Ok tt, log (EvSleep 60) (next_tick s1)).
Proof.
  intros Hw Hr Htr Hin Hentry Hcodec Hback Heq s1 Hlt.
  destruct (loop_body_saves w cfg g c s evs (JObj written) Htr Hin)
    as [d [k [_ [_ Hfile]]]].
  specialize (Hfile Hw). fold s1 in Hfile.
  assert (Hload : fst (_load_schedule w s1) = Ok (JObj reloaded)).
  { unfold _load_schedule. rewrite Hfile, Hr, Hcodec. reflexivity. }
  rewrite loop_body_cases, Hload. unfold dict_get_default. rewrite Hback.
  cbn [py_float_ge].
  destruct (Qle_bool t (clock w (ticks s1))) eqn:E; [|reflexivity].
  apply Qle_bool_iff in E. exfalso. rewrite Heq in E.
  apply (Qlt_not_le _ _ Hlt). exact E.
Qed.

Lemma rescheduled_group_waits_witness :
  loop_body admin_world example_config "1001" "chat"
            (snd (loop_body admin_world example_config "1001" "chat"
                            two_groups_state))
  = (Ok tt,
     log (EvSleep 60)
         (next_tick (snd (loop_body admin_world example_config "1001" "chat"
                                    two_groups_state)))).
Proof.
  apply (rescheduled_group_waits
           admin_world example_config "1001" "chat" two_groups_state
           (admin_pass_events
              (JObj [("1001", JNum (15312465714480905872998400
                                    # 9007199254740992));
                     ("2002", JNum 1800000000)]))
           [("1001", JNum (15312465714480905872998400 # 9007199254740992));
            ("2002", JNum 1800000000)]
           (15312465714480905872998400 # 9007199254740992)
           [("1001", JNum 1700025200); ("2002", JNum 1800000000)]
           1700025200).
  - reflexivity.
  - reflexivity.
  - vm_compute. reflexivity.
  - simpl. auto 20.
  - reflexivity.
  - vm_compute. reflexivity.
  - reflexivity.
  - vm_compute. reflexivity.
  - vm_compute. reflexivity.
Defined.


(** ** A loop keeps to its group *)

Lemma action_sequence_in_group w cfg g c t s :
  exists act,
    trace (snd (action_sequence w cfg g t s)) = trace s ++ act /\
    Forall (fun e => event_in_group cfg g c e = true) act.
Proof.
  run_action w cfg g t s H;
    (eexists; split; [trace_eq|]);
    repeat (constructor;
            [cbn; rewrite ?String.eqb_refl, ?Z.eqb_refl; reflexivity|]);
    constructor.
Qed.

Lemma execute_duoshe_in_group w cfg g c s :
  exists s' evs,
    _execute_duoshe w cfg g c s = (Ok tt, s') /\
    trace s' = trace s ++ evs /\
    Forall (fun e => event_in_group cfg g c e = true) evs.
Proof.
  destruct (rank_active_users_run w c s) as [l [Hrank _]].
  unfold _execute_duoshe, try_except. rewrite bind_run, Hrank.
  set (ev0 := EvMessages c (clock w (ticks s) - 24 * 3600) (clock w (ticks s))).
  set (s0 := next_query _).
  assert (H0 : trace s0 = trace s ++ [ev0]) by reflexivity.
  assert (Hev0 : event_in_group cfg g c ev0 = true)
    by (cbn; apply String.eqb_refl).
  destruct l as [|u l'].
  - exists s0, [ev0]. repeat split; auto.
  - set (l := u :: l').
    destruct (select_target_run w cfg l s0)
      as [r [s1 [evs [Hsel [Htr [Hev _]]]]]].
    assert (Hev' : Forall (fun e => event_in_group cfg g c e = true) evs).
    { eapply Forall_impl; [|exact Hev].
      intros e He. destruct e; try discriminate He; reflexivity. }
    rewrite bind_run, Hsel.
    assert (Hstop : exists s' evs0,
               (Ok tt, s1) = (Ok tt, s') /\ trace s' = trace s ++ evs0 /\
               Forall (fun e => event_in_group cfg g c e = true) evs0).
    { exists s1, (ev0 :: evs). split; [reflexivity|].
      split; [rewrite Htr, H0, <- app_assoc; reflexivity|].
      constructor; assumption. }
    destruct r as [t|e]; [|exact Hstop].
    destruct (String.eqb t ""); [exact Hstop|].
    destruct (action_sequence_in_group w cfg g c t s1) as [act [Hact Hin]].
    exists (snd (action_sequence w cfg g t s1)), (ev0 :: evs ++ act).
    split; [destruct (action_sequence w cfg g t s1) as [[[]|e] s2]; reflexivity|].
    split; [rewrite Hact, Htr, H0, <- !app_assoc; reflexivity|].
    constructor; [exact Hev0 | apply Forall_app; auto].
Qed.

Lemma loop_body_in_group w cfg g c s :
  exists s' evs,
    loop_body w cfg g c s = (Ok tt, s') /\
    trace s' = trace s ++ evs /\
    Forall (fun e => event_in_group cfg g c e = true) evs.
Proof.
  rewrite loop_body_cases.
  assert (Hidle : forall seconds,
             exists s' evs,
               (Ok tt, log (EvSleep seconds) (next_tick s)) = (Ok tt, s') /\
               trace s' = trace s ++ evs /\
               Forall (fun e => event_in_group cfg g c e = true) evs).
  { intros seconds. do 2 eexists. split; [reflexivity|].
    split; [reflexivity | repeat constructor]. }
  destruct (fst (_load_schedule w s)) as [[| | | | |d]|e]; try apply Hidle.
  destruct (py_float_ge _ _) as [[|]|e]; try apply Hidle.
  destruct (execute_duoshe_in_group w cfg g c (next_tick s))
    as [s2 [evs [Hrun [Htr Hin]]]].
  rewrite Hrun. cbn [snd]. cbn [trace next_tick] in Htr.
  do 2 eexists. split; [reflexivity|]. split.
  - destruct (fs_writable w); cbn [trace log set_file next_draw];
      rewrite Htr;
      repeat first [rewrite <- app_assoc | progress cbn [app]];
      reflexivity.
  - apply Forall_app. split; [exact Hin | repeat constructor].
Qed.

(** X21: a loop keeps to its group.  Over any number of passes, every
    request it sends goes to the configured server and names the loop's own
    group, and every message query is for the loop's own chat. *)
Theorem loop_keeps_to_its_group n w cfg g c :
  forall s evs,
    trace (snd (_schedule_task n w cfg g c s)) = trace s ++ evs ->
    Forall (fun e => event_in_group cfg g c e = true) evs.
Proof.
  induction n as [|n IH]; intros s evs Htr.
  - cbn [_schedule_task] in Htr. rewrite ret_run in Htr. cbn [snd] in Htr.
    rewrite <- (app_nil_r (trace s)) in Htr at 1.
    apply app_inv_head in Htr. subst evs. constructor.
  - cbn [_schedule_task] in Htr. rewrite bind_run in Htr.
    destruct (loop_body_in_group w cfg g c s) as [s1 [evs1 [Hrun [Htr1 Hin1]]]].
    rewrite Hrun in Htr.
    destruct (loop_body_extends w cfg g c s) as [s1' [_ [Hrun' _]]].
    assert (Hext : exists evs2,
               trace (snd (_schedule_task n w cfg g c s1)) = trace s1 ++ evs2).
    { clear. revert s1. induction n as [|n IHn]; intros s1.
      - exists []. cbn [_schedule_task]. rewrite ret_run, app_nil_r.
        reflexivity.
      - cbn [_schedule_task]. rewrite bind_run.
        destruct (loop_body_extends w cfg g c s1) as [s2 [evs2 [-> Htr2]]].
        destruct (IHn s2) as [evs3 Htr3].
        exists (evs2 ++ evs3). rewrite Htr3, Htr2, app_assoc. reflexivity. }
    destruct Hext as [evs2 Htr2].
    rewrite Htr2, Htr1, <- app_assoc in Htr. apply app_inv_head in Htr.
    subst evs. apply Forall_app. split; [exact Hin1|].
    exact (IH s1 evs2 Htr2).
Qed.

Lemma loop_keeps_to_its_group_witness :
  Forall (fun e => event_in_group example_config "1001" "chat" e = true)
         (admin_pass_events
            (JObj [("1001", JNum (15312465714480905872998400
                                  # 9007199254740992))])).
Proof.
  apply (loop_keeps_to_its_group 1 admin_world example_config "1001" "chat"
                                 initial_state).
  vm_compute. reflexivity.
Defined.

(** ** Start-up *)

Lemma digits_of_not_empty (fuel : nat) (v : Z) (c : ascii) (acc : string) :
  Codec.digits_of fuel v (String c acc) <> "".
Proof.
  revert v c acc. induction fuel as [|fuel IH]; intros v c acc;
    cbn [Codec.digits_of]; [discriminate|].
  destruct (v / 10 =? 0)%Z; [discriminate | apply IH].
Qed.

Lemma dump_nat_not_empty (v : Z) : Codec.dump_nat v <> "".
Proof.
  unfold Codec.dump_nat. cbn [Codec.digits_of].
  destruct (v / 10 =? 0)%Z; [discriminate | apply digits_of_not_empty].
Qed.

Lemma py_str_empty (x : scalar) : py_str x = "" <-> x = SStr "".
Proof.
  split; [|intros ->; reflexivity].
  destruct x as [s|z]; cbn [py_str]; [congruence|].
  destruct (z <? 0)%Z; [discriminate|].
  intros H. destruct (dump_nat_not_empty z H).
Qed.

Lemma created_fold (streams : list chat_stream) (self : plugin) :
  created (fold_left start_stream streams self)
  = created self ++ loops_of streams.
Proof.
  revert self. induction streams as [|st streams IH]; intros self;
    cbn [fold_left loops_of flat_map]; [rewrite app_nil_r; reflexivity|].
  rewrite IH. unfold start_stream.
  destruct (group_info st); cbn [created app];
    [rewrite <- app_assoc|]; reflexivity.
Qed.

Lemma bot_qq_fold (streams : list chat_stream) (self : plugin) :
  self_bot_qq (fold_left start_stream streams self) = self_bot_qq self.
Proof.
  revert self. induction streams as [|st streams IH]; intros self;
    cbn [fold_left]; [reflexivity|].
  rewrite IH. unfold start_stream. destruct (group_info st); reflexivity.
Qed.

(** X22: start-up creates no loop at all exactly when the account lookup
    raises, the configured account is the empty string, the listing of the
    group streams raises, or no stream carries group info.  An account
    given as a number, zero included, never counts as missing. *)
Theorem no_loop_started_iff (h : host) :
  created (_initialize_tasks h __init__) = [] <->
  (exists e, qq_account h = Raise e) \/
  qq_account h = Ok (SStr "") \/
  (exists e, group_streams h = Raise e) \/
  (exists streams, group_streams h = Ok streams /\
                   Forall (fun stream => group_info stream = None) streams).
Proof.
  unfold _initialize_tasks.
  destruct (qq_account h) as [account|e].
  - destruct (String.eqb_spec (py_str account) "") as [Hempty|Hfull].
    + apply py_str_empty in Hempty. subst account.
      split; [auto | reflexivity].
    + assert (Hacc : Ok account <> Ok (SStr "")).
      { intros H. injection H as ->. apply Hfull. reflexivity. }
      destruct (group_streams h) as [streams|e].
      * rewrite created_fold. cbn [created __init__ app]. split.
        -- intros Hnone. right; right; right. exists streams.
           split; [reflexivity|].
           unfold loops_of in Hnone. apply Forall_forall. intros st Hst.
           destruct (group_info st) as [info|] eqn:E; [|reflexivity].
           exfalso.
           assert (Hin : In (py_str (group_id info), stream_id st)
                            (flat_map
                               (fun stream =>
                                  match group_info stream with
                                  | Some info =>
                                      [(py_str (group_id info),
                                        stream_id stream)]
                                  | None => []
                                  end) streams)).
           { apply in_flat_map. exists st. split; [exact Hst|].
             rewrite E. left; reflexivity. }
           rewrite Hnone in Hin. destruct Hin.
        -- intros [[e He] | [He | [[e He] | [l [Hl Hall]]]]];
             try discriminate; try congruence.
           injection Hl as <-. unfold loops_of.
           induction Hall as [|st l Hst _ IH]; [reflexivity|].
           cbn [flat_map]. rewrite Hst. exact IH.
      * split; [eauto | reflexivity].
  - split; [eauto | reflexivity].
Qed.

(** X23: with a non-empty account and a listing of the streams, start-up
    records the account as a string and creates one loop for every stream
    that carries group info, in the order of the listing, each over the
    group number as a string and the stream's own id. *)
Theorem one_loop_per_group_stream (h : host) account streams :
  qq_account h = Ok account ->
  account <> SStr "" ->
  group_streams h = Ok streams ->
  self_bot_qq (_initialize_tasks h __init__) = Some (py_str account) /\
  created (_initialize_tasks h __init__) = loops_of streams /\
  (List.length (created (_initialize_tasks h __init__))
   <= List.length streams)%nat.
Proof.
  intros Hacc Hne Hstreams. unfold _initialize_tasks.
  rewrite Hacc, Hstreams.
  destruct (String.eqb_spec (py_str account) "") as [Hempty|_].
  { apply py_str_empty in Hempty. congruence. }
  rewrite bot_qq_fold, created_fold. cbn [self_bot_qq created __init__ app].
  split; [reflexivity|]. split; [reflexivity|].
  unfold loops_of. clear. induction streams as [|st streams IH];
    cbn [flat_map List.length]; [lia|].
  rewrite length_app. destruct (group_info st); cbn [List.length]; lia.
Qed.

Lemma tasks_get_set (d : list (string * nat)) (k k0 : string) (task : nat) :
  tasks_get (tasks_set d k task) k0
  = if String.eqb k k0 then Some task else tasks_get d k0.
Proof.
  induction d as [|[k' t'] d IH]; cbn [tasks_set tasks_get].
  - reflexivity.
  - destruct (String.eqb_spec k' k) as [->|Hk]; cbn [tasks_get].
    + destruct (String.eqb k k0); reflexivity.
    + destruct (String.eqb_spec k' k0) as [->|Hk0]; [|exact IH].
      destruct (String.eqb_spec k k0); congruence.
Qed.

Lemma tasks_set_keys_NoDup (d : list (string * nat)) (k : string) (task : nat) :
  NoDup (map fst d) -> NoDup (map fst (tasks_set d k task)).
Proof.
  induction d as [|[k' t'] d IH]; intros Hnd; cbn [tasks_set map fst].
  - repeat constructor. intros [].
  - cbn [map fst] in Hnd. inversion Hnd as [|? ? Hk' Hnd']; subst.
    destruct (String.eqb_spec k' k) as [->|Hk]; cbn [map fst];
      [exact Hnd|].
    constructor; [|apply IH; exact Hnd'].
    intros Hin. apply Hk'. clear - Hin Hk.
    induction d as [|[k1 t1] d IH]; cbn [tasks_set map fst In] in *.
    + destruct Hin as [Hin|[]]. congruence.
    + destruct (String.eqb_spec k1 k) as [->|Hk1]; cbn [map fst In] in Hin;
        tauto.
Qed.

Lemma last_created_app (k k0 sid : string) (l : list (string * string)) :
  forall i,
    last_created_from k0 (l ++ [(k, sid)]) i
    = if String.eqb k k0 then Some (i + List.length l)%nat
      else last_created_from k0 l i.
Proof.
  induction l as [|[k' sid'] l IH]; intros i;
    cbn [app last_created_from List.length].
  - rewrite Nat.add_0_r. destruct (String.eqb k k0); reflexivity.
  - rewrite IH. destruct (String.eqb k k0).
    + f_equal. lia.
    + reflexivity.
Qed.

(** The registry holds, for every group, the last loop created for it. *)
Lemma registry_fold (streams : list chat_stream) (self : plugin) :
  NoDup (map fst (tasks self)) ->
  (forall k, tasks_get (tasks self) k = last_created_from k (created self) 0) ->
  let self' := fold_left start_stream streams self in
  NoDup (map fst (tasks self')) /\
  forall k, tasks_get (tasks self') k = last_created_from k (created self') 0.
Proof.
  revert self. induction streams as [|st streams IH]; intros self Hnd Hinv;
    cbn [fold_left]; [split; assumption|].
  apply IH; unfold start_stream; destruct (group_info st) as [info|];
    cbn [tasks created]; try assumption.
  - apply tasks_set_keys_NoDup. exact Hnd.
  - intros k. rewrite tasks_get_set, last_created_app, Hinv. reflexivity.
Qed.

Lemma tasks_set_length (d : list (string * nat)) (k : string) (task : nat) :
  (List.length (tasks_set d k task) <= S (List.length d))%nat.
Proof.
  induction d as [|[k' t'] d IH]; cbn [tasks_set List.length]; [lia|].
  destruct (String.eqb k' k); cbn [List.length]; lia.
Qed.

Lemma registry_size_fold (streams : list chat_stream) (self : plugin) :
  (List.length (tasks self) <= List.length (created self))%nat ->
  (List.length (tasks (fold_left start_stream streams self))
   <= List.length (created (fold_left start_stream streams self)))%nat.
Proof.
  revert self. induction streams as [|st streams IH]; intros self Hle;
    cbn [fold_left]; [exact Hle|].
  apply IH. unfold start_stream. destruct (group_info st) as [info|];
    cbn [tasks created]; [|exact Hle].
  rewrite length_app. cbn [List.length].
  pose proof (tasks_set_length (tasks self) (py_str (group_id info))
                               (List.length (created self))).
  lia.
Qed.

(** X24: after start-up the registry [self.tasks] has one entry per group
    number, and the entry of a group is the loop created last for it: when
    the listing names a group more than once, every occurrence gets a loop
    of its own but only the last one can be reached through the
    registry. *)
Theorem registry_keeps_last_loop (h : host) :
  let self := _initialize_tasks h __init__ in
  NoDup (map fst (tasks self)) /\
  (forall k, tasks_get (tasks self) k = last_created_from k (created self) 0) /\
  (List.length (tasks self) <= List.length (created self))%nat.
Proof.
  assert (H : let self := _initialize_tasks h __init__ in
              NoDup (map fst (tasks self)) /\
              forall k, tasks_get (tasks self) k
                        = last_created_from k (created self) 0).
  { unfold _initialize_tasks.
    destruct (qq_account h) as [account|e];
      [|split; [constructor | reflexivity]].
    destruct (String.eqb (py_str account) "");
      [split; [constructor | reflexivity]|].
    destruct (group_streams h) as [streams|e];
      [|split; [constructor | reflexivity]].
    apply registry_fold; [constructor | reflexivity]. }
  cbv zeta in *. destruct H as [Hnd Hinv]. split; [exact Hnd|].
  split; [exact Hinv|].
  unfold _initialize_tasks.
  destruct (qq_account h) as [account|e]; [|cbn; lia].
  destruct (String.eqb (py_str account) ""); [cbn; lia|].
  destruct (group_streams h) as [streams|e]; [|cbn; lia].
  apply registry_size_fold. cbn. lia.
Qed.

Lemma one_loop_per_group_stream_witness :
  self_bot_qq (_initialize_tasks example_host __init__) = Some "42" /\
  created (_initialize_tasks example_host __init__)
  = [("1001", "chat-a"); ("2002", "chat-b"); ("1001", "chat-c")] /\
  (List.length (created (_initialize_tasks example_host __init__)) <= 4)%nat.
Proof.
  apply (one_loop_per_group_stream
           example_host (SInt 42)
           [mkStream "chat-a" (Some (mkGroupInfo (SInt 1001)));
            mkStream "private" None;
            mkStream "chat-b" (Some (mkGroupInfo (SStr "2002")));
            mkStream "chat-c" (Some (mkGroupInfo (SInt 1001)))]).
  - reflexivity.
  - discriminate.
  - reflexivity.
Defined.

(** ** Exceptions of the remote client *)

(** X25: [group_poke] never raises.  [set_group_card] and
    [get_group_member_info] raise, with an [AttributeError], exactly when
    the request went through and the response decoded to something that is
    not an object; every other outcome is returned as a pair. *)
Theorem napcat_raises_only_on_non_object_body :
  (forall r, exists success result,
      poke_result (transport r) = Ok (success, result)) /\
  (forall r e,
      set_card_result (transport r) = Raise e
      <-> e = AttributeError /\
          exists j, r = Body j /\ forall d, j <> JObj d) /\
  (forall r e,
      member_info_result (transport r) = Raise e
      <-> e = AttributeError /\
          exists j, r = Body j /\ forall d, j <> JObj d).
Proof.
  split; [|split].
  - intros r. destruct r; cbn; eauto.
  - intros r e. destruct r as [code|reason| | |j];
      try (cbn; split; [discriminate | intros [_ [j [H _]]]; discriminate H]).
    cbn [transport set_card_result negb].
    destruct j as [| | | | |d];
      try (cbn; split;
           [intros H; injection H as <-; split; [reflexivity|];
            eexists; split; [reflexivity | discriminate]
           | intros [-> _]; reflexivity]).
    split.
    + cbn [result_get py_get].
      destruct (negb (is_str (dict_get_default d "status" JNull) "ok"));
        discriminate.
    + intros [_ [j [Hj Hno]]]. injection Hj as <-. destruct (Hno d eq_refl).
  - intros r e. destruct r as [code|reason| | |j];
      try (cbn; split; [discriminate | intros [_ [j [H _]]]; discriminate H]).
    cbn [transport member_info_result negb].
    destruct j as [| | | | |d];
      try (cbn; split;
           [intros H; injection H as <-; split; [reflexivity|];
            eexists; split; [reflexivity | discriminate]
           | intros [-> _]; reflexivity]).
    split.
    + cbn [result_get py_get].
      destruct (dict_get_default d "data" JNull); discriminate.
    + intros [_ [j [Hj Hno]]]. injection Hj as <-. destruct (Hno d eq_refl).
Qed.
